(** * xmailer: message serialisation and the SMTP transaction of [Send]

    A shallow embedding of [xmailer.go].  Go strings are [string] (a
    sequence of bytes), [[]byte] is [list byte], pointers to attachments
    are addresses into an explicit heap, and everything the code asks of
    the outside (the SMTP server, the clock, the file system) is answered
    by a [World] of oracles while the calls are recorded in a trace.
    The two constructors take [net.SplitHostPort] as a parameter. *)

From Stdlib Require Import NArith ZArith List Bool Lia.
From Stdlib Require Import Strings.String Strings.Ascii Strings.Byte.
From Stdlib Require Import DecimalString DecimalZ DecimalPos.
Import ListNotations.

Local Open Scope list_scope.
Local Open Scope string_scope.

(** ** encoding/base64, standard alphabet with padding

    [payload] calls [base64.StdEncoding.EncodeToString]; the encoder
    follows the loop of the Go library (24-bit groups assembled with
    shifts and ors, a padded tail for one or two remaining bytes).  The
    decoder is the inverse reading of RFC 4648 quanta. *)
Module Base64.

Definition encodeStd : string :=
  "ABCDEFGHIJKLMNOPQRSTUVWXYZabcdefghijklmnopqrstuvwxyz0123456789+/".

Definition padChar : ascii := "="%char.

(** [enc.encode[i]]: the index is always masked with [0x3F]. *)
Definition encode (i : N) : ascii :=
  match String.get (N.to_nat i) encodeStd with
  | Some c => c
  | None => padChar
  end.

Definition sextet (val : N) (shift : N) : ascii :=
  encode (N.land (N.shiftr val shift) 63).

(** [uint(src[i])]; the value stays below [2^24], far from any wrap. *)
Definition uint (b : byte) : N := Byte.to_N b.

Fixpoint EncodeToString (src : list byte) : string :=
  match src with
  | [] => ""
  | [b0] =>
      let val := N.shiftl (uint b0) 16 in
      String (sextet val 18) (String (sextet val 12)
        (String padChar (String padChar "")))
  | [b0; b1] =>
      let val := N.lor (N.shiftl (uint b0) 16) (N.shiftl (uint b1) 8) in
      String (sextet val 18) (String (sextet val 12)
        (String (sextet val 6) (String padChar "")))
  | b0 :: b1 :: b2 :: rest =>
      let val := N.lor (N.lor (N.shiftl (uint b0) 16) (N.shiftl (uint b1) 8))
                       (uint b2) in
      String (sextet val 18) (String (sextet val 12)
        (String (sextet val 6) (String (sextet val 0)
          (EncodeToString rest))))
  end.

Fixpoint index_from (c : ascii) (s : string) (i : N) : option N :=
  match s with
  | "" => None
  | String d s' => if Ascii.eqb c d then Some i else index_from c s' (N.succ i)
  end.

(** The decode map: position of a character in the alphabet. *)
Definition decodeMap (c : ascii) : option N := index_from c encodeStd 0.

(** [byte(v)]: truncation to the low eight bits. *)
Definition low_byte (v : N) : byte :=
  match Byte.of_N (N.land v 255) with
  | Some b => b
  | None => x00
  end.

Definition quantum (d0 d1 d2 d3 : N) : N :=
  N.lor (N.lor (N.lor (N.shiftl d0 18) (N.shiftl d1 12)) (N.shiftl d2 6)) d3.

Fixpoint DecodeString (s : string) : option (list byte) :=
  match s with
  | "" => Some []
  | String c0 (String c1 (String c2 (String c3 rest))) =>
      match decodeMap c0, decodeMap c1 with
      | Some d0, Some d1 =>
          if Ascii.eqb c2 padChar then
            if Ascii.eqb c3 padChar && String.eqb rest "" then
              Some [low_byte (N.shiftr (quantum d0 d1 0 0) 16)]
            else None
          else
            match decodeMap c2 with
            | Some d2 =>
                if Ascii.eqb c3 padChar then
                  if String.eqb rest "" then
                    let val := quantum d0 d1 d2 0 in
                    Some [low_byte (N.shiftr val 16); low_byte (N.shiftr val 8)]
                  else None
                else
                  match decodeMap c3 with
                  | Some d3 =>
                      let val := quantum d0 d1 d2 d3 in
                      option_map
                        (fun tl => low_byte (N.shiftr val 16)
                                   :: low_byte (N.shiftr val 8)
                                   :: low_byte val :: tl)
                        (DecodeString rest)
                  | None => None
                  end
            | None => None
            end
      | _, _ => None
      end
  | _ => None
  end.

End Base64.

(** ** Go values *)

Definition CR : ascii := ascii_of_nat 13.
Definition LF : ascii := ascii_of_nat 10.
Definition CRLF : string := String CR (String LF "").
Definition DQUOTE : string := String (ascii_of_nat 34) "".

(** An [error] value is identified with its message. *)
Definition error : Type := string.

(** What a call does: return normally, return a non-nil [error], or
    panic (a nil dereference). *)
Inductive outcome (A : Type) : Type :=
| Ok (a : A)
| Err (e : error)
| Panic (site : string).
Arguments Ok {A} a.
Arguments Err {A} e.
Arguments Panic {A} site.

(** [%d] of [fmt.Sprintf]. *)
Definition itoa (z : Z) : string := NilZero.string_of_int (Z.to_int z).

(** [strings.Join]. *)
Definition Join (elems : list string) (sep : string) : string :=
  String.concat sep elems.

(** ** The data model *)

(** A [*Attachment]: nil, or the address of an attachment in the heap. *)
Definition ptr : Type := option nat.

Record Attachment : Type := mkAttachment {
  ContentType : string;
  FileName : string;
  BaseName : string;
  Content : option (list byte)   (* [None] is the nil slice *)
}.

Record Message : Type := mkMessage {
  Subject : string;
  FromAddr : string;
  FromName : string;
  To : list string;
  CC : list string;
  Bcc : list string;
  Text : string;
  HTML : string;
  Attachments : list ptr
}.

Record TLSConfig : Type := mkTLSConfig { ServerName : string }.

(** [smtp.PlainAuth(identity, username, password, host)]. *)
Record PlainAuth : Type := mkPlainAuth {
  identity : string;
  username : string;
  password : string;
  authHost : string
}.

(** A live [*smtp.Client]. *)
Inductive Client : Type := Conn (id : nat).

Record XMailer : Type := mkXMailer {
  Addr : string;
  Host : string;
  auth : PlainAuth;
  client : option Client;        (* [None] is the nil pointer *)
  dialed : bool;
  tlsConfig : option TLSConfig
}.

Record FileInfo : Type := mkFileInfo { Size : nat; IsDir : bool }.

(** ** The outside world *)

(** Calls on the connection (the functions and methods of net/smtp and
    crypto/tls, the writer of the data phase) and on the file system,
    in the order they are made. *)
Inductive event : Type :=
| EvSmtpDial (addr : string)
| EvTlsDial (addr : string) (cfg : option TLSConfig)
| EvNewClient (addr : string)
| EvHello (localName : string)
| EvStartTLS (cfg : option TLSConfig)
| EvAuth (a : PlainAuth)
| EvMail (from : string)
| EvRcpt (to : string)
| EvData
| EvWrite (p : list byte)
| EvClose
| EvQuit
| EvStat (path : string)
| EvOpenFile (path : string)
| EvRead (path : string) (size : nat).

(** The answers of the environment.  Every answer may depend on the
    history of calls made so far. *)
Record World : Type := mkWorld {
  connect_reply : list event -> event -> error + Client;
  cmd_reply : list event -> event -> option error;
  extension_reply : list event -> string -> bool;
  stat_reply : list event -> string -> error + FileInfo;
  read_reply : list event -> string -> list byte * option error;
  unixNano : nat -> Z;               (* [time.Now().UnixNano()], per reading *)
  rfc1123z : nat -> string;          (* [time.Now().Format(time.RFC1123Z)] *)
  hostname : error + string;         (* [os.Hostname()] *)
  getpid : Z;                        (* [os.Getpid()] *)
  randomBoundary : string;           (* [multipart.NewWriter(buf).Boundary()] *)
  mime_TypeByExtension : string -> string;
  filepath_Ext : string -> string;
  path_Base : string -> string
}.

(** ** Process state

    [boundary] is the package-level variable; [mailer] and [message] are
    the objects behind the receiver [x] and the argument [m]; [heap]
    holds the attachments [m.Attachments] points to. *)
Record State : Type := mkState {
  boundary : string;
  mailer : XMailer;
  message : Message;
  heap : list Attachment;
  clock : nat;
  trace : list event
}.

Definition set_mailer (x : XMailer) (st : State) : State :=
  mkState (boundary st) x (message st) (heap st) (clock st) (trace st).
Definition set_message (m : Message) (st : State) : State :=
  mkState (boundary st) (mailer st) m (heap st) (clock st) (trace st).
Definition set_heap (h : list Attachment) (st : State) : State :=
  mkState (boundary st) (mailer st) (message st) h (clock st) (trace st).
Definition set_clock (c : nat) (st : State) : State :=
  mkState (boundary st) (mailer st) (message st) (heap st) c (trace st).
Definition set_trace (t : list event) (st : State) : State :=
  mkState (boundary st) (mailer st) (message st) (heap st) (clock st) t.
Definition set_boundary (b : string) (st : State) : State :=
  mkState b (mailer st) (message st) (heap st) (clock st) (trace st).

Definition with_client (c : option Client) (x : XMailer) : XMailer :=
  mkXMailer (Addr x) (Host x) (auth x) c (dialed x) (tlsConfig x).
Definition with_dialed (d : bool) (x : XMailer) : XMailer :=
  mkXMailer (Addr x) (Host x) (auth x) (client x) d (tlsConfig x).
Definition with_Subject (s : string) (m : Message) : Message :=
  mkMessage s (FromAddr m) (FromName m) (To m) (CC m) (Bcc m) (Text m)
            (HTML m) (Attachments m).
Definition with_Attachments (l : list ptr) (m : Message) : Message :=
  mkMessage (Subject m) (FromAddr m) (FromName m) (To m) (CC m) (Bcc m)
            (Text m) (HTML m) l.
Definition with_Content (c : option (list byte)) (a : Attachment) : Attachment :=
  mkAttachment (ContentType a) (FileName a) (BaseName a) c.

(** ** A monad for calls: state passing, with [return err] and panics
    leaving the rest of the body unexecuted. *)
Definition M (A : Type) : Type := State -> outcome A * State.

Definition ret {A} (a : A) : M A := fun st => (Ok a, st).

Definition bind {A B} (c : M A) (k : A -> M B) : M B :=
  fun st =>
    match c st with
    | (Ok a, st') => k a st'
    | (Err e, st') => (Err e, st')
    | (Panic s, st') => (Panic s, st')
    end.

Notation "x <- c ;; k" := (bind c (fun x => k))
  (at level 61, c at next level, right associativity).
Notation "c ;;; k" := (bind c (fun _ => k))
  (at level 61, right associativity).

Definition raise {A} (e : error) : M A := fun st => (Err e, st).
Definition panic {A} (site : string) : M A := fun st => (Panic site, st).
Definition get : M State := fun st => (Ok st, st).
Definition modify (f : State -> State) : M unit := fun st => (Ok tt, f st).

(** A call whose [error] result is dropped: [x.Dial()] as a statement,
    [w.Write(payload)].  A panic still unwinds. *)
Definition discard {A} (c : M A) : M unit :=
  fun st =>
    match c st with
    | (Ok _, st') => (Ok tt, st')
    | (Err _, st') => (Ok tt, st')
    | (Panic s, st') => (Panic s, st')
    end.

(** [defer cleanup(); body]: the deferred call runs when the body is
    left, whichever way, and its results are dropped. *)
Definition deferring {A} (cleanup : M unit) (body : M A) : M A :=
  fun st =>
    match body st with
    | (r, st') => (r, snd (cleanup st'))
    end.

Definition emit (e : event) : M unit :=
  modify (fun st => set_trace (trace st ++ [e])%list st).

Definition of_error (r : option error) : M unit :=
  match r with
  | None => ret tt
  | Some e => raise e
  end.

(** A call on the connection or the file system that answers with nil
    or an error. *)
Definition command (w : World) (e : event) : M unit :=
  st <- get;;
  emit e;;;
  of_error (cmd_reply w (trace st) e).

(** ** net/smtp, as far as [xmailer] drives it *)

(** Methods of [*smtp.Client] read fields of their receiver: on the nil
    client they panic. *)
Definition on_client {A} (site : string) (k : Client -> M A) : M A :=
  st <- get;;
  match client (mailer st) with
  | None => panic site
  | Some c => k c
  end.

Definition has_newline (s : string) : bool :=
  existsb (fun c => Ascii.eqb c CR || Ascii.eqb c LF) (list_ascii_of_string s).

(** [validateLine], which [Mail] and [Rcpt] apply to their argument
    before anything else. *)
Definition validateLine (line : string) : M unit :=
  if has_newline line
  then raise "smtp: A line must not contain CR or LF"
  else ret tt.

Definition smtp_Dial (w : World) (addr : string) : M Client :=
  st <- get;;
  emit (EvSmtpDial addr);;;
  match connect_reply w (trace st) (EvSmtpDial addr) with
  | inl e => raise e
  | inr c => ret c
  end.

Definition tls_Dial_NewClient (w : World) (addr : string)
    (t : option TLSConfig) : M Client :=
  st <- get;;
  emit (EvTlsDial addr t);;;
  match cmd_reply w (trace st) (EvTlsDial addr t) with
  | Some e => raise e
  | None =>
      st <- get;;
      emit (EvNewClient addr);;;
      match connect_reply w (trace st) (EvNewClient addr) with
      | inl e => raise e
      | inr c => ret c
      end
  end.

(** [Hello] is only ever given [LocalName], which passes the line
    check. *)
Definition client_Hello (w : World) (localName : string) : M unit :=
  on_client "Hello" (fun _ => command w (EvHello localName)).

Definition client_Extension (w : World) (ext : string) : M bool :=
  on_client "Extension" (fun _ =>
    st <- get;; ret (extension_reply w (trace st) ext)).

Definition client_StartTLS (w : World) (cfg : option TLSConfig) : M unit :=
  on_client "StartTLS" (fun _ => command w (EvStartTLS cfg)).

Definition client_Auth (w : World) (a : PlainAuth) : M unit :=
  on_client "Auth" (fun _ => command w (EvAuth a)).

Definition client_Mail (w : World) (from : string) : M unit :=
  validateLine from;;;
  on_client "Mail" (fun _ => command w (EvMail from)).

Definition client_Rcpt (w : World) (to : string) : M unit :=
  validateLine to;;;
  on_client "Rcpt" (fun _ => command w (EvRcpt to)).

Definition client_Data (w : World) : M unit :=
  on_client "Data" (fun _ => command w EvData).

Definition client_Quit (w : World) : M unit :=
  on_client "Quit" (fun _ => command w EvQuit).

(** The [io.WriteCloser] returned by [Data]. *)
Definition writer_Write (w : World) (p : list byte) : M unit :=
  command w (EvWrite p).
Definition writer_Close (w : World) : M unit :=
  command w EvClose.

(** ** os and time *)

Definition time_Now : M nat :=
  st <- get;;
  modify (set_clock (S (clock st)));;;
  ret (clock st).

Definition os_Stat (w : World) (path : string) : M FileInfo :=
  st <- get;;
  emit (EvStat path);;;
  match stat_reply w (trace st) path with
  | inl e => raise e
  | inr finfo => ret finfo
  end.

Definition os_OpenFile (w : World) (path : string) : M unit :=
  command w (EvOpenFile path).

(** [fp.Read(buf)] into a zeroed buffer of [size] bytes: the buffer
    afterwards, and the error of the read. *)
Definition file_Read (w : World) (path : string) (size : nat)
    : M (list byte * option error) :=
  st <- get;;
  emit (EvRead path size);;;
  let r := read_reply w (trace st) path in
  ret (firstn size (fst r ++ repeat x00 size)%list, snd r).

(** ** xmailer.go *)

Definition LocalName : string := "localhost".

(** The placeholder subject, two CJK characters in UTF-8. *)
Definition defaultSubject : string :=
  string_of_list_byte [xe6; x97; xa0; xe9; xa2; x98].

(** *** Helpers *)

Definition generateMessageID (w : World) : M string :=
  now <- time_Now;;
  let t := unixNano w now in
  let h := match hostname w with
           | inl _ => "localdomain"
           | inr h => h
           end in
  let pid := getpid w in
  ret (itoa pid ++ "." ++ itoa t ++ "@" ++ h).

Definition generateBoundary (w : World) : string := randomBoundary w.

Definition ParseContentTypeWithExt (w : World) (fileNameWithExt : string)
    : string :=
  if String.eqb fileNameWithExt "" then "application/octet-stream"
  else
    let ext := filepath_Ext w fileNameWithExt in
    if String.eqb ext "" then "application/octet-stream"
    else
      let ct := mime_TypeByExtension w ext in
      if String.eqb ct "" then "application/octet-stream"
      else ct.

(** [readFile] returns the buffer together with the error of the read;
    its only caller drops the buffer when the error is not nil. *)
Definition readFile (w : World) (fileWithFullPath : string) : M (list byte) :=
  finfo <- os_Stat w fileWithFullPath;;
  let size := Size finfo in
  os_OpenFile w fileWithFullPath;;;
  r <- file_Read w fileWithFullPath size;;
  match snd r with
  | Some e => raise e
  | None => ret (fst r)
  end.

(** *** Attachments behind pointers *)

Definition deref (a : ptr) : M Attachment :=
  st <- get;;
  match a with
  | None => panic "nil *Attachment"
  | Some i =>
      match nth_error (heap st) i with
      | Some att => ret att
      | None => panic "invalid *Attachment"
      end
  end.

Fixpoint update {A : Type} (l : list A) (i : nat) (x : A) : list A :=
  match l, i with
  | [], _ => []
  | _ :: tl, O => x :: tl
  | hd :: tl, S j => hd :: update tl j x
  end.

(** [attachment.Content = content] *)
Definition store_Content (a : ptr) (content : list byte) : M unit :=
  match a with
  | None => panic "nil *Attachment"
  | Some i =>
      modify (fun st =>
        match nth_error (heap st) i with
        | Some att => set_heap (update (heap st) i (with_Content (Some content) att)) st
        | None => st
        end)
  end.

(** *** The message API *)

Definition NewMessage : Message := mkMessage "" "" "" [] [] [] "" "" [].

Definition SetFrom (name from : string) (m : Message) : Message :=
  mkMessage (Subject m) from name (To m) (CC m) (Bcc m) (Text m) (HTML m)
            (Attachments m).

Definition SetSubject (subject : string) (m : Message) : Message :=
  with_Subject subject m.

Definition AddTo (tos : list string) (m : Message) : Message :=
  mkMessage (Subject m) (FromAddr m) (FromName m) (To m ++ tos)%list (CC m) (Bcc m)
            (Text m) (HTML m) (Attachments m).

Definition AddCC (c : string) (m : Message) : Message :=
  mkMessage (Subject m) (FromAddr m) (FromName m) (To m) (CC m ++ [c])%list (Bcc m)
            (Text m) (HTML m) (Attachments m).

Definition AddBCC (c : string) (m : Message) : Message :=
  mkMessage (Subject m) (FromAddr m) (FromName m) (To m) (CC m) (Bcc m ++ [c])%list
            (Text m) (HTML m) (Attachments m).

Definition SetText (text : string) (m : Message) : Message :=
  mkMessage (Subject m) (FromAddr m) (FromName m) (To m) (CC m) (Bcc m)
            text (HTML m) (Attachments m).

Definition SetHTML (html : string) (m : Message) : Message :=
  mkMessage (Subject m) (FromAddr m) (FromName m) (To m) (CC m) (Bcc m)
            (Text m) html (Attachments m).

Definition AddAttachment (attachment : ptr) (m : Message) : Message :=
  with_Attachments (Attachments m ++ [attachment])%list m.

Definition Reset (m : Message) : Message :=
  mkMessage "" "" "" [] [] [] "" "" [].

Definition ReplaceAll_backslash (s : string) : string :=
  string_of_list_ascii
    (map (fun c => if Ascii.eqb c "\"%char then "/"%char else c)
         (list_ascii_of_string s)).

(** [&Attachment{...}]: a fresh address. *)
Definition new_Attachment (att : Attachment) : M ptr :=
  st <- get;;
  modify (set_heap (heap st ++ [att])%list);;;
  ret (Some (List.length (heap st))).

Definition AttachFile (w : World) (fileName : string) : M unit :=
  let fileName := ReplaceAll_backslash fileName in
  let ct := ParseContentTypeWithExt w fileName in
  finfo <- os_Stat w fileName;;
  if IsDir finfo then raise (fileName ++ " is not a file")
  else
    let basename := path_Base w fileName in
    a <- new_Attachment (mkAttachment ct fileName basename None);;
    modify (fun st => set_message (AddAttachment a (message st)) st).

(** *** Serialisation *)

(** The body of the loop over [m.Attachments]; [p] is the builder. *)
Fixpoint writeAttachments (w : World) (boundary : string) (atts : list ptr)
    (p : string) : M string :=
  match atts with
  | [] => ret p
  | attachment :: rest =>
      att <- deref attachment;;
      content <- match Content att with
                 | None =>
                     content <- readFile w (FileName att);;
                     store_Content attachment content;;;
                     ret content
                 | Some content => ret content
                 end;;
      let p := p ++ ("Content-Disposition: attachment;" ++ CRLF
                     ++ " filename=" ++ DQUOTE ++ BaseName att ++ DQUOTE ++ CRLF) in
      let p := p ++ ("Content-Id: <" ++ BaseName att ++ ">" ++ CRLF) in
      let p := p ++ ("Content-Transfer-Encoding: base64" ++ CRLF) in
      let p := p ++ ("Content-Type: " ++ ContentType att ++ CRLF ++ CRLF) in
      let p := p ++ Base64.EncodeToString content in
      let p := p ++ (CRLF ++ "--" ++ boundary ++ CRLF) in
      writeAttachments w boundary rest p
  end.

Definition payload (w : World) (m : Message) : M (list byte) :=
  messageID <- generateMessageID w;;
  now <- time_Now;;
  st <- get;;
  let boundary := boundary st in
  let p := "" in
  let p := p ++ ("Message-Id: " ++ messageID ++ CRLF ++ "Mime-Version: 1.0" ++ CRLF
                 ++ "Date: " ++ rfc1123z w now ++ CRLF) in
  let p := p ++ ("From: " ++ FromName m ++ " <" ++ FromAddr m ++ ">" ++ CRLF) in
  let p := p ++ ("To: " ++ Join (To m) ", " ++ CRLF) in
  let p := if Nat.ltb 0 (List.length (CC m))
           then p ++ ("CC: " ++ Join (CC m) ", " ++ CRLF) else p in
  let p := if Nat.ltb 0 (List.length (Bcc m))
           then p ++ ("BCC: " ++ Join (Bcc m) ", " ++ CRLF) else p in
  let isMixed := Nat.ltb 0 (List.length (Attachments m)) in
  let isAlternative :=
    Nat.ltb 0 (String.length (Text m)) && Nat.ltb 0 (String.length (HTML m)) in
  let p :=
    if isMixed then
      p ++ ("Content-Type: multipart/mixed;" ++ CRLF ++ " boundary=" ++ boundary ++ CRLF)
    else if isAlternative then
      p ++ ("Content-Type: multipart/alternative;" ++ CRLF ++ " boundary=" ++ boundary ++ CRLF)
    else if Nat.ltb 0 (String.length (HTML m)) then
      (p ++ ("Content-Type: text/html; charset=UTF-8" ++ CRLF))
        ++ ("Content-Transfer-Encoding: quoted-printable" ++ CRLF)
    else
      (p ++ ("Content-Type: text/plain; charset=UTF-8" ++ CRLF))
        ++ ("Content-Transfer-Encoding: quoted-printable" ++ CRLF) in
  let p := p ++ ("Subject: " ++ Subject m ++ CRLF) in
  let p := if isMixed || isAlternative
           then p ++ (CRLF ++ "--" ++ boundary ++ CRLF) else p in
  let p :=
    if Nat.ltb 0 (String.length (Text m)) then
      let p := if isAlternative || isMixed
               then (p ++ ("Content-Type: text/plain; charset=UTF-8" ++ CRLF))
                      ++ ("Content-Transfer-Encoding: quoted-printable" ++ CRLF)
               else p in
      let p := p ++ (CRLF ++ Text m ++ CRLF) in
      if isAlternative || isMixed
      then p ++ ("--" ++ boundary ++ CRLF) else p
    else p in
  let p :=
    if Nat.ltb 0 (String.length (HTML m)) then
      let p := if isAlternative || isMixed
               then (p ++ ("Content-Type: text/html; charset=UTF-8" ++ CRLF))
                      ++ ("Content-Transfer-Encoding: quoted-printable" ++ CRLF)
               else p in
      let p := p ++ (CRLF ++ HTML m ++ CRLF) in
      if isAlternative || isMixed
      then p ++ ("--" ++ boundary ++ CRLF) else p
    else p in
  p <- (if isMixed then writeAttachments w boundary (Attachments m) p
        else ret p);;
  ret (list_byte_of_string p).

(** *** The session *)

Definition set_client (c : option Client) : M unit :=
  modify (fun st => set_mailer (with_client c (mailer st)) st).

Definition set_dialed (d : bool) : M unit :=
  modify (fun st => set_mailer (with_dialed d (mailer st)) st).

Definition Auth (w : World) : M unit :=
  ok <- client_Extension w "AUTH";;
  if ok : bool then
    st <- get;;
    client_Auth w (auth (mailer st))
  else ret tt.

Definition Dial (w : World) : M unit :=
  st <- get;;
  co <- smtp_Dial w (Addr (mailer st));;
  set_client (Some co);;;
  client_Hello w LocalName;;;
  ok <- client_Extension w "STARTTLS";;
  (if ok : bool then
     st <- get;;
     let tlsConfig := match tlsConfig (mailer st) with
                      | Some t => t
                      | None => mkTLSConfig (Host (mailer st))
                      end in
     client_StartTLS w (Some tlsConfig)
   else ret tt);;;
  Auth w;;;
  set_dialed true.

Definition DialWithTLS (w : World) (t : option TLSConfig) : M unit :=
  st <- get;;
  co <- tls_Dial_NewClient w (Addr (mailer st)) t;;
  set_client (Some co);;;
  client_Hello w LocalName;;;
  Auth w;;;
  set_dialed true.

Definition DialWithStartTLS (w : World) (t : option TLSConfig) : M unit :=
  st <- get;;
  co <- smtp_Dial w (Addr (mailer st));;
  set_client (Some co);;;
  client_Hello w LocalName;;;
  ok <- client_Extension w "STARTTLS";;
  (if ok : bool then client_StartTLS w t else ret tt);;;
  Auth w;;;
  set_dialed true.

Definition Quit (w : World) : M unit :=
  discard (client_Quit w).

(** [for _, t := range m.To { if err := x.client.Rcpt(t); ... } ] *)
Fixpoint rcptLoop (w : World) (tos : list string) : M unit :=
  match tos with
  | [] => ret tt
  | t :: rest => client_Rcpt w t;;; rcptLoop w rest
  end.

Definition Send (w : World) : M unit :=
  st <- get;;
  (if negb (dialed (mailer st)) then discard (Dial w) else ret tt);;;
  st <- get;;
  if String.eqb (FromAddr (message st)) "" then
    raise "Must specify the From address"
  else if Nat.eqb (List.length (To (message st))) 0 then
    raise "Must specify at least one To address"
  else
    (if String.eqb (Subject (message st)) ""
     then modify (fun st => set_message (with_Subject defaultSubject (message st)) st)
     else ret tt);;;
    st <- get;;
    let m := message st in
    client_Mail w (FromAddr m);;;
    rcptLoop w (To m);;;
    client_Data w;;;
    deferring (discard (writer_Close w))
      (payload <- payload w m;;
       discard (writer_Write w payload);;;
       ret tt).

(** Package initialisation: [var boundary = generateBoundary()]. *)
Definition init (w : World) (x : XMailer) (m : Message) : State :=
  mkState (generateBoundary w) x m [] 0 [].

(** ** The envelope as the specification describes it

    Header fields as name/value pairs, a body that is either a single
    section or a sequence of parts between delimiter lines.  [payload]
    is compared with these renderings below. *)
Module Envelope.

Definition header (name value : string) : string :=
  name ++ ": " ++ value ++ CRLF.

Fixpoint render (fields : list (string * string)) : string :=
  match fields with
  | [] => ""
  | (name, value) :: rest => header name value ++ render rest
  end.

Inductive shape : Type := Mixed | Alternative | SingleHTML | SinglePlain.

Definition nonempty (s : string) : bool := negb (String.eqb s "").

Definition shape_of (m : Message) : shape :=
  match Attachments m with
  | _ :: _ => Mixed
  | [] =>
      if nonempty (Text m) && nonempty (HTML m) then Alternative
      else if nonempty (HTML m) then SingleHTML
      else SinglePlain
  end.

Definition multipart (m : Message) : bool :=
  match shape_of m with
  | Mixed | Alternative => true
  | SingleHTML | SinglePlain => false
  end.

(** The field list, in the order it is emitted. *)
Definition content_fields (m : Message) (boundary : string)
    : list (string * string) :=
  match shape_of m with
  | Mixed =>
      [("Content-Type", "multipart/mixed;" ++ CRLF ++ " boundary=" ++ boundary)]
  | Alternative =>
      [("Content-Type",
        "multipart/alternative;" ++ CRLF ++ " boundary=" ++ boundary)]
  | SingleHTML =>
      [("Content-Type", "text/html; charset=UTF-8");
       ("Content-Transfer-Encoding", "quoted-printable")]
  | SinglePlain =>
      [("Content-Type", "text/plain; charset=UTF-8");
       ("Content-Transfer-Encoding", "quoted-printable")]
  end.

Definition optional_field (name : string) (addrs : list string)
    : list (string * string) :=
  match addrs with
  | [] => []
  | _ :: _ => [(name, Join addrs ", ")]
  end.

Definition fields (m : Message) (messageID date boundary : string)
    : list (string * string) :=
  ([("Message-Id", messageID); ("Mime-Version", "1.0"); ("Date", date);
    ("From", (FromName m ++ " <" ++ FromAddr m ++ ">")%string);
    ("To", Join (To m) ", ")]
   ++ optional_field "CC" (CC m)
   ++ optional_field "BCC" (Bcc m)
   ++ content_fields m boundary
   ++ [("Subject", Subject m)])%list.

(** One part of a multi-part body. *)
Record part : Type := mkPart {
  part_fields : list (string * string);
  part_body : string
}.

Definition render_part (q : part) : string :=
  render (part_fields q) ++ CRLF ++ part_body q ++ CRLF.

Definition plain_part (text : string) : part :=
  mkPart [("Content-Type", "text/plain; charset=UTF-8");
          ("Content-Transfer-Encoding", "quoted-printable")] text.

Definition html_part (html : string) : part :=
  mkPart [("Content-Type", "text/html; charset=UTF-8");
          ("Content-Transfer-Encoding", "quoted-printable")] html.

Definition attachment_part (att : Attachment) (content : list byte) : part :=
  mkPart [("Content-Disposition",
           "attachment;" ++ CRLF ++ " filename=" ++ DQUOTE ++ BaseName att ++ DQUOTE);
          ("Content-Id", "<" ++ BaseName att ++ ">");
          ("Content-Transfer-Encoding", "base64");
          ("Content-Type", ContentType att)]
         (Base64.EncodeToString content).

(** The open delimiter line. *)
Definition delimiter (boundary : string) : string :=
  "--" ++ boundary ++ CRLF.

(** The closing delimiter line of a well-terminated multi-part body. *)
Definition terminator (boundary : string) : string :=
  "--" ++ boundary ++ "--" ++ CRLF.

Fixpoint delimited (boundary : string) (parts : list part) : string :=
  match parts with
  | [] => ""
  | q :: rest => render_part q ++ delimiter boundary ++ delimited boundary rest
  end.

(** A blank line, a delimiter, then every part followed by a delimiter. *)
Definition multipart_body (boundary : string) (parts : list part) : string :=
  CRLF ++ delimiter boundary ++ delimited boundary parts.

Definition text_parts (m : Message) : list part :=
  ((if nonempty (Text m) then [plain_part (Text m)] else [])
   ++ (if nonempty (HTML m) then [html_part (HTML m)] else []))%list.

(** The part of an attachment whose bytes are in the heap [h]. *)
Definition resolved_part (h : list Attachment) (a : ptr) : option part :=
  match a with
  | None => None
  | Some i =>
      match nth_error h i with
      | Some att =>
          match Content att with
          | Some content => Some (attachment_part att content)
          | None => None
          end
      | None => None
      end
  end.

Fixpoint attachment_parts (h : list Attachment) (atts : list ptr) : list part :=
  match atts with
  | [] => []
  | a :: rest =>
      match resolved_part h a with
      | Some q => q :: attachment_parts h rest
      | None => attachment_parts h rest
      end
  end.

(** A single section: blank line, the text, a line end; nothing at all
    for an empty text. *)
Definition single_body (text : string) : string :=
  if nonempty text then CRLF ++ text ++ CRLF else "".

Definition body (m : Message) (h : list Attachment) (boundary : string)
    : string :=
  match shape_of m with
  | Mixed | Alternative =>
      multipart_body boundary (text_parts m ++ attachment_parts h (Attachments m))
  | SingleHTML => single_body (HTML m)
  | SinglePlain => single_body (Text m)
  end.

End Envelope.

(** ** Views of a trace and of an envelope *)

Definition is_transaction_event (e : event) : bool :=
  match e with
  | EvMail _ | EvRcpt _ | EvData => true
  | _ => false
  end.

Definition is_file_event (e : event) : bool :=
  match e with
  | EvStat _ | EvOpenFile _ | EvRead _ _ => true
  | _ => false
  end.

Definition is_connect_event (e : event) : bool :=
  match e with
  | EvSmtpDial _ | EvTlsDial _ _ | EvNewClient _ | EvHello _
  | EvStartTLS _ | EvAuth _ => true
  | _ => false
  end.

(** The recipients declared in a trace, in order. *)
Fixpoint rcpts (tr : list event) : list string :=
  match tr with
  | [] => []
  | EvRcpt t :: rest => t :: rcpts rest
  | _ :: rest => rcpts rest
  end.

(** The message id and date [payload] computes in state [st]. *)
Definition messageID_at (w : World) (st : State) : string :=
  itoa (getpid w) ++ "." ++ itoa (unixNano w (clock st)) ++ "@"
  ++ match hostname w with
     | inl _ => "localdomain"
     | inr h => h
     end.

Definition date_at (w : World) (st : State) : string :=
  rfc1123z w (S (clock st)).

(** Lines of a text, split at CRLF. *)
Fixpoint lines (s : string) : list string :=
  match s with
  | "" => [""]
  | String c s' =>
      match s' with
      | String d s'' =>
          if Ascii.eqb c CR && Ascii.eqb d LF then "" :: lines s''
          else match lines s' with
               | l :: ls => String c l :: ls
               | [] => [String c ""]
               end
      | "" => [String c ""]
      end
  end.

Fixpoint before_colon (s : string) : string :=
  match s with
  | "" => ""
  | String c s' => if Ascii.eqb c ":" then "" else String c (before_colon s')
  end.

Definition is_continuation (l : string) : bool :=
  match l with
  | String c _ => Ascii.eqb c " " || Ascii.eqb c (ascii_of_nat 9)
  | "" => false
  end.

Fixpoint header_block (ls : list string) : list string :=
  match ls with
  | [] => []
  | l :: rest => if String.eqb l "" then [] else l :: header_block rest
  end.

(** Names of the header fields of an envelope: the lines up to the
    first empty one, folded continuation lines left out. *)
Definition header_names (envelope : string) : list string :=
  map before_colon
      (filter (fun l => negb (is_continuation l)) (header_block (lines envelope))).

(** The transaction commands of [Send] are accepted by the server:
    sender, each recipient in turn, and the data command. *)
Fixpoint rcpts_accepted (w : World) (h : list event) (tos : list string) : bool :=
  match tos with
  | [] => true
  | t :: rest =>
      negb (has_newline t)
      && match cmd_reply w h (EvRcpt t) with
         | None => rcpts_accepted w (h ++ [EvRcpt t])%list rest
         | Some _ => false
         end
  end.

Definition transaction_accepted (w : World) (h : list event) (m : Message) : bool :=
  negb (has_newline (FromAddr m))
  && match cmd_reply w h (EvMail (FromAddr m)) with
     | None =>
         rcpts_accepted w (h ++ [EvMail (FromAddr m)])%list (To m)
         && match cmd_reply w (h ++ [EvMail (FromAddr m)] ++ map EvRcpt (To m))%list
                            EvData with
            | None => true
            | Some _ => false
            end
     | Some _ => false
     end.

(** The message as [Send] hands it to [payload]: an empty subject is
    replaced by the placeholder. *)
Definition defaulted (m : Message) : Message :=
  if String.eqb (Subject m) "" then with_Subject defaultSubject m else m.

(** The commands that open a transaction for [m]. *)
Definition opening (m : Message) : list event :=
  ([EvMail (FromAddr m)] ++ map EvRcpt (To m) ++ [EvData])%list.

(** The fields every envelope starts with. *)
Definition standard_fields (m : Message) (messageID date : string)
    : list (string * string) :=
  ([("Message-Id", messageID); ("Mime-Version", "1.0"); ("Date", date);
    ("From", (FromName m ++ " <" ++ FromAddr m ++ ">")%string);
    ("To", Join (To m) ", ")]
   ++ Envelope.optional_field "CC" (CC m)
   ++ Envelope.optional_field "BCC" (Bcc m))%list.

(** Header names in the order [payload] emits them. *)
Definition emitted_names (m : Message) : list string :=
  (["Message-Id"; "Mime-Version"; "Date"; "From"; "To"]
   ++ match CC m with [] => [] | _ :: _ => ["CC"] end
   ++ match Bcc m with [] => [] | _ :: _ => ["BCC"] end
   ++ ["Content-Type"]
   ++ (if Envelope.multipart m then [] else ["Content-Transfer-Encoding"])
   ++ ["Subject"])%list.

(** Header names as the wire format description lists them. *)
Definition listed_names (m : Message) : list string :=
  (["Message-Id"; "Mime-Version"; "Date"; "From"; "To"]
   ++ match CC m with [] => [] | _ :: _ => ["CC"] end
   ++ ["Content-Type"; "Subject"])%list.

(** A field value keeps to its header when every line after its first
    is a folded continuation. *)
Definition tidy (value : string) : bool :=
  forallb is_continuation (tl (lines value)).

(** A line that could be a delimiter: it starts with a dash. *)
Definition starts_with_dash (l : string) : bool :=
  match l with
  | String c _ => Ascii.eqb c "-"
  | "" => false
  end.

Definition name_ok (name : string) : bool :=
  negb (String.eqb name "") && negb (is_continuation name)
  && negb (starts_with_dash name)
  && forallb (fun c => negb (Ascii.eqb c ":") && negb (Ascii.eqb c CR))
             (list_ascii_of_string name).

(** The attachment behind [a] has its bytes. *)
Definition present (h : list Attachment) (a : ptr) : Prop :=
  exists i att c, a = Some i /\ nth_error h i = Some att /\ Content att = Some c.

Definition resolved (h : list Attachment) (i : nat) (att : Attachment) : Prop :=
  nth_error h i = Some att /\ Content att <> None.

(** The part [q] of attachment [a] carries, base64-encoded, the bytes
    the heap holds for it. *)
Definition carries (h : list Attachment) (a : ptr) (q : Envelope.part) : Prop :=
  exists i att c,
    a = Some i /\ nth_error h i = Some att /\ Content att = Some c
    /\ q = Envelope.attachment_part att c
    /\ Base64.DecodeString (Envelope.part_body q) = Some c.

(** What a connection attempt can do to the state. *)
Definition connect_step (st st' : State) : Prop :=
  exists ce x',
    st' = set_mailer x' (set_trace (trace st ++ ce) st)
    /\ forallb is_connect_event ce = true.

(** The trace only grows. *)
Definition grows (st st' : State) : Prop :=
  exists d, trace st' = (trace st ++ d)%list.

Definition same_boundary (st st' : State) : Prop :=
  boundary st' = boundary st.

(** [c] keeps the relation [R] between the state before and after. *)
Definition respects (R : State -> State -> Prop) {A : Type} (c : M A) : Prop :=
  forall st, R st (snd (c st)).

(** [c] keeps every relation that is reflexive, transitive and kept by
    the elementary updates of trace, clock, heap, mailer and message. *)
Definition framed {A : Type} (c : M A) : Prop :=
  forall R : State -> State -> Prop,
    (forall st, R st st) ->
    (forall a b c, R a b -> R b c -> R a c) ->
    (forall st e, R st (set_trace (trace st ++ [e]) st)) ->
    (forall st n, R st (set_clock n st)) ->
    (forall st h, R st (set_heap h st)) ->
    (forall st x, R st (set_mailer x st)) ->
    (forall st m, R st (set_message m st)) ->
    respects R c.

(** Calls a program makes on the package, and what the program itself
    may do to the objects it holds; the package variable [boundary] is
    not exported and so out of its reach. *)
Inductive call : Type :=
| CallSend
| CallDial
| CallDialWithTLS (t : option TLSConfig)
| CallDialWithStartTLS (t : option TLSConfig)
| CallAuth
| CallQuit
| CallAttachFile (fileName : string)
| CallerSets (x : XMailer) (m : Message) (h : list Attachment).

Definition exec (w : World) (c : call) (st : State) : State :=
  match c with
  | CallSend => snd (Send w st)
  | CallDial => snd (Dial w st)
  | CallDialWithTLS t => snd (DialWithTLS w t st)
  | CallDialWithStartTLS t => snd (DialWithStartTLS w t st)
  | CallAuth => snd (Auth w st)
  | CallQuit => snd (Quit w st)
  | CallAttachFile f => snd (AttachFile w f st)
  | CallerSets x m h => set_heap h (set_message m (set_mailer x st))
  end.

Definition run (w : World) (calls : list call) (st : State) : State :=
  fold_left (fun s c => exec w c s) calls st.

(** ** Texts up to associativity of [++]

    A text built from characters, opaque strings and concatenation, and
    its right-nested normal form; two texts with the same normal form
    are the same string. *)
Inductive rope : Type :=
| RNil
| RChr (c : ascii) (r : rope)
| RVar (s : string)
| RCat (a b : rope).

Fixpoint denote (r : rope) : string :=
  match r with
  | RNil => ""
  | RChr c r' => String c (denote r')
  | RVar s => s
  | RCat a b => denote a ++ denote b
  end.

Fixpoint flat (r k : rope) : rope :=
  match r with
  | RNil => k
  | RChr c r' => RChr c (flat r' k)
  | RVar s => RCat (RVar s) k
  | RCat a b => flat a (flat b k)
  end.

(** ** Sample worlds, sessions and messages *)

(** A server that accepts every command and announces no extension; no
    file can be read. *)
Definition world_ok : World :=
  mkWorld (fun _ _ => inr (Conn 0)) (fun _ _ => None) (fun _ _ => false)
          (fun _ _ => inl "stat: no such file or directory")
          (fun _ _ => ([], None))
          (fun _ => 1136239445000000000%Z)
          (fun _ => "Mon, 02 Jan 2006 15:04:05 -0700")
          (inr "mailhost") 4242%Z
          "5a7d3c1f9b2e4d6a8c0e1f3b5d7a9c2e4f6081a3c5e7092b4d6f8a1c3e50"
          (fun _ => "text/plain; charset=utf-8") (fun _ => ".txt") (fun s => s).

(** The server announces STARTTLS and then refuses it; every other
    command is accepted. *)
Definition world_starttls_refused : World :=
  mkWorld (fun _ _ => inr (Conn 0))
          (fun _ e => match e with
                      | EvStartTLS _ => Some "454 TLS not available"
                      | _ => None
                      end)
          (fun _ ext => String.eqb ext "STARTTLS")
          (fun _ _ => inl "stat: no such file or directory")
          (fun _ _ => ([], None))
          (fun _ => 1136239445000000000%Z)
          (fun _ => "Mon, 02 Jan 2006 15:04:05 -0700")
          (inr "mailhost") 4242%Z
          "5a7d3c1f9b2e4d6a8c0e1f3b5d7a9c2e4f6081a3c5e7092b4d6f8a1c3e50"
          (fun _ => "text/plain; charset=utf-8") (fun _ => ".txt") (fun s => s).

(** No connection can be made. *)
Definition world_unreachable : World :=
  mkWorld (fun _ _ => inl "dial tcp: connection refused")
          (fun _ _ => None) (fun _ _ => false)
          (fun _ _ => inl "stat: no such file or directory")
          (fun _ _ => ([], None))
          (fun _ => 1136239445000000000%Z)
          (fun _ => "Mon, 02 Jan 2006 15:04:05 -0700")
          (inr "mailhost") 4242%Z
          "5a7d3c1f9b2e4d6a8c0e1f3b5d7a9c2e4f6081a3c5e7092b4d6f8a1c3e50"
          (fun _ => "text/plain; charset=utf-8") (fun _ => ".txt") (fun s => s).

Definition mailer_new : XMailer :=
  mkXMailer "smtp.x.com:587" "smtp.x.com"
            (mkPlainAuth "" "a@x.com" "secret" "smtp.x.com") None false None.

Definition mailer_up : XMailer :=
  mkXMailer "smtp.x.com:587" "smtp.x.com"
            (mkPlainAuth "" "a@x.com" "secret" "smtp.x.com")
            (Some (Conn 0)) true None.

Definition msg_plain : Message :=
  mkMessage "Greetings" "a@x.com" "A" ["b@y.com"] [] [] "hi" "" [].

Definition msg_no_recipient : Message :=
  mkMessage "Greetings" "a@x.com" "A" [] ["c@y.com"] [] "hi" "" [].

Definition msg_alternative : Message :=
  mkMessage "Greetings" "a@x.com" "A" ["b@y.com"] [] ["z@y.com"]
            "hi" "<b>hi</b>" [].

Definition msg_attachment : Message :=
  mkMessage "Greetings" "a@x.com" "A" ["b@y.com"; "c@y.com"] ["d@y.com"]
            ["e@y.com"] "" "<b>hi</b>" [Some 0].

Definition heap_AB : list Attachment :=
  [mkAttachment "text/plain" "" "f.txt" (Some ["A"%byte; "B"%byte])].

Definition heap_unread : list Attachment :=
  [mkAttachment "text/plain" "/srv/f.txt" "f.txt" None].

Definition start (w : World) (x : XMailer) (m : Message)
    (h : list Attachment) : State :=
  set_heap h (init w x m).

Definition envelope_of (r : outcome (list byte) * State) : list byte :=
  match fst r with
  | Ok p => p
  | _ => []
  end.

Definition st_plain : State := start world_ok mailer_up msg_plain [].
Definition st_alternative : State := start world_ok mailer_up msg_alternative [].
Definition st_attachment : State :=
  start world_ok mailer_new msg_attachment heap_AB.
Definition st_no_recipient : State :=
  start world_ok mailer_new msg_no_recipient [].
Definition st_refused : State :=
  start world_starttls_refused mailer_new msg_plain [].
Definition st_unreachable : State :=
  start world_unreachable mailer_new msg_plain [].

(** ** The constructors

    [net.SplitHostPort] is a parameter; [strings.Index] is only asked
    for a colon. *)

(** [strings.Index(s, string(c))]: the position of the first [c], or
    [-1]. *)
Fixpoint Index_byte (s : string) (c : ascii) : Z :=
  match s with
  | "" => -1
  | String d s' =>
      if Ascii.eqb d c then 0
      else
        let i := Index_byte s' c in
        if Z.eqb i (-1) then -1 else i + 1
  end%Z.

Definition len (s : string) : Z := Z.of_nat (String.length s).

Definition NewXMailer (SplitHostPort : string -> error + (string * string))
    (addr username passwd : string) : error + XMailer :=
  let pos := Index_byte addr ":" in
  if Z.eqb pos (-1) || Z.eqb pos 0 || Z.eqb pos (len addr - 1) then
    inl "invalid smtp server address"
  else
    match SplitHostPort addr with
    | inl err => inl err
    | inr (host, _) =>
        inr (mkXMailer addr host (mkPlainAuth "" username passwd host)
                       None false None)
    end.

Definition NewXMailerWithStartTLS
    (SplitHostPort : string -> error + (string * string))
    (addr username passwd : string) (tlsConfig : option TLSConfig)
    : error + XMailer :=
  let pos := Index_byte addr ":" in
  if Z.eqb pos (-1) || Z.eqb pos 0 || Z.eqb pos (len addr - 1) then
    inl "invalid smtp server address"
  else
    match SplitHostPort addr with
    | inl err => inl err
    | inr (host, _) =>
        match tlsConfig with
        | None => inl "Must specify the TLS config"
        | Some t =>
            inr (mkXMailer addr host (mkPlainAuth "" username passwd host)
                           None false (Some t))
        end
    end.

(** ** Further views *)

(** From [st] to [st'] only calls that satisfy [P] were made, and the
    session object is the one it was. *)
Definition calls_only (P : event -> bool) (st st' : State) : Prop :=
  exists d, trace st' = (trace st ++ d)%list
            /\ forallb P d = true
            /\ mailer st' = mailer st.

Definition same_message (st st' : State) : Prop :=
  message st' = message st.

(** What a dial function answers in [st] and leaves behind: success
    with the session marked as dialed and a client in place, or an
    error with the mark as it was; address, host, credentials and TLS
    configuration stay. *)
Definition dial_result (st : State) (r : outcome unit * State) : Prop :=
  match fst r with
  | Ok _ => dialed (mailer (snd r)) = true /\ client (mailer (snd r)) <> None
  | Err _ => dialed (mailer (snd r)) = dialed (mailer st)
  | Panic _ => False
  end
  /\ Addr (mailer (snd r)) = Addr (mailer st)
  /\ Host (mailer (snd r)) = Host (mailer st)
  /\ auth (mailer (snd r)) = auth (mailer st)
  /\ tlsConfig (mailer (snd r)) = tlsConfig (mailer st).

Definition is_quit_event (e : event) : bool :=
  match e with
  | EvQuit => true
  | _ => false
  end.

Definition is_data_event (e : event) : bool :=
  match e with
  | EvWrite _ | EvClose => true
  | _ => false
  end.

(** What [Send] may do on a session that is already dialed. *)
Definition is_send_event (e : event) : bool :=
  is_transaction_event e || is_file_event e || is_data_event e.

Definition no_backslash (s : string) : bool :=
  forallb (fun c => negb (Ascii.eqb c "\"%char)) (list_ascii_of_string s).

Definition no_colon (s : string) : bool :=
  forallb (fun c => negb (Ascii.eqb c ":"%char)) (list_ascii_of_string s).

(** The server announces AUTH but not STARTTLS and accepts everything;
    one file of two bytes can be read. *)
Definition world_auth_files : World :=
  mkWorld (fun _ _ => inr (Conn 0)) (fun _ _ => None)
          (fun _ ext => String.eqb ext "AUTH")
          (fun _ path => if String.eqb path "/srv/f.txt"
                         then inr (mkFileInfo 2 false)
                         else if String.eqb path "/srv"
                              then inr (mkFileInfo 0 true)
                              else inl "stat: no such file or directory")
          (fun _ _ => (["A"%byte; "B"%byte], None))
          (fun n => (1136239445000000000 + Z.of_nat n)%Z)
          (fun _ => "Mon, 02 Jan 2006 15:04:05 -0700")
          (inr "mailhost") 4242%Z
          "5a7d3c1f9b2e4d6a8c0e1f3b5d7a9c2e4f6081a3c5e7092b4d6f8a1c3e50"
          (fun _ => "text/plain; charset=utf-8") (fun _ => ".txt")
          (fun _ => "f.txt").

(** The server refuses the second recipient, and the close of the data
    phase. *)
Definition world_picky : World :=
  mkWorld (fun _ _ => inr (Conn 0))
          (fun _ e => match e with
                      | EvRcpt t => if String.eqb t "c@y.com"
                                    then Some "550 no such user" else None
                      | EvClose => Some "554 transaction failed"
                      | _ => None
                      end)
          (fun _ _ => false)
          (fun _ _ => inl "stat: no such file or directory")
          (fun _ _ => ([], None))
          (fun _ => 1136239445000000000%Z)
          (fun _ => "Mon, 02 Jan 2006 15:04:05 -0700")
          (inr "mailhost") 4242%Z
          "5a7d3c1f9b2e4d6a8c0e1f3b5d7a9c2e4f6081a3c5e7092b4d6f8a1c3e50"
          (fun _ => "text/plain; charset=utf-8") (fun _ => ".txt") (fun s => s).

(** A file that is there when it is attached and gone afterwards:
    the first [os.Stat] of the run succeeds, every later one fails. *)
Definition world_file_removed : World :=
  mkWorld (fun _ _ => inr (Conn 0)) (fun _ _ => None) (fun _ _ => false)
          (fun h _ => if existsb is_file_event h
                      then inl "stat: no such file or directory"
                      else inr (mkFileInfo 2 false))
          (fun _ _ => (["A"%byte; "B"%byte], None))
          (fun _ => 1136239445000000000%Z)
          (fun _ => "Mon, 02 Jan 2006 15:04:05 -0700")
          (inr "mailhost") 4242%Z
          "5a7d3c1f9b2e4d6a8c0e1f3b5d7a9c2e4f6081a3c5e7092b4d6f8a1c3e50"
          (fun _ => "text/plain; charset=utf-8") (fun _ => ".txt")
          (fun _ => "f.txt").

Definition msg_html : Message :=
  mkMessage "Greetings" "a@x.com" "A" ["b@y.com"] [] [] "" "<b>hi</b>" [].

Definition st_files : State :=
  start world_auth_files mailer_up msg_attachment heap_unread.
Definition st_files_new : State :=
  start world_auth_files mailer_new msg_plain [].
Definition st_picky : State :=
  start world_picky mailer_up msg_attachment [].
Definition st_picky_plain : State :=
  start world_picky mailer_up msg_plain [].
Definition st_removed : State :=
  start world_file_removed mailer_up msg_plain [].

(** [net.SplitHostPort] on the addresses of the samples. *)
Definition split_sample (addr : string) : error + (string * string) :=
  if String.eqb addr "smtp.x.com:587" then inr ("smtp.x.com", "587")
  else inl "address: missing port in address".

(** * Properties *)

(** ** Strings *)

Lemma append_assoc (a b c : string) : (a ++ b) ++ c = a ++ (b ++ c).
Proof. induction a as [|x a IH]; simpl; [reflexivity | now rewrite IH]. Qed.

Lemma append_nil_r (a : string) : a ++ "" = a.
Proof. induction a as [|x a IH]; simpl; [reflexivity | now rewrite IH]. Qed.

Lemma length_append (a b : string) :
  String.length (a ++ b) = String.length a + String.length b.
Proof. induction a as [|c a IH]; cbn; [reflexivity | now rewrite IH]. Qed.

(** Two suffixes of one string that have the same length are equal. *)
Lemma append_same_length_suffix (a a' x y : string) :
  String.length x = String.length y -> a ++ x = a' ++ y -> x = y.
Proof.
  revert a'. induction a as [|c a IH]; intros [|c' a'] Hlen H; cbn in H.
  - exact H.
  - subst x. cbn in Hlen. rewrite length_append in Hlen. lia.
  - subst y. cbn in Hlen. rewrite length_append in Hlen. lia.
  - injection H as _ H. exact (IH _ Hlen H).
Qed.

Lemma flat_denote r : forall k, denote (flat r k) = denote r ++ denote k.
Proof.
  induction r as [|c r IH|s|a IHa b IHb]; intros k; cbn.
  - reflexivity.
  - now rewrite IH.
  - reflexivity.
  - now rewrite IHa, IHb, append_assoc.
Qed.

Lemma rope_eq r1 r2 : flat r1 RNil = flat r2 RNil -> denote r1 = denote r2.
Proof.
  intros H. rewrite <- (append_nil_r (denote r1)), <- (append_nil_r (denote r2)).
  change "" with (denote RNil). rewrite <- !flat_denote. now rewrite H.
Qed.

Ltac reify s :=
  lazymatch s with
  | EmptyString => constr:(RNil)
  | String ?c ?t => let r := reify t in constr:(RChr c r)
  | append ?a ?b =>
      let ra := reify a in let rb := reify b in constr:(RCat ra rb)
  | ?x => constr:(RVar x)
  end.

(** Equality of two concatenations of the same pieces. *)
Ltac same_text :=
  lazymatch goal with
  | |- ?a = ?b =>
      let ra := reify a in
      let rb := reify b in
      change (denote ra = denote rb); apply rope_eq;
      lazy beta iota delta [flat]; reflexivity
  end.

(** ** Base64: decoding undoes encoding *)
Module Base64Facts.
Import Base64.
Local Open Scope N_scope.

(** Or-ing bit fields that do not overlap adds them. *)
Lemma lor_disjoint_add (a b k : N) :
  a mod 2 ^ k = 0 -> b < 2 ^ k -> N.lor a b = a + b.
Proof.
  intros Ha Hb.
  assert (Hand : N.land a b = 0).
  { apply N.bits_inj; intro n. rewrite N.land_spec, N.bits_0.
    destruct (N.lt_ge_cases n k) as [Hn | Hn].
    - replace (N.testbit a n) with false; [reflexivity|].
      symmetry. rewrite <- (N.mod_pow2_bits_low a k n Hn), Ha. apply N.bits_0.
    - replace (N.testbit b n) with false; [apply andb_false_r|].
      symmetry. destruct (N.eq_dec b 0) as [->|Hb0]; [apply N.bits_0|].
      apply N.bits_above_log2. apply N.log2_lt_pow2; [lia|].
      apply N.lt_le_trans with (2 ^ k); [assumption|].
      apply N.pow_le_mono_r; lia. }
  rewrite <- N.lxor_lor by assumption.
  symmetry. apply N.add_nocarry_lxor. assumption.
Qed.

Ltac Zify.zify_post_hook ::= Z.to_euclidean_division_equations.

Lemma group_of_three (b0 b1 b2 : N) :
  b0 <= 255 -> b1 <= 255 -> b2 <= 255 ->
  N.lor (N.lor (N.shiftl b0 16) (N.shiftl b1 8)) b2
  = b0 * 65536 + b1 * 256 + b2.
Proof.
  intros. rewrite !N.shiftl_mul_pow2.
  change (2 ^ 16) with 65536. change (2 ^ 8) with 256.
  rewrite (lor_disjoint_add (b0 * 65536) (b1 * 256) 16);
    [| change (2 ^ 16) with 65536; lia ..].
  rewrite (lor_disjoint_add _ b2 8); [| change (2 ^ 8) with 256; lia ..].
  reflexivity.
Qed.

Lemma quantum_add (d0 d1 d2 d3 : N) :
  d0 < 64 -> d1 < 64 -> d2 < 64 -> d3 < 64 ->
  quantum d0 d1 d2 d3 = d0 * 262144 + d1 * 4096 + d2 * 64 + d3.
Proof.
  intros. unfold quantum. rewrite !N.shiftl_mul_pow2.
  change (2 ^ 18) with 262144. change (2 ^ 12) with 4096.
  change (2 ^ 6) with 64.
  rewrite (lor_disjoint_add (d0 * 262144) (d1 * 4096) 18);
    [| change (2 ^ 18) with 262144; lia ..].
  rewrite (lor_disjoint_add _ (d2 * 64) 12);
    [| change (2 ^ 12) with 4096; lia ..].
  rewrite (lor_disjoint_add _ d3 6); [| change (2 ^ 6) with 64; lia ..].
  reflexivity.
Qed.

Lemma six_bits (v k : N) : N.land (N.shiftr v k) 63 = (v / 2 ^ k) mod 64.
Proof.
  rewrite N.shiftr_div_pow2. change 63 with (N.ones 6).
  rewrite N.land_ones. reflexivity.
Qed.

Lemma low_byte_spec (v : N) (b : byte) :
  v mod 256 = Byte.to_N b -> low_byte v = b.
Proof.
  intros Hv. unfold low_byte. change 255 with (N.ones 8).
  rewrite N.land_ones. change (2 ^ 8) with 256. rewrite Hv.
  rewrite Byte.of_to_N. reflexivity.
Qed.

Lemma below_64 (P : N -> Prop) :
  (forall i, In i (map N.of_nat (seq 0 64)) -> P i) -> forall i, i < 64 -> P i.
Proof.
  intros HP i Hi. apply HP. apply in_map_iff. exists (N.to_nat i).
  split; [lia|]. apply in_seq. lia.
Qed.

Lemma decodeMap_encode (i : N) : i < 64 -> decodeMap (encode i) = Some i.
Proof.
  revert i. apply below_64. intros i Hi.
  assert (Hall : forallb (fun i => match decodeMap (encode i) with
                                   | Some j => N.eqb j i
                                   | None => false
                                   end)
                         (map N.of_nat (seq 0 64)) = true)
    by (vm_compute; reflexivity).
  rewrite forallb_forall in Hall. specialize (Hall i Hi).
  destruct (decodeMap (encode i)) as [j|]; [|discriminate].
  apply N.eqb_eq in Hall. congruence.
Qed.

Lemma encode_not_pad (i : N) : i < 64 -> Ascii.eqb (encode i) padChar = false.
Proof.
  revert i. apply below_64. intros i Hi.
  assert (Hall : forallb (fun i => negb (Ascii.eqb (encode i) padChar))
                         (map N.of_nat (seq 0 64)) = true)
    by (vm_compute; reflexivity).
  rewrite forallb_forall in Hall. specialize (Hall i Hi).
  apply negb_true_iff in Hall. exact Hall.
Qed.

Lemma sextet_lt (v k : N) : N.land (N.shiftr v k) 63 < 64.
Proof. rewrite six_bits. apply N.mod_lt. discriminate. Qed.

Lemma decodeMap_sextet (v k : N) :
  decodeMap (sextet v k) = Some (N.land (N.shiftr v k) 63).
Proof. apply decodeMap_encode, sextet_lt. Qed.

Lemma sextet_not_pad (v k : N) : Ascii.eqb (sextet v k) padChar = false.
Proof. apply encode_not_pad, sextet_lt. Qed.

Lemma DecodeString_EncodeToString_upto (n : nat) : forall l : list byte,
  (List.length l <= n)%nat -> DecodeString (EncodeToString l) = Some l.
Proof.
  induction n as [|n IH]; intros l Hl.
  - destruct l; [reflexivity | simpl in Hl; lia].
  - destruct l as [|b0 [|b1 [|b2 rest]]]; [reflexivity| | |].
    + cbn [EncodeToString DecodeString].
      rewrite !decodeMap_sextet, !Ascii.eqb_refl. cbn [andb String.eqb].
      f_equal. f_equal. apply low_byte_spec.
      pose proof (Byte.to_N_bounded b0) as B0. unfold uint in *.
      rewrite quantum_add by (try apply sextet_lt; lia).
      rewrite !six_bits, !N.shiftl_mul_pow2, N.shiftr_div_pow2.
      change (2 ^ 16) with 65536. change (2 ^ 18) with 262144.
      change (2 ^ 12) with 4096. lia.
    + cbn [EncodeToString DecodeString].
      rewrite !decodeMap_sextet, !sextet_not_pad.
      rewrite Ascii.eqb_refl. cbn [String.eqb].
      pose proof (Byte.to_N_bounded b0) as B0.
      pose proof (Byte.to_N_bounded b1) as B1. unfold uint in *.
      replace (N.lor (N.shiftl (to_N b0) 16) (N.shiftl (to_N b1) 8))
        with (to_N b0 * 65536 + to_N b1 * 256 + 0)
        by (rewrite <- (group_of_three _ _ 0) by lia;
            rewrite N.lor_0_r; reflexivity).
      rewrite quantum_add by (try apply sextet_lt; lia).
      rewrite !six_bits.
      change (2 ^ 18) with 262144. change (2 ^ 12) with 4096.
      change (2 ^ 6) with 64.
      f_equal. f_equal; [|f_equal]; apply low_byte_spec;
        rewrite N.shiftr_div_pow2;
        [change (2 ^ 16) with 65536 | change (2 ^ 8) with 256]; lia.
    + cbn [EncodeToString DecodeString].
      rewrite !decodeMap_sextet, !sextet_not_pad.
      rewrite IH by (simpl in Hl; lia). cbn [option_map].
      pose proof (Byte.to_N_bounded b0) as B0.
      pose proof (Byte.to_N_bounded b1) as B1.
      pose proof (Byte.to_N_bounded b2) as B2. unfold uint in *.
      rewrite group_of_three by lia.
      rewrite quantum_add by apply sextet_lt.
      rewrite !six_bits.
      change (2 ^ 18) with 262144. change (2 ^ 12) with 4096.
      change (2 ^ 6) with 64. change (2 ^ 0) with 1.
      f_equal. f_equal; [|f_equal; [|f_equal]]; apply low_byte_spec;
        rewrite ?N.shiftr_div_pow2;
        try change (2 ^ 16) with 65536; try change (2 ^ 8) with 256; lia.
Qed.

Ltac Zify.zify_post_hook ::= idtac.

End Base64Facts.

(** The round trip of the standard encoding. *)
Lemma DecodeString_EncodeToString (src : list byte) :
  Base64.DecodeString (Base64.EncodeToString src) = Some src.
Proof.
  apply (Base64Facts.DecodeString_EncodeToString_upto (List.length src)). lia.
Qed.

Example base64_AB : Base64.EncodeToString ["A"%byte; "B"%byte] = "QUI=".
Proof. reflexivity. Qed.

Example base64_AB_back :
  Base64.DecodeString "QUI=" = Some ["A"%byte; "B"%byte].
Proof. reflexivity. Qed.

Example base64_ABC_back :
  Base64.DecodeString "QUJD" = Some ["A"%byte; "B"%byte; "C"%byte].
Proof. reflexivity. Qed.

Example base64_truncated : Base64.DecodeString "QUI" = None.
Proof. reflexivity. Qed.

(** ** Reading files and the loop over attachments *)

Lemma set_trace_same st : set_trace (trace st) st = st.
Proof. destruct st; reflexivity. Qed.

(** Effect of [readFile]: file events only. *)
Lemma readFile_frame w path st r st' :
  readFile w path st = (r, st') ->
  exists fe, st' = set_trace (trace st ++ fe)%list st
             /\ forallb is_file_event fe = true.
Proof.
  unfold readFile, os_Stat, os_OpenFile, file_Read, command, bind, get, emit,
    modify, of_error, ret, raise.
  cbn [trace set_trace].
  destruct (stat_reply w (trace st) path) as [e | finfo]; cbn.
  - intros [= <- <-]. exists [EvStat path]. split; reflexivity.
  - destruct (cmd_reply w (trace st ++ [EvStat path])%list (EvOpenFile path)); cbn.
    + intros [= <- <-]. exists [EvStat path; EvOpenFile path].
      rewrite <- app_assoc. split; reflexivity.
    + destruct (snd (read_reply w _ path)); cbn; intros [= <- <-];
        exists [EvStat path; EvOpenFile path; EvRead path (Size finfo)];
        rewrite <- !app_assoc; split; reflexivity.
Qed.

Lemma update_other {A} (l : list A) i j x :
  i <> j -> nth_error (update l j x) i = nth_error l i.
Proof.
  revert i j. induction l as [|hd tl IH]; intros i j Hij; [reflexivity|].
  destruct j, i; simpl; try reflexivity; try congruence.
  apply IH. congruence.
Qed.

Lemma update_same {A} (l : list A) i x y :
  nth_error l i = Some y -> nth_error (update l i x) i = Some x.
Proof.
  revert i. induction l as [|hd tl IH]; intros [|i] H; simpl in *;
    try discriminate; [reflexivity | now apply IH].
Qed.

(** One turn of the loop, when the bytes are already there. *)
Lemma writeAttachments_present w b i att c rest p st :
  nth_error (heap st) i = Some att -> Content att = Some c ->
  writeAttachments w b (Some i :: rest) p st
  = writeAttachments w b rest
      (p ++ Envelope.render_part (Envelope.attachment_part att c)
         ++ Envelope.delimiter b) st.
Proof.
  intros Hi Hc. cbn [writeAttachments]. unfold bind at 1. unfold deref at 1.
  unfold bind at 1. unfold get. rewrite Hi. unfold ret at 1.
  unfold bind at 1. rewrite Hc. unfold ret at 1.
  f_equal.
  unfold Envelope.render_part, Envelope.attachment_part, Envelope.delimiter,
    Envelope.render, Envelope.header. cbn [Envelope.part_fields Envelope.part_body].
  rewrite !append_assoc. cbn. rewrite ?append_assoc. reflexivity.
Qed.

Lemma writeAttachments_absent w b i att rest p st :
  nth_error (heap st) i = Some att -> Content att = None ->
  writeAttachments w b (Some i :: rest) p st
  = match readFile w (FileName att) st with
    | (Ok c, st1) =>
        writeAttachments w b rest
          (p ++ Envelope.render_part (Envelope.attachment_part att c)
             ++ Envelope.delimiter b)
          (set_heap (update (heap st1) i (with_Content (Some c) att)) st1)
    | (Err e, st1) => (Err e, st1)
    | (Panic s, st1) => (Panic s, st1)
    end.
Proof.
  intros Hi Hc. cbn [writeAttachments]. unfold bind at 1. unfold deref at 1.
  unfold bind at 1. unfold get. rewrite Hi. unfold ret at 1.
  unfold bind at 1. rewrite Hc. unfold bind at 1.
  destruct (readFile w (FileName att) st) as [[c | e | s] st1] eqn:Hr;
    try reflexivity.
  destruct (readFile_frame _ _ _ _ _ Hr) as (fe & -> & _).
  unfold store_Content, bind, modify, ret. cbn [heap set_trace set_heap].
  rewrite Hi. f_equal.
  unfold Envelope.render_part, Envelope.attachment_part, Envelope.delimiter,
    Envelope.render, Envelope.header. cbn [Envelope.part_fields Envelope.part_body].
  cbn [BaseName ContentType with_Content].
  rewrite !append_assoc. cbn. rewrite ?append_assoc. reflexivity.
Qed.

Lemma writeAttachments_effect w b atts : forall p st r st',
  writeAttachments w b atts p st = (r, st') ->
  (exists fe h', st' = set_heap h' (set_trace (trace st ++ fe)%list st)
                 /\ forallb is_file_event fe = true)
  /\ (forall i att, resolved (heap st) i att -> resolved (heap st') i att).
Proof.
  induction atts as [|a rest IH]; intros p st r st' H.
  - cbn in H. injection H as <- <-. split; [|auto].
    exists [], (heap st). rewrite app_nil_r. destruct st; split; reflexivity.
  - destruct a as [i|].
    2:{ cbn in H. injection H as <- <-. split; [|auto].
        exists [], (heap st). rewrite app_nil_r. destruct st; split; reflexivity. }
    destruct (nth_error (heap st) i) as [att|] eqn:Hi.
    2:{ cbn [writeAttachments] in H. unfold bind at 1 in H. unfold deref at 1 in H.
        unfold bind at 1 in H. unfold get in H. rewrite Hi in H. cbn in H.
        injection H as <- <-. split; [|auto].
        exists [], (heap st). rewrite app_nil_r. destruct st; split; reflexivity. }
    destruct (Content att) as [c|] eqn:Hc.
    + rewrite (writeAttachments_present _ _ _ _ _ _ _ _ Hi Hc) in H.
      exact (IH _ _ _ _ H).
    + rewrite (writeAttachments_absent _ _ _ _ _ _ _ Hi Hc) in H.
      destruct (readFile w (FileName att) st) as [[c | e | s] st1] eqn:Hr;
        destruct (readFile_frame _ _ _ _ _ Hr) as (fe & -> & Hfe).
      * apply IH in H. cbn [heap trace set_heap set_trace] in H.
        destruct H as [(fe2 & h2 & -> & Hfe2) Hst]. split.
        -- exists (fe ++ fe2)%list, h2. rewrite forallb_app, Hfe, Hfe2.
           rewrite app_assoc. split; reflexivity.
        -- intros j att' [Hj Hnn]. apply Hst. split; [|assumption].
           rewrite update_other; [assumption|].
           intros ->. rewrite Hi in Hj. injection Hj as <-. congruence.
      * injection H as <- <-. split; [|auto].
        exists fe, (heap st). destruct st; split; [reflexivity|assumption].
      * injection H as <- <-. split; [|auto].
        exists fe, (heap st). destruct st; split; [reflexivity|assumption].
Qed.

Lemma writeAttachments_ok w b atts : forall p st p' st',
  writeAttachments w b atts p st = (Ok p', st') ->
  p' = p ++ Envelope.delimited b (Envelope.attachment_parts (heap st') atts)
  /\ List.length (Envelope.attachment_parts (heap st') atts) = List.length atts.
Proof.
  induction atts as [|a rest IH]; intros p st p' st' H.
  - cbn in H. injection H as <- <-. cbn. now rewrite append_nil_r.
  - destruct a as [i|]; [|discriminate].
    destruct (nth_error (heap st) i) as [att|] eqn:Hi.
    2:{ cbn [writeAttachments] in H. unfold bind at 1 in H. unfold deref at 1 in H.
        unfold bind at 1 in H. unfold get in H. rewrite Hi in H. discriminate. }
    destruct (Content att) as [c|] eqn:Hc.
    + rewrite (writeAttachments_present _ _ _ _ _ _ _ _ Hi Hc) in H.
      pose proof (writeAttachments_effect _ _ _ _ _ _ _ H) as [_ Hst].
      destruct (Hst i att) as [Hi' _]; [split; congruence|].
      apply IH in H. destruct H as [-> Hlen].
      cbn [Envelope.attachment_parts Envelope.resolved_part].
      rewrite Hi', Hc. cbn [Envelope.delimited List.length].
      rewrite !append_assoc. split; [reflexivity | now rewrite Hlen].
    + rewrite (writeAttachments_absent _ _ _ _ _ _ _ Hi Hc) in H.
      destruct (readFile w (FileName att) st) as [[c | e | s] st1] eqn:Hr;
        try discriminate.
      destruct (readFile_frame _ _ _ _ _ Hr) as (fe & -> & Hfe).
      pose proof (writeAttachments_effect _ _ _ _ _ _ _ H) as [_ Hst].
      destruct (Hst i (with_Content (Some c) att)) as [Hi' _].
      { split; [|discriminate]. cbn [heap set_heap set_trace].
        eapply update_same; eassumption. }
      apply IH in H. destruct H as [-> Hlen].
      cbn [Envelope.attachment_parts Envelope.resolved_part].
      rewrite Hi'. cbn [Content with_Content Envelope.delimited List.length].
      rewrite !append_assoc. split; [reflexivity | now rewrite Hlen].
Qed.

(** ** [payload], unfolded *)

(** [payload] with its monadic prefix run: the rendered fields and text
    parts, then the loop over the attachments if there are any. *)
Lemma payload_unfold w m st :
  payload w m st
  = let st2 := set_clock (S (S (clock st))) st in
    let head :=
      Envelope.render
        (Envelope.fields m (messageID_at w st) (date_at w st) (boundary st)) in
    match Attachments m with
    | [] =>
        (Ok (list_byte_of_string
               (head ++ Envelope.body m (heap st) (boundary st))), st2)
    | _ :: _ =>
        match writeAttachments w (boundary st) (Attachments m)
                (head ++ CRLF ++ Envelope.delimiter (boundary st)
                 ++ Envelope.delimited (boundary st) (Envelope.text_parts m))
                st2 with
        | (Ok p, st') => (Ok (list_byte_of_string p), st')
        | (Err e, st') => (Err e, st')
        | (Panic s, st') => (Panic s, st')
        end
    end.
Proof.
  destruct m as [subj from name to cc bcc text html atts].
  destruct atts as [|a atts], text as [|t0 text], html as [|h0 html],
    cc as [|c0 cc], bcc as [|b0 bcc].
  all: lazy beta iota zeta delta [payload generateMessageID time_Now bind get modify ret
            clock set_clock boundary Subject FromAddr FromName To CC Bcc Text HTML
            Attachments List.length String.length Nat.ltb Nat.leb andb orb].
  all: unfold messageID_at, date_at.
  all: unfold Envelope.body, Envelope.fields, Envelope.content_fields,
    Envelope.shape_of, Envelope.text_parts, Envelope.optional_field,
    Envelope.single_body, Envelope.multipart_body.
  all: cbn [Subject FromAddr FromName To CC Bcc Text HTML Attachments
            Envelope.nonempty String.eqb negb andb app
            Envelope.delimited Envelope.attachment_parts].
  all: unfold Envelope.delimiter, Envelope.render_part, Envelope.plain_part,
    Envelope.html_part.
  all: cbn [Envelope.render Envelope.part_fields Envelope.part_body].
  all: unfold Envelope.header, CRLF.
  all: lazymatch goal with
       | |- (Ok (list_byte_of_string ?p1), _) = (Ok (list_byte_of_string ?p2), _) =>
           replace p1 with p2; [reflexivity | symmetry; same_text]
       | |- match writeAttachments _ _ _ ?p1 _ with _ => _ end
            = match writeAttachments _ _ _ ?p2 _ with _ => _ end =>
           replace p1 with p2; [reflexivity | symmetry; same_text]
       end.
Qed.

Lemma delimited_app b qs1 qs2 :
  Envelope.delimited b (qs1 ++ qs2)
  = Envelope.delimited b qs1 ++ Envelope.delimited b qs2.
Proof.
  induction qs1 as [|q qs1 IH]; cbn [Envelope.delimited app]; [reflexivity|].
  rewrite IH, !append_assoc. reflexivity.
Qed.

(** [payload] reads the clock twice and touches files; nothing else. *)
Lemma payload_effect w m st r st' :
  payload w m st = (r, st') ->
  (exists fe h',
      st' = set_heap h' (set_trace (trace st ++ fe)
                           (set_clock (S (S (clock st))) st))
      /\ forallb is_file_event fe = true)
  /\ (forall i att, resolved (heap st) i att -> resolved (heap st') i att).
Proof.
  rewrite payload_unfold. cbv zeta.
  destruct (Attachments m) as [|a atts].
  - intros [= <- <-]. split; [|auto].
    exists [], (heap st). rewrite app_nil_r. destruct st; split; reflexivity.
  - destruct (writeAttachments w (boundary st) (a :: atts) _ _)
      as [r1 st1] eqn:Hw.
    apply writeAttachments_effect in Hw.
    destruct Hw as [(fe & h' & -> & Hfe) Hst].
    intros H. assert (st' = set_heap h'
       (set_trace (trace (set_clock (S (S (clock st))) st) ++ fe)
          (set_clock (S (S (clock st))) st))) as -> by (destruct r1; congruence).
    split; [|exact Hst]. exists fe, h'. split; [reflexivity | assumption].
Qed.

(** The bytes [payload] returns are the rendering of the field list
    followed by the body. *)
Lemma payload_envelope w m st p st' :
  payload w m st = (Ok p, st') ->
  p = list_byte_of_string
        (Envelope.render (Envelope.fields m (messageID_at w st) (date_at w st)
                                          (boundary st))
         ++ Envelope.body m (heap st') (boundary st)).
Proof.
  intros H. pose proof H as H0. rewrite payload_unfold in H. cbv zeta in H.
  destruct (Attachments m) as [|a atts] eqn:Hatts.
  - injection H as <- <-. reflexivity.
  - destruct (writeAttachments w (boundary st) (a :: atts) _ _)
      as [[p1 | e | s] st1] eqn:Hw; try discriminate.
    injection H as <- <-.
    apply writeAttachments_ok in Hw. destruct Hw as [-> _].
    unfold Envelope.body, Envelope.shape_of, Envelope.multipart_body.
    rewrite Hatts, delimited_app, !append_assoc. reflexivity.
Qed.

(** ** Connecting *)

Ltac run_monad :=
  lazy beta iota zeta delta
    [Dial DialWithTLS DialWithStartTLS Auth Quit smtp_Dial tls_Dial_NewClient
     set_client set_dialed client_Hello client_Extension client_StartTLS
     client_Auth client_Mail client_Rcpt client_Data client_Quit
     writer_Write writer_Close validateLine
     on_client command bind get emit modify of_error ret raise panic discard
     deferring
     set_mailer set_trace set_message set_heap set_clock set_boundary
     with_client with_dialed with_Subject
     boundary mailer message heap clock trace client dialed Addr Host auth
     tlsConfig fst snd].

Ltac split_replies :=
  repeat match goal with
    | |- context [match cmd_reply ?w ?h ?e with _ => _ end] =>
        destruct (cmd_reply w h e)
    | |- context [match connect_reply ?w ?h ?e with _ => _ end] =>
        destruct (connect_reply w h e)
    | |- context [if extension_reply ?w ?h ?e then _ else _] =>
        destruct (extension_reply w h e)
    end.

Ltac close_connect_step :=
  unfold connect_step; cbn [fst snd trace set_trace set_mailer];
  rewrite <- ?app_assoc; cbn [app];
  eexists _, _; split; [reflexivity | reflexivity].

Lemma Dial_effect w st :
  connect_step st (snd (Dial w st))
  /\ (forall s, fst (Dial w st) <> Panic s)
  /\ (fst (Dial w st) = Ok tt -> dialed (mailer (snd (Dial w st))) = true
        /\ client (mailer (snd (Dial w st))) <> None).
Proof.
  destruct st as [b [a h au c d t] m hp ck tr].
  run_monad. split_replies.
  all: split; [close_connect_step|].
  all: split; [discriminate|].
  all: try discriminate.
  all: intros _; split; [reflexivity | discriminate].
Qed.

Lemma connect_step_refl st : connect_step st st.
Proof.
  exists [], (mailer st). rewrite app_nil_r. destruct st; split; reflexivity.
Qed.

(** The first statement of [Send]: dial if not dialed, dropping the error. *)
Lemma autodial_effect w st r sd :
  (if negb (dialed (mailer st)) then discard (Dial w) else ret tt) st = (r, sd) ->
  r = Ok tt /\ connect_step st sd.
Proof.
  destruct (dialed (mailer st)); cbn [negb].
  - intros [= <- <-]. split; [reflexivity | apply connect_step_refl].
  - unfold discard. pose proof (Dial_effect w st) as (Hstep & Hnp & _).
    destruct (Dial w st) as [[[] | e | s] sd']; cbn [fst snd] in *.
    + intros [= <- <-]. auto.
    + intros [= <- <-]. auto.
    + exfalso. now apply (Hnp s).
Qed.

Lemma rcptLoop_ok w tos : forall st st',
  rcptLoop w tos st = (Ok tt, st') ->
  st' = set_trace (trace st ++ map EvRcpt tos) st.
Proof.
  induction tos as [|t rest IH]; intros st st'.
  - cbn. intros [= <-]. rewrite app_nil_r. now destruct st.
  - cbn [rcptLoop]. unfold bind at 1.
    destruct (client_Rcpt w t st) as [[[] | e | s] st1] eqn:Hr; try discriminate.
    intros H. apply IH in H. subst st'.
    revert Hr. unfold client_Rcpt, validateLine, on_client, command, bind, get,
      emit, modify, of_error, ret, raise, panic.
    destruct (has_newline t); [discriminate|].
    destruct (client (mailer st)); [|discriminate].
    destruct (cmd_reply w (trace st) (EvRcpt t)); [discriminate|].
    intros [= <-]. cbn [trace set_trace map]. rewrite <- app_assoc.
    destruct st; reflexivity.
Qed.

Lemma rcptLoop_accepted w tos : forall st c,
  client (mailer st) = Some c ->
  rcpts_accepted w (trace st) tos = true ->
  rcptLoop w tos st = (Ok tt, set_trace (trace st ++ map EvRcpt tos) st).
Proof.
  induction tos as [|t rest IH]; intros st c Hc Hacc.
  - cbn. rewrite app_nil_r. now destruct st.
  - cbn [rcpts_accepted] in Hacc. apply andb_true_iff in Hacc.
    destruct Hacc as [Hnl Hacc]. apply negb_true_iff in Hnl.
    destruct (cmd_reply w (trace st) (EvRcpt t)) eqn:Hreply; [discriminate|].
    cbn [rcptLoop]. unfold bind at 1.
    unfold client_Rcpt, validateLine, on_client, command, bind at 1 2 3 4, get,
      emit, modify, of_error, ret, raise, panic.
    rewrite Hnl, Hc, Hreply.
    rewrite (IH _ c); [| exact Hc | exact Hacc].
    cbn [trace set_trace map]. rewrite <- app_assoc. reflexivity.
Qed.

(** ** [Send], statement by statement *)

(** [Send] after its first statement, for a message that passes the two checks. *)
Lemma Send_after_dial w st sd :
  (if negb (dialed (mailer st)) then discard (Dial w) else ret tt) st = (Ok tt, sd) ->
  Send w st
  = if String.eqb (FromAddr (message sd)) "" then
      (Err "Must specify the From address", sd)
    else if Nat.eqb (List.length (To (message sd))) 0 then
      (Err "Must specify at least one To address", sd)
    else
      let m := defaulted (message sd) in
      (client_Mail w (FromAddr m);;;
       rcptLoop w (To m);;;
       client_Data w;;;
       deferring (discard (writer_Close w))
         (payload <- payload w m;;
          discard (writer_Write w payload);;;
          ret tt)) (set_message m sd).
Proof.
  intros Hd. unfold Send. unfold bind at 1. unfold get at 1.
  unfold bind at 1. rewrite Hd. unfold bind at 1. unfold get at 1.
  destruct (String.eqb (FromAddr (message sd)) ""); [reflexivity|].
  destruct (Nat.eqb (List.length (To (message sd))) 0); [reflexivity|].
  unfold defaulted. cbv zeta.
  destruct (String.eqb (Subject (message sd)) "").
  - unfold bind at 1. unfold modify at 1. unfold bind at 1. unfold get at 1.
    cbn [message set_message]. reflexivity.
  - unfold bind at 1. unfold ret at 1. unfold bind at 1. unfold get at 1.
    replace (set_message (message sd) sd) with sd by (destruct sd; reflexivity).
    reflexivity.
Qed.

(** Sender, recipients and data command, all answered without error. *)
Lemma opening_ok w m st st1 :
  (client_Mail w (FromAddr m);;; rcptLoop w (To m);;; client_Data w) st
    = (Ok tt, st1) ->
  st1 = set_trace (trace st ++ opening m) st.
Proof.
  unfold bind at 1.
  destruct (client_Mail w (FromAddr m) st) as [[[] | e | s] sa] eqn:Hm;
    try discriminate.
  unfold bind at 1.
  destruct (rcptLoop w (To m) sa) as [[[] | e | s] sb] eqn:Hr; try discriminate.
  apply rcptLoop_ok in Hr. subst sb.
  revert Hm. unfold client_Mail, client_Data, validateLine, on_client, command,
    bind, get, emit, modify, of_error, ret, raise, panic.
  destruct (has_newline (FromAddr m)); [discriminate|].
  destruct (client (mailer st)) eqn:Hc; [|discriminate].
  destruct (cmd_reply w (trace st) (EvMail (FromAddr m))); [discriminate|].
  intros [= <-]. cbn [mailer set_trace trace]. rewrite Hc.
  destruct (cmd_reply w _ EvData); [discriminate|].
  intros [= <-]. unfold opening. rewrite <- !app_assoc. reflexivity.
Qed.

Lemma opening_accepted w m st c :
  client (mailer st) = Some c ->
  transaction_accepted w (trace st) m = true ->
  (client_Mail w (FromAddr m);;; rcptLoop w (To m);;; client_Data w) st
    = (Ok tt, set_trace (trace st ++ opening m) st).
Proof.
  intros Hc Hacc. unfold transaction_accepted in Hacc.
  apply andb_true_iff in Hacc. destruct Hacc as [Hnl Hacc].
  apply negb_true_iff in Hnl.
  destruct (cmd_reply w (trace st) (EvMail (FromAddr m))) eqn:Hmail;
    [discriminate|].
  apply andb_true_iff in Hacc. destruct Hacc as [Hr Hdata].
  destruct (cmd_reply w _ EvData) eqn:Hd; [discriminate|]. clear Hdata.
  unfold bind at 1.
  unfold client_Mail, validateLine, on_client, command, bind at 1 2 3 4, get,
    emit, modify, of_error, ret, raise, panic.
  rewrite Hnl, Hc, Hmail.
  unfold bind at 1.
  rewrite (rcptLoop_accepted w (To m) _ c); [| exact Hc | exact Hr].
  unfold client_Data, on_client, command, bind, get, emit, modify, of_error,
    ret, raise, panic.
  cbn [mailer set_trace trace]. rewrite Hc.
  rewrite <- !app_assoc. cbn [app trace set_trace]. cbn [app] in Hd. rewrite Hd.
  unfold opening. cbn [app]. rewrite <- !app_assoc. reflexivity.
Qed.

(** The deferred close around serialisation and write. *)
Lemma data_phase w m st :
  deferring (discard (writer_Close w))
    (payload <- payload w m;; discard (writer_Write w payload);;; ret tt) st
  = match payload w m st with
    | (Ok p, st2) => (Ok tt, set_trace (trace st2 ++ [EvWrite p; EvClose]) st2)
    | (Err e, st2) => (Err e, set_trace (trace st2 ++ [EvClose]) st2)
    | (Panic s, st2) => (Panic s, set_trace (trace st2 ++ [EvClose]) st2)
    end.
Proof.
  unfold deferring, bind, discard, writer_Write, writer_Close, command, bind, get,
    emit, modify, of_error, ret, raise.
  destruct (payload w m st) as [[p | e | s] st2]; cbn [snd trace set_trace].
  - destruct (cmd_reply w (trace st2) (EvWrite p));
      cbn [snd trace set_trace];
      destruct (cmd_reply w _ EvClose); cbn [snd]; rewrite <- app_assoc;
      reflexivity.
  - destruct (cmd_reply w (trace st2) EvClose); reflexivity.
  - destruct (cmd_reply w (trace st2) EvClose); reflexivity.
Qed.

(** ** The shapes of an envelope *)

Lemma nonempty_true s : s <> "" -> Envelope.nonempty s = true.
Proof. intros H. unfold Envelope.nonempty. now apply negb_true_iff, String.eqb_neq. Qed.

Lemma fields_standard m id date b :
  Envelope.fields m id date b
  = (standard_fields m id date ++ Envelope.content_fields m b
     ++ [("Subject", Subject m)])%list.
Proof.
  unfold Envelope.fields, standard_fields. rewrite <- !app_assoc. reflexivity.
Qed.

Lemma payload_no_attachments w m st :
  Attachments m = [] ->
  payload w m st
  = (Ok (list_byte_of_string
           (Envelope.render (Envelope.fields m (messageID_at w st) (date_at w st)
                                             (boundary st))
            ++ Envelope.body m (heap st) (boundary st))),
     set_clock (S (S (clock st))) st).
Proof. intros H. rewrite payload_unfold. cbv zeta. now rewrite H. Qed.

(** C5. A message with a text body, an HTML body and no attachments
    is serialised as [multipart/alternative] with exactly two parts,
    the plain one before the HTML one, each introduced by a delimiter
    line of its own (and the last followed by one more). *)
Theorem payload_alternative_two_parts (w : World) (m : Message) (st : State) :
  Attachments m = [] -> Text m <> "" -> HTML m <> "" ->
  exists p st',
    payload w m st = (Ok p, st')
    /\ p = list_byte_of_string
             (Envelope.render
                (standard_fields m (messageID_at w st) (date_at w st)
                 ++ [("Content-Type",
                      "multipart/alternative;" ++ CRLF ++ " boundary="
                      ++ boundary st);
                     ("Subject", Subject m)])
              ++ CRLF
              ++ Envelope.delimiter (boundary st)
              ++ Envelope.render_part (Envelope.plain_part (Text m))
              ++ Envelope.delimiter (boundary st)
              ++ Envelope.render_part (Envelope.html_part (HTML m))
              ++ Envelope.delimiter (boundary st)).
Proof.
  intros Ha Ht Hh. eexists _, _. split; [apply payload_no_attachments, Ha|].
  f_equal.
  unfold Envelope.fields, Envelope.body, Envelope.content_fields,
    Envelope.shape_of, standard_fields, Envelope.multipart_body,
    Envelope.text_parts.
  rewrite Ha, (nonempty_true _ Ht), (nonempty_true _ Hh).
  cbn [andb app Envelope.attachment_parts Envelope.delimited].
  rewrite <- !app_assoc. cbn [app].
  rewrite ?append_assoc, ?append_nil_r. reflexivity.
Qed.

Lemma writeAttachments_all_present w b atts : forall p st,
  Forall (present (heap st)) atts ->
  writeAttachments w b atts p st
  = (Ok (p ++ Envelope.delimited b (Envelope.attachment_parts (heap st) atts)), st)
  /\ Forall2 (carries (heap st)) atts (Envelope.attachment_parts (heap st) atts).
Proof.
  induction atts as [|a rest IH]; intros p st Hall.
  - cbn. rewrite append_nil_r. split; [reflexivity | constructor].
  - inversion Hall as [|? ? (i & att & c & -> & Hi & Hc) Hrest]; subst.
    rewrite (writeAttachments_present _ _ _ _ _ _ _ _ Hi Hc).
    destruct (IH (p ++ Envelope.render_part (Envelope.attachment_part att c)
                    ++ Envelope.delimiter b) st Hrest) as [-> HF].
    cbn [Envelope.attachment_parts Envelope.resolved_part]. rewrite Hi, Hc.
    cbn [Envelope.delimited]. rewrite !append_assoc. split; [reflexivity|].
    constructor; [|exact HF].
    exists i, att, c. repeat split; try assumption.
    apply DecodeString_EncodeToString.
Qed.

(** C3. A message with at least one attachment, all attachments
    having their bytes, is serialised as [multipart/mixed], and the
    body of the part of each attachment decodes from base64 to exactly
    the bytes of that attachment. *)
Theorem payload_mixed_roundtrip (w : World) (m : Message) (st : State) :
  Attachments m <> [] ->
  Forall (present (heap st)) (Attachments m) ->
  exists p,
    payload w m st = (Ok p, set_clock (S (S (clock st))) st)
    /\ p = list_byte_of_string
             (Envelope.render
                (standard_fields m (messageID_at w st) (date_at w st)
                 ++ [("Content-Type",
                      "multipart/mixed;" ++ CRLF ++ " boundary=" ++ boundary st);
                     ("Subject", Subject m)])
              ++ Envelope.multipart_body (boundary st)
                   (Envelope.text_parts m
                    ++ Envelope.attachment_parts (heap st) (Attachments m)))
    /\ Forall2 (carries (heap st)) (Attachments m)
               (Envelope.attachment_parts (heap st) (Attachments m)).
Proof.
  intros Hne Hall.
  destruct (writeAttachments_all_present w (boundary st) (Attachments m)
              (Envelope.render (Envelope.fields m (messageID_at w st)
                                  (date_at w st) (boundary st))
               ++ CRLF ++ Envelope.delimiter (boundary st)
               ++ Envelope.delimited (boundary st) (Envelope.text_parts m))
              (set_clock (S (S (clock st))) st) Hall) as [Hw HF].
  eexists. split; [|split; [reflexivity | exact HF]].
  rewrite payload_unfold. cbv zeta.
  destruct (Attachments m) as [|a atts] eqn:Ha; [congruence|].
  rewrite Hw. f_equal. f_equal. cbn [heap set_clock].
  unfold Envelope.fields, Envelope.content_fields, Envelope.shape_of,
    standard_fields, Envelope.multipart_body.
  rewrite Ha, delimited_app, <- !app_assoc, !append_assoc. reflexivity.
Qed.

(** ** Delimiters *)

Lemma delimited_ends_open b parts : forall x,
  exists pre,
    x ++ CRLF ++ Envelope.delimiter b ++ Envelope.delimited b parts
    = pre ++ CRLF ++ Envelope.delimiter b.
Proof.
  induction parts as [|q rest IH]; intros x.
  - exists x. cbn [Envelope.delimited]. now rewrite append_nil_r.
  - cbn [Envelope.delimited]. unfold Envelope.render_part at 1.
    destruct (IH (x ++ CRLF ++ Envelope.delimiter b
                    ++ Envelope.render (Envelope.part_fields q) ++ CRLF
                    ++ Envelope.part_body q)) as [pre Hpre].
    exists pre. rewrite <- Hpre. rewrite !append_assoc. reflexivity.
Qed.

Lemma open_is_not_closed b pre s :
  s = pre ++ CRLF ++ Envelope.delimiter b ->
  ~ exists pre', s = pre' ++ Envelope.terminator b.
Proof.
  intros -> [pre' H].
  apply append_same_length_suffix in H.
  - unfold CRLF, CR in H. cbn in H. discriminate.
  - unfold Envelope.delimiter, Envelope.terminator, CRLF.
    cbn [append String.length]. rewrite !length_append. cbn. lia.
Qed.

(** C8. In a multi-part envelope every separator is the open
    delimiter line [--boundary]: the body is a blank line, a delimiter,
    and every part followed by a delimiter; the envelope ends with an
    open delimiter line and never with the terminator
    [--boundary--]. *)
Theorem payload_open_delimiters (w : World) (m : Message) (st : State)
    (p : list byte) (st' : State) :
  Envelope.multipart m = true ->
  payload w m st = (Ok p, st') ->
  let b := boundary st in
  let parts := (Envelope.text_parts m
                ++ Envelope.attachment_parts (heap st') (Attachments m))%list in
  p = list_byte_of_string
        (Envelope.render (Envelope.fields m (messageID_at w st) (date_at w st) b)
         ++ CRLF ++ Envelope.delimiter b ++ Envelope.delimited b parts)
  /\ (exists pre, string_of_list_byte p = pre ++ CRLF ++ Envelope.delimiter b)
  /\ ~ (exists pre, string_of_list_byte p = pre ++ Envelope.terminator b).
Proof.
  intros Hm Hp b parts. apply payload_envelope in Hp.
  assert (Hbody : Envelope.body m (heap st') b
                  = CRLF ++ Envelope.delimiter b ++ Envelope.delimited b parts).
  { unfold Envelope.body, Envelope.multipart in *.
    destruct (Envelope.shape_of m); try discriminate; reflexivity. }
  fold b in Hp. rewrite Hbody in Hp. split; [exact Hp|].
  destruct (delimited_ends_open b parts
              (Envelope.render (Envelope.fields m (messageID_at w st)
                                  (date_at w st) b))) as [pre Hpre].
  assert (Hs : string_of_list_byte p = pre ++ CRLF ++ Envelope.delimiter b).
  { rewrite Hp, string_of_list_byte_of_string. exact Hpre. }
  split; [now exists pre|]. now apply (open_is_not_closed b pre).
Qed.

(** ** Lines and header names *)

Lemma lines_cons c s :
  lines (String c s)
  = match s with
    | String d s' =>
        if Ascii.eqb c CR && Ascii.eqb d LF then "" :: lines s'
        else match lines s with
             | l :: ls => String c l :: ls
             | [] => [String c ""]
             end
    | "" => [String c ""]
    end.
Proof. reflexivity. Qed.

Lemma lines_not_nil s : lines s <> [].
Proof.
  destruct s as [|c s]; [discriminate|]. rewrite lines_cons.
  destruct s as [|d s']; [discriminate|].
  destruct (Ascii.eqb c CR && Ascii.eqb d LF); [discriminate|].
  destruct (lines (String d s')); discriminate.
Qed.

Lemma lines_cons_plain c s :
  Ascii.eqb c CR = false ->
  lines (String c s)
  = match lines s with
    | l :: ls => String c l :: ls
    | [] => [String c ""]
    end.
Proof.
  intros Hc. rewrite lines_cons. destruct s as [|d s']; [reflexivity|].
  now rewrite Hc.
Qed.

Lemma lines_app_crlf_len n : forall t r,
  String.length t <= n -> lines (t ++ CRLF ++ r) = (lines t ++ lines r)%list.
Proof.
  induction n as [|n IH]; intros t r Hlen.
  - destruct t; [reflexivity | cbn in Hlen; lia].
  - destruct t as [|c [|d t]].
    + reflexivity.
    + unfold CRLF. cbn [append]. rewrite lines_cons.
      change (Ascii.eqb CR LF) with false. rewrite andb_false_r.
      change (lines (String CR (String LF r))) with ("" :: lines r).
      reflexivity.
    + cbn [append]. rewrite (lines_cons c (String d (t ++ CRLF ++ r))).
      rewrite (lines_cons c (String d t)).
      destruct (Ascii.eqb c CR && Ascii.eqb d LF).
      * rewrite IH by (cbn in Hlen; lia). reflexivity.
      * change (String d (t ++ CRLF ++ r)) with (String d t ++ CRLF ++ r).
        rewrite IH by (cbn in Hlen |- *; lia).
        destruct (lines (String d t)) as [|l ls] eqn:Hl;
          [now apply lines_not_nil in Hl | reflexivity].
Qed.

Lemma lines_app_crlf t r : lines (t ++ CRLF ++ r) = (lines t ++ lines r)%list.
Proof. apply (lines_app_crlf_len (String.length t)). lia. Qed.

Lemma lines_plain_prefix n : forall s,
  forallb (fun c => negb (Ascii.eqb c CR)) (list_ascii_of_string n) = true ->
  lines (n ++ s)
  = match lines s with
    | l :: ls => (n ++ l) :: ls
    | [] => [n]
    end.
Proof.
  induction n as [|c n IH]; intros s Hn.
  - cbn [append]. destruct (lines s) eqn:Hl; [now apply lines_not_nil in Hl|].
    reflexivity.
  - cbn in Hn. apply andb_true_iff in Hn. destruct Hn as [Hc Hn].
    apply negb_true_iff in Hc. cbn [append].
    rewrite (lines_cons_plain _ _ Hc), (IH _ Hn).
    destruct (lines s); reflexivity.
Qed.

Lemma before_colon_prefix n : forall rest,
  forallb (fun c => negb (Ascii.eqb c ":")) (list_ascii_of_string n) = true ->
  before_colon (n ++ String ":" rest) = n.
Proof.
  induction n as [|c n IH]; intros rest Hn; cbn.
  - reflexivity.
  - cbn in Hn. apply andb_true_iff in Hn. destruct Hn as [Hc Hn].
    apply negb_true_iff in Hc. rewrite Hc. now rewrite IH.
Qed.

Lemma header_block_continuations ls : forall rest,
  forallb is_continuation ls = true ->
  header_block (ls ++ rest) = (ls ++ header_block rest)%list
  /\ filter (fun l => negb (is_continuation l)) ls = [].
Proof.
  induction ls as [|l ls IH]; intros rest H; [split; reflexivity|].
  cbn in H. apply andb_true_iff in H. destruct H as [Hl Hls].
  destruct (IH rest Hls) as [IH1 IH2].
  cbn [app header_block filter]. rewrite Hl. cbn [negb].
  destruct l as [|c l]; [discriminate|]. cbn [String.eqb].
  now rewrite IH1.
Qed.

Lemma name_ok_parts n :
  name_ok n = true ->
  (exists c n', n = String c n'
                /\ (Ascii.eqb c " " || Ascii.eqb c (ascii_of_nat 9)) = false
                /\ Ascii.eqb c "-" = false)
  /\ forallb (fun c => negb (Ascii.eqb c ":")) (list_ascii_of_string n) = true
  /\ forallb (fun c => negb (Ascii.eqb c CR)) (list_ascii_of_string n) = true.
Proof.
  unfold name_ok. intros H.
  apply andb_true_iff in H. destruct H as [H H3].
  apply andb_true_iff in H. destruct H as [H H4].
  apply andb_true_iff in H. destruct H as [H1 H2].
  split; [|split].
  - destruct n as [|c n']; [discriminate|]. exists c, n'. split; [reflexivity|].
    split; [now apply negb_true_iff in H2 | now apply negb_true_iff in H4].
  - rewrite forallb_forall in *. intros c Hc. specialize (H3 c Hc).
    now apply andb_true_iff in H3.
  - rewrite forallb_forall in *. intros c Hc. specialize (H3 c Hc).
    now apply andb_true_iff in H3.
Qed.

(** Reading the header names back from a rendered field list. *)
Lemma header_names_render fs : forall body,
  forallb (fun nv => name_ok (fst nv) && tidy (snd nv)) fs = true ->
  header_block (lines body) = [] ->
  header_names (Envelope.render fs ++ body) = map fst fs.
Proof.
  induction fs as [|[n v] fs IH]; intros body Hfs Hbody.
  - cbn [Envelope.render append map]. unfold header_names. now rewrite Hbody.
  - cbn [forallb fst snd] in Hfs. apply andb_true_iff in Hfs.
    destruct Hfs as [Hnv Hfs]. apply andb_true_iff in Hnv.
    destruct Hnv as [Hn Hv].
    destruct (name_ok_parts n Hn) as ((c & n' & -> & Hc & _) & Hcolon & Hcr).
    specialize (IH body Hfs Hbody). unfold header_names in *.
    cbn [Envelope.render map fst]. unfold Envelope.header.
    replace (((String c n' ++ ": " ++ v ++ CRLF) ++ Envelope.render fs) ++ body)
      with ((String c n' ++ ": " ++ v) ++ CRLF ++ Envelope.render fs ++ body)
      by (now rewrite !append_assoc).
    rewrite lines_app_crlf.
    rewrite (lines_plain_prefix (String c n') _ Hcr).
    rewrite (lines_plain_prefix ": " v eq_refl).
    unfold tidy in Hv.
    destruct (lines v) as [|l0 ls] eqn:Hl; [now apply lines_not_nil in Hl|].
    cbn [tl] in Hv.
    destruct (header_block_continuations ls
                (lines (Envelope.render fs ++ body)) Hv) as [Hb Hf].
    cbn [app header_block append String.eqb]. rewrite Hb.
    cbn [filter is_continuation]. rewrite Hc. cbn [negb map].
    rewrite filter_app, Hf. cbn [app]. rewrite IH. f_equal.
    change (String c (n' ++ String ":" (String " " l0)))
      with (String c n' ++ String ":" (String " " l0)).
    now apply before_colon_prefix.
Qed.

Lemma fields_names m id date b :
  map fst (Envelope.fields m id date b) = emitted_names m.
Proof.
  unfold Envelope.fields, emitted_names, Envelope.content_fields,
    Envelope.multipart, Envelope.optional_field.
  rewrite !map_app.
  destruct (CC m), (Bcc m), (Envelope.shape_of m); reflexivity.
Qed.

Lemma fields_names_ok m id date b :
  forallb (fun nv => name_ok (fst nv)) (Envelope.fields m id date b) = true.
Proof.
  unfold Envelope.fields, Envelope.content_fields, Envelope.optional_field.
  rewrite !forallb_app.
  destruct (CC m), (Bcc m), (Envelope.shape_of m); reflexivity.
Qed.

Lemma body_starts_blank m h b :
  Envelope.body m h b = ""
  \/ exists rest, Envelope.body m h b = CRLF ++ rest.
Proof.
  unfold Envelope.body, Envelope.multipart_body, Envelope.single_body.
  destruct (Envelope.shape_of m).
  - right. eexists. reflexivity.
  - right. eexists. reflexivity.
  - destruct (Envelope.nonempty (HTML m)); [right; eexists; reflexivity | now left].
  - destruct (Envelope.nonempty (Text m)); [right; eexists; reflexivity | now left].
Qed.

(** C2, as the code has it.  The envelope is the rendering of the
    fields Message-Id, Mime-Version, Date, From, To, CC (if any), BCC
    (if any), Content-Type, Content-Transfer-Encoding (single-part
    shapes only), Subject, in this order and no others, followed by the
    body, which is empty or starts with a blank line.  When no field
    value breaks out of its header, these are the header names read
    back from the bytes. *)
Theorem payload_header_order (w : World) (m : Message) (st : State)
    (p : list byte) (st' : State) :
  payload w m st = (Ok p, st') ->
  let fs := Envelope.fields m (messageID_at w st) (date_at w st) (boundary st) in
  let body := Envelope.body m (heap st') (boundary st) in
  p = list_byte_of_string (Envelope.render fs ++ body)
  /\ map fst fs = emitted_names m
  /\ (body = "" \/ exists rest, body = CRLF ++ rest)
  /\ (forallb (fun nv => tidy (snd nv)) fs = true ->
      header_names (string_of_list_byte p) = emitted_names m).
Proof.
  intros Hp fs body. apply payload_envelope in Hp. fold fs body in Hp.
  split; [exact Hp|]. split; [apply fields_names|].
  split; [apply body_starts_blank|].
  intros Htidy. rewrite Hp, string_of_list_byte_of_string.
  rewrite header_names_render.
  - apply fields_names.
  - pose proof (fields_names_ok m (messageID_at w st) (date_at w st)
                  (boundary st)) as Hn. fold fs in Hn.
    rewrite forallb_forall in *. intros nv Hin.
    now rewrite (Hn nv Hin), (Htidy nv Hin).
  - destruct (body_starts_blank m (heap st') (boundary st)) as [H | [rest H]];
      fold body in H; rewrite H; reflexivity.
Qed.

(** A line of a rendered field list with a body is no delimiter, or
    it is a line of the body. *)
Lemma lines_render_dash fs : forall body l,
  forallb (fun nv => name_ok (fst nv) && tidy (snd nv)) fs = true ->
  In l (lines (Envelope.render fs ++ body)) ->
  starts_with_dash l = false \/ In l (lines body).
Proof.
  induction fs as [|[n v] fs IH]; intros body l Hfs Hin.
  - right. exact Hin.
  - cbn [forallb fst snd] in Hfs. apply andb_true_iff in Hfs.
    destruct Hfs as [Hnv Hfs]. apply andb_true_iff in Hnv.
    destruct Hnv as [Hn Hv].
    destruct (name_ok_parts n Hn) as ((c & n' & -> & _ & Hdash) & _ & Hcr).
    cbn [Envelope.render] in Hin. unfold Envelope.header in Hin.
    replace (((String c n' ++ ": " ++ v ++ CRLF) ++ Envelope.render fs) ++ body)
      with ((String c n' ++ ": " ++ v) ++ CRLF ++ Envelope.render fs ++ body)
      in Hin by (now rewrite !append_assoc).
    rewrite lines_app_crlf in Hin.
    rewrite (lines_plain_prefix (String c n') _ Hcr) in Hin.
    rewrite (lines_plain_prefix ": " v eq_refl) in Hin.
    unfold tidy in Hv.
    destruct (lines v) as [|l0 ls] eqn:Hl; [now apply lines_not_nil in Hl|].
    cbn [tl] in Hv. apply in_app_or in Hin. destruct Hin as [[<- | Hin] | Hin].
    + left. exact Hdash.
    + left. rewrite forallb_forall in Hv. specialize (Hv l Hin).
      destruct l as [|d l]; [reflexivity|]. cbn in Hv |- *.
      apply orb_true_iff in Hv. destruct Hv as [Hd | Hd];
        apply Ascii.eqb_eq in Hd; subst d; reflexivity.
    + exact (IH body l Hfs Hin).
Qed.

(** C4. A message with no attachments and no HTML body is serialised
    as one [text/plain] section: after the standard fields come
    [Content-Type: text/plain], the quoted-printable declaration and
    the subject, then a blank line and the text byte for byte, closed
    by a line end (nothing at all when the text is empty).  No
    delimiter line is emitted: the bytes are the same whatever the
    boundary token is, and when no field value breaks out of its
    header, a line of the envelope that starts with a dash is a line of
    the text. *)
Theorem payload_plain_single_section (w : World) (m : Message) (st : State) :
  Attachments m = [] -> HTML m = "" ->
  exists p st',
    payload w m st = (Ok p, st')
    /\ p = list_byte_of_string
             (Envelope.render
                (standard_fields m (messageID_at w st) (date_at w st)
                 ++ [("Content-Type", "text/plain; charset=UTF-8");
                     ("Content-Transfer-Encoding", "quoted-printable");
                     ("Subject", Subject m)])
              ++ (if String.eqb (Text m) "" then ""
                  else CRLF ++ Text m ++ CRLF))
    /\ (forall b', fst (payload w m (set_boundary b' st)) = Ok p)
    /\ (forallb (fun nv => tidy (snd nv))
                (standard_fields m (messageID_at w st) (date_at w st)
                 ++ [("Subject", Subject m)]) = true ->
        forall l, In l (lines (string_of_list_byte p)) ->
                  starts_with_dash l = true -> In l (lines (Text m))).
Proof.
  intros Ha Hh. eexists _, _. split; [apply payload_no_attachments, Ha|].
  assert (Hshape : Envelope.shape_of m = Envelope.SinglePlain).
  { unfold Envelope.shape_of. rewrite Ha, Hh. cbn. now rewrite andb_false_r. }
  assert (Hfs : forall b,
    Envelope.fields m (messageID_at w st) (date_at w st) b
    = (standard_fields m (messageID_at w st) (date_at w st)
       ++ [("Content-Type", "text/plain; charset=UTF-8");
           ("Content-Transfer-Encoding", "quoted-printable");
           ("Subject", Subject m)])%list).
  { intros b. rewrite fields_standard. unfold Envelope.content_fields.
    now rewrite Hshape. }
  assert (Hbody : forall b,
    Envelope.body m (heap st) b
    = if String.eqb (Text m) "" then "" else CRLF ++ Text m ++ CRLF).
  { intros b. unfold Envelope.body, Envelope.single_body, Envelope.nonempty.
    rewrite Hshape. now destruct (String.eqb (Text m) ""). }
  split; [now rewrite Hfs, Hbody|]. split.
  - intros b'. rewrite payload_no_attachments by assumption. cbn [fst].
    cbn [boundary set_boundary heap]. now rewrite !Hfs, !Hbody.
  - intros Htidy l Hin Hdash.
    rewrite string_of_list_byte_of_string in Hin.
    pose proof (fields_names_ok m (messageID_at w st) (date_at w st)
                  (boundary st)) as Hn.
    rewrite Hfs in Hin, Hn. rewrite Hbody in Hin.
    apply lines_render_dash in Hin.
    + destruct Hin as [Hno | Hin]; [congruence|].
      destruct (String.eqb (Text m) "").
      * destruct Hin as [<- | []]. discriminate.
      * change (CRLF ++ Text m ++ CRLF) with ("" ++ CRLF ++ Text m ++ CRLF ++ "")
          in Hin.
        rewrite lines_app_crlf, lines_app_crlf in Hin.
        cbn [lines app] in Hin. destruct Hin as [<- | Hin]; [discriminate|].
        apply in_app_or in Hin. destruct Hin as [Hin | [<- | []]];
          [exact Hin | discriminate].
    + rewrite forallb_forall in *. intros nv Hnv.
      rewrite (Hn nv Hnv). cbn [andb].
      apply in_app_or in Hnv. destruct Hnv as [Hnv | Hnv].
      * apply Htidy. apply in_or_app. now left.
      * destruct Hnv as [<- | [<- | Hnv]]; try reflexivity.
        apply Htidy. apply in_or_app. now right.
Qed.

(** ** Frame properties of every operation

    A relation between the state before and after that is reflexive,
    transitive and kept by each elementary update is kept by every
    operation of the package. *)
Create HintDb frames.

Section Frames.

Variable R : State -> State -> Prop.
Hypothesis R_refl : forall st, R st st.
Hypothesis R_trans : forall a b c, R a b -> R b c -> R a c.
Hypothesis R_trace : forall st e, R st (set_trace (trace st ++ [e]) st).
Hypothesis R_clock : forall st n, R st (set_clock n st).
Hypothesis R_heap : forall st h, R st (set_heap h st).
Hypothesis R_mailer : forall st x, R st (set_mailer x st).
Hypothesis R_message : forall st m, R st (set_message m st).

Lemma respects_ret {A} (a : A) : respects R (ret a).
Proof. intros st. apply R_refl. Qed.

Lemma respects_raise {A} e : respects R (@raise A e).
Proof. intros st. apply R_refl. Qed.

Lemma respects_panic {A} s : respects R (@panic A s).
Proof. intros st. apply R_refl. Qed.

Lemma respects_get : respects R get.
Proof. intros st. apply R_refl. Qed.

Lemma respects_bind {A B} (c : M A) (k : A -> M B) :
  respects R c -> (forall a, respects R (k a)) -> respects R (bind c k).
Proof.
  intros Hc Hk st. unfold bind. specialize (Hc st).
  destruct (c st) as [[a | e | s] st1]; cbn [snd] in *; try assumption.
  eapply R_trans; [exact Hc | apply Hk].
Qed.

Lemma respects_discard {A} (c : M A) : respects R c -> respects R (discard c).
Proof.
  intros Hc st. unfold discard. specialize (Hc st).
  destruct (c st) as [[a | e | s] st1]; assumption.
Qed.

Lemma respects_deferring {A} (cleanup : M unit) (body : M A) :
  respects R cleanup -> respects R body -> respects R (deferring cleanup body).
Proof.
  intros Hc Hb st. unfold deferring. specialize (Hb st).
  destruct (body st) as [r st1]. cbn [snd] in *.
  eapply R_trans; [exact Hb | apply Hc].
Qed.

Lemma respects_modify f : (forall st, R st (f st)) -> respects R (modify f).
Proof. intros Hf st. apply Hf. Qed.

Lemma respects_emit e : respects R (emit e).
Proof. intros st. apply R_trace. Qed.

Lemma respects_of_error r : respects R (of_error r).
Proof. destruct r; [apply respects_raise | apply respects_ret]. Qed.

Ltac frame :=
  repeat first
    [ match goal with
      | |- respects R (payload _ _) => solve [auto 1 with frames nocore]
      | |- respects R (Dial _) => solve [auto 1 with frames nocore]
      | |- respects R (Auth _) => solve [auto 1 with frames nocore]
      end
    | apply respects_ret | apply respects_raise | apply respects_panic
    | apply respects_get | apply respects_emit | apply respects_of_error
    | apply respects_discard | apply respects_deferring
    | apply respects_bind; [|intro]
    | apply respects_modify; intro;
      first [ apply R_clock | apply R_heap | apply R_mailer | apply R_message
            | apply R_trace ]
    | progress unfold validateLine, on_client, command, client_Hello,
        client_Extension, client_StartTLS, client_Auth, client_Mail,
        client_Rcpt, client_Data, client_Quit, writer_Write, writer_Close,
        smtp_Dial, tls_Dial_NewClient, set_client, set_dialed, time_Now,
        os_Stat, os_OpenFile, file_Read, generateMessageID, new_Attachment
    | match goal with
      | |- respects R (if ?b then _ else _) => destruct b
      | |- respects R (match ?x with _ => _ end) => destruct x
      | |- respects R (let (_, _) := ?x in _) => destruct x
      end ].

Lemma respects_readFile w path : respects R (readFile w path).
Proof. unfold readFile. frame. Qed.

Lemma respects_writeAttachments w b atts : forall p,
  respects R (writeAttachments w b atts p).
Proof.
  induction atts as [|a rest IH]; intros p; cbn [writeAttachments].
  - frame.
  - unfold deref, store_Content.
    frame; try apply respects_readFile; try apply IH.
    all: apply respects_modify; intros st;
      destruct (nth_error (heap st) _); [apply R_heap | apply R_refl].
Qed.

Lemma respects_payload w m : respects R (payload w m).
Proof.
  intros st. rewrite payload_unfold. cbv zeta.
  destruct (Attachments m) as [|a atts]; [apply R_clock|].
  pose proof (respects_writeAttachments w (boundary st) (a :: atts)
    (Envelope.render (Envelope.fields m (messageID_at w st) (date_at w st)
                        (boundary st))
     ++ CRLF ++ Envelope.delimiter (boundary st)
     ++ Envelope.delimited (boundary st) (Envelope.text_parts m))
    (set_clock (S (S (clock st))) st)) as H.
  destruct (writeAttachments w (boundary st) (a :: atts) _ _)
    as [[p | e | s] st1]; cbn [snd] in *;
    (eapply R_trans; [apply R_clock | exact H]).
Qed.

Lemma respects_Auth w : respects R (Auth w).
Proof. unfold Auth. frame. Qed.

#[local] Hint Resolve respects_payload respects_Auth : frames.

Lemma respects_Dial w : respects R (Dial w).
Proof. unfold Dial. frame. Qed.

#[local] Hint Resolve respects_Dial : frames.

Lemma respects_DialWithTLS w t : respects R (DialWithTLS w t).
Proof. unfold DialWithTLS. frame. Qed.

Lemma respects_DialWithStartTLS w t : respects R (DialWithStartTLS w t).
Proof. unfold DialWithStartTLS. frame. Qed.

Lemma respects_Quit w : respects R (Quit w).
Proof. unfold Quit. frame. Qed.

Lemma respects_rcptLoop w tos : respects R (rcptLoop w tos).
Proof.
  induction tos as [|t rest IH]; cbn [rcptLoop]; frame. exact IH.
Qed.

Lemma respects_after_Mail w m :
  respects R (rcptLoop w (To m);;; client_Data w;;;
            deferring (discard (writer_Close w))
              (payload <- payload w m;;
               discard (writer_Write w payload);;; ret tt)).
Proof. frame. apply respects_rcptLoop. Qed.

Lemma respects_Send w : respects R (Send w).
Proof.
  unfold Send. frame;
    first [ apply respects_rcptLoop | apply respects_Dial ].
Qed.

Lemma respects_AttachFile w f : respects R (AttachFile w f).
Proof. unfold AttachFile. frame. Qed.

End Frames.

(** ** Traces of [Send] *)

Lemma framed_grows {A} (c : M A) st : framed c -> grows st (snd (c st)).
Proof.
  intros Hc. apply (Hc grows); unfold grows;
    cbn [trace set_trace set_clock set_heap set_mailer set_message]; intros.
  - exists []. now rewrite app_nil_r.
  - destruct H as [d1 H1], H0 as [d2 H2]. exists (d1 ++ d2)%list.
    now rewrite H2, H1, app_assoc.
  - now exists [e].
  - exists []. now rewrite app_nil_r.
  - exists []. now rewrite app_nil_r.
  - exists []. now rewrite app_nil_r.
  - exists []. now rewrite app_nil_r.
Qed.

Lemma framed_same_boundary {A} (c : M A) st :
  framed c -> boundary (snd (c st)) = boundary st.
Proof.
  intros Hc. apply (Hc same_boundary); unfold same_boundary; intros;
    try reflexivity. congruence.
Qed.

Lemma framed_Send w : framed (Send w).
Proof. intros R ? ? ? ? ? ? ?. now apply respects_Send. Qed.

Lemma framed_after_Mail w m :
  framed (rcptLoop w (To m);;; client_Data w;;;
          deferring (discard (writer_Close w))
            (payload <- payload w m;;
             discard (writer_Write w payload);;; ret tt)).
Proof. intros R ? ? ? ? ? ? ?. now apply respects_after_Mail. Qed.

Lemma connect_step_message st st' : connect_step st st' -> message st' = message st.
Proof. intros (ce & x' & -> & _). reflexivity. Qed.

Lemma rcpts_app a b : rcpts (a ++ b)%list = (rcpts a ++ rcpts b)%list.
Proof.
  induction a as [|e a IH]; [reflexivity|].
  destruct e; cbn; rewrite ?IH; reflexivity.
Qed.

Lemma rcpts_map tos : rcpts (map EvRcpt tos) = tos.
Proof. induction tos as [|t tos IH]; cbn; [reflexivity | now rewrite IH]. Qed.

Lemma rcpts_connect ce : forallb is_connect_event ce = true -> rcpts ce = [].
Proof.
  induction ce as [|e ce IH]; [reflexivity|]. cbn [forallb].
  intros H. apply andb_true_iff in H. destruct H as [He Hce].
  destruct e; try discriminate; cbn; auto.
Qed.

Lemma rcpts_file fe : forallb is_file_event fe = true -> rcpts fe = [].
Proof.
  induction fe as [|e fe IH]; [reflexivity|]. cbn [forallb].
  intros H. apply andb_true_iff in H. destruct H as [He Hfe].
  destruct e; try discriminate; cbn; auto.
Qed.

Lemma connect_not_transaction ce :
  forallb is_connect_event ce = true -> filter is_transaction_event ce = [].
Proof.
  induction ce as [|e ce IH]; [reflexivity|]. cbn [forallb].
  intros H. apply andb_true_iff in H. destruct H as [He Hce].
  destruct e; try discriminate; cbn; auto.
Qed.

Lemma defaulted_fields m :
  FromAddr (defaulted m) = FromAddr m /\ To (defaulted m) = To m
  /\ CC (defaulted m) = CC m /\ Bcc (defaulted m) = Bcc m.
Proof. unfold defaulted. destruct (String.eqb (Subject m) ""); repeat split. Qed.

(** C7. With an empty sender address or an empty [To] list, [Send]
    returns the validation error; whatever it did before (the implicit
    dial) is connection set-up: no sender declaration, no recipient
    declaration and no data command is issued. *)
Theorem Send_rejects_before_transaction (w : World) (st : State) :
  FromAddr (message st) = "" \/ To (message st) = [] ->
  fst (Send w st)
  = Err (if String.eqb (FromAddr (message st)) ""
         then "Must specify the From address"
         else "Must specify at least one To address")
  /\ exists ce,
       trace (snd (Send w st)) = (trace st ++ ce)%list
       /\ forallb is_connect_event ce = true
       /\ filter is_transaction_event ce = [].
Proof.
  intros Hbad.
  destruct ((if negb (dialed (mailer st)) then discard (Dial w) else ret tt) st)
    as [r sd] eqn:Hd.
  destruct (autodial_effect _ _ _ _ Hd) as [-> Hstep].
  rewrite (Send_after_dial _ _ _ Hd).
  rewrite (connect_step_message _ _ Hstep).
  destruct Hstep as (ce & x' & -> & Hce).
  assert (Hend : exists ce0,
             trace (set_mailer x' (set_trace (trace st ++ ce)%list st)) = (trace st ++ ce0)%list
             /\ forallb is_connect_event ce0 = true
             /\ filter is_transaction_event ce0 = []).
  { exists ce. repeat split; [assumption | now apply connect_not_transaction]. }
  destruct (String.eqb (FromAddr (message st)) "") eqn:Hfrom; [now split|].
  destruct Hbad as [Hf | Ht].
  - rewrite Hf in Hfrom. discriminate.
  - rewrite Ht. cbn [List.length Nat.eqb]. now split.
Qed.




Lemma seq_split {A B C D} (a : M A) (b : M B) (c : M C) (d : M D) st :
  (a;;; b;;; c;;; d) st = ((a;;; b;;; c);;; d) st.
Proof.
  unfold bind. destruct (a st) as [[x | e | s] s1]; try reflexivity.
  destruct (b s1) as [[y | e | s] s2]; try reflexivity.
Qed.


(** C6. When [Send] succeeds, the recipients declared during the
    call are exactly the entries of [To], in order, between the sender
    declaration and the data command; CC and BCC entries are not
    declared, although the envelope that is written carries them as
    header fields. *)
Theorem Send_declares_To_only (w : World) (st st' : State) :
  Send w st = (Ok tt, st') ->
  let m := defaulted (message st) in
  exists ce fe p,
    trace st' = (trace st ++ ce ++ opening m ++ fe ++ [EvWrite p; EvClose])%list
    /\ forallb is_connect_event ce = true
    /\ forallb is_file_event fe = true
    /\ rcpts (ce ++ opening m ++ fe ++ [EvWrite p; EvClose]) = To (message st)
    /\ exists id date h,
         p = list_byte_of_string
               (Envelope.render
                  (standard_fields m id date
                   ++ Envelope.content_fields m (boundary st)
                   ++ [("Subject", Subject m)])
                ++ Envelope.body m h (boundary st)).
Proof.
  intros HS m.
  destruct ((if negb (dialed (mailer st)) then discard (Dial w) else ret tt) st)
    as [r sd] eqn:Hd.
  destruct (autodial_effect _ _ _ _ Hd) as [-> Hstep].
  rewrite (Send_after_dial _ _ _ Hd) in HS.
  rewrite (connect_step_message _ _ Hstep) in HS.
  destruct (String.eqb (FromAddr (message st)) ""); [discriminate|].
  destruct (Nat.eqb (List.length (To (message st))) 0); [discriminate|].
  cbv zeta in HS. fold m in HS.
  rewrite seq_split in HS. unfold bind at 1 in HS.
  destruct ((client_Mail w (FromAddr m);;; rcptLoop w (To m);;; client_Data w)
              (set_message m sd)) as [[[] | e | s] s1] eqn:Hopen;
    try discriminate.
  apply opening_ok in Hopen. subst s1.
  rewrite data_phase in HS.
  destruct (payload w m _) as [[p | e | s] s2] eqn:Hp; try discriminate.
  injection HS as <-.
  pose proof (payload_envelope _ _ _ _ _ Hp) as Henv.
  apply payload_effect in Hp. destruct Hp as [(fe & h' & -> & Hfe) _].
  destruct Hstep as (ce & x' & -> & Hce).
  exists ce, fe, p.
  cbn [trace set_trace set_heap set_clock set_message set_mailer boundary heap]
    in *.
  split; [now rewrite <- !app_assoc|]. split; [assumption|].
  split; [assumption|]. split.
  - unfold opening. rewrite !rcpts_app, (rcpts_connect _ Hce), (rcpts_file _ Hfe).
    cbn [rcpts app]. rewrite rcpts_map, !app_nil_r.
    apply (defaulted_fields (message st)).
  - rewrite fields_standard in Henv. eexists _, _, _. exact Henv.
Qed.

Lemma Dial_unreachable w st e :
  connect_reply w (trace st) (EvSmtpDial (Addr (mailer st))) = inl e ->
  Dial w st = (Err e, set_trace (trace st ++ [EvSmtpDial (Addr (mailer st))]) st).
Proof.
  intros H. unfold Dial. unfold bind at 1. unfold get at 1.
  unfold bind at 1. unfold smtp_Dial, bind, get, emit, modify, raise.
  cbn [trace]. now rewrite H.
Qed.

Lemma Dial_keeps_client w st c :
  connect_reply w (trace st) (EvSmtpDial (Addr (mailer st))) = inr c ->
  client (mailer (snd (Dial w st))) = Some c.
Proof.
  destruct st as [b [a h au c0 d t] m hp ck tr]. cbn [trace mailer Addr].
  intros H. run_monad. rewrite H. split_replies; reflexivity.
Qed.

Lemma client_Mail_connected w from st c :
  client (mailer st) = Some c -> has_newline from = false ->
  client_Mail w from st
  = (match cmd_reply w (trace st) (EvMail from) with
     | None => Ok tt
     | Some e => Err e
     end, set_trace (trace st ++ [EvMail from]) st).
Proof.
  intros Hc Hnl.
  unfold client_Mail, validateLine, on_client, command, bind, get, emit, modify,
    of_error, ret, raise, panic.
  rewrite Hnl, Hc. now destruct (cmd_reply w (trace st) (EvMail from)).
Qed.

(** C10, as the code has it.  When [Send] dials implicitly and
    [Dial] fails, the error is dropped: for a message that passes
    validation [Send] is the rest of its body run in the state [Dial]
    left, beginning with the call of [Mail] for the sender on whatever
    client is there.  [Mail] looks at the address first: one that
    holds a CR or LF is refused with the line error before the client
    is touched, and [Send] returns that error with no further call.
    For any other address the client decides: it is the still-nil
    client when the connection itself failed (the call panics and
    nothing is sent), and the client of the new connection when a
    later step failed (the sender declaration is made on it). *)
Theorem Send_discards_dial_error (w : World) (st : State) (e : error) :
  dialed (mailer st) = false -> client (mailer st) = None ->
  fst (Dial w st) = Err e ->
  FromAddr (message st) <> "" -> To (message st) <> [] ->
  let sd := snd (Dial w st) in
  Send w st
  = (client_Mail w (FromAddr (message st));;;
     rcptLoop w (To (defaulted (message st)));;;
     client_Data w;;;
     deferring (discard (writer_Close w))
       (payload <- payload w (defaulted (message st));;
        discard (writer_Write w payload);;; ret tt))
      (set_message (defaulted (message st)) sd)
  /\
  if has_newline (FromAddr (message st)) then
    Send w st
    = (Err "smtp: A line must not contain CR or LF",
       set_message (defaulted (message st)) sd)
  else
    match connect_reply w (trace st) (EvSmtpDial (Addr (mailer st))) with
    | inl _ =>
        client (mailer sd) = None
        /\ trace sd = (trace st ++ [EvSmtpDial (Addr (mailer st))])%list
        /\ Send w st = (Panic "Mail", set_message (defaulted (message st)) sd)
    | inr c =>
        client (mailer sd) = Some c
        /\ exists rest,
             trace (snd (Send w st))
             = (trace sd ++ EvMail (FromAddr (message st)) :: rest)%list
    end.
Proof.
  intros Hdialed Hnil Hfail Hfrom Hto sd.
  assert (Hd : (if negb (dialed (mailer st)) then discard (Dial w) else ret tt) st
               = (Ok tt, sd)).
  { rewrite Hdialed. cbn [negb]. unfold discard. subst sd.
    destruct (Dial w st) as [[[] | e0 | s] s0]; cbn in Hfail |- *;
      try discriminate. reflexivity. }
  destruct (autodial_effect _ _ _ _ Hd) as [_ Hstep].
  pose proof (connect_step_message _ _ Hstep) as Hmsg.
  assert (HS : Send w st
               = (client_Mail w (FromAddr (message st));;;
                  rcptLoop w (To (defaulted (message st)));;;
                  client_Data w;;;
                  deferring (discard (writer_Close w))
                    (payload <- payload w (defaulted (message st));;
                     discard (writer_Write w payload);;; ret tt))
                 (set_message (defaulted (message st)) sd)).
  { rewrite (Send_after_dial _ _ _ Hd), Hmsg.
    apply String.eqb_neq in Hfrom. rewrite Hfrom.
    assert (Hlen : Nat.eqb (List.length (To (message st))) 0 = false)
      by (destruct (To (message st)); [congruence | reflexivity]).
    rewrite Hlen. cbv zeta.
    now destruct (defaulted_fields (message st)) as [-> _]. }
  split; [exact HS|].
  destruct (has_newline (FromAddr (message st))) eqn:Hnl.
  { rewrite HS. unfold bind at 1.
    unfold client_Mail, validateLine, bind, raise. now rewrite Hnl. }
  destruct (connect_reply w (trace st) (EvSmtpDial (Addr (mailer st))))
    as [e0 | c] eqn:Hreply.
  - pose proof (Dial_unreachable _ _ _ Hreply) as HD.
    assert (Hsd : sd = set_trace (trace st ++ [EvSmtpDial (Addr (mailer st))]) st)
      by (subst sd; now rewrite HD).
    assert (Hcn : client (mailer sd) = None) by (rewrite Hsd; exact Hnil).
    split; [exact Hcn|]. split; [now rewrite Hsd|].
    rewrite HS. unfold bind at 1.
    unfold client_Mail, validateLine, on_client, bind, get, ret, panic.
    rewrite Hnl. cbn [mailer set_message]. rewrite Hcn. reflexivity.
  - pose proof (Dial_keeps_client _ _ _ Hreply) as Hc. fold sd in Hc.
    split; [exact Hc|]. rewrite HS. unfold bind at 1.
    rewrite (client_Mail_connected w _ _ c); [| exact Hc | exact Hnl].
    cbn [trace set_message].
    destruct (cmd_reply w (trace sd) (EvMail (FromAddr (message st)))).
    + exists []. reflexivity.
    + match goal with
      | |- context [snd (?c ?s)] =>
          destruct (framed_grows c s (framed_after_Mail w _)) as [d Hd']
      end.
      exists d. rewrite Hd'. cbn [trace set_trace].
      rewrite <- app_assoc. reflexivity.
Qed.

Lemma exec_boundary w c st : boundary (exec w c st) = boundary st.
Proof.
  destruct c; cbn [exec]; try reflexivity;
    apply framed_same_boundary; intros R ? ? ? ? ? ? ?.
  - now apply respects_Send.
  - now apply respects_Dial.
  - now apply respects_DialWithTLS.
  - now apply respects_DialWithStartTLS.
  - now apply respects_Auth.
  - now apply respects_Quit.
  - now apply respects_AttachFile.
Qed.

Lemma run_boundary w calls : forall st, boundary (run w calls st) = boundary st.
Proof.
  induction calls as [|c calls IH]; intros st; [reflexivity|].
  cbn [run fold_left]. fold (run w calls (exec w c st)).
  now rewrite IH, exec_boundary.
Qed.

(** C9. The boundary token is set once, when the package is
    initialised; no call changes it, and two envelopes built at any
    two moments of a run, for any session and message, are rendered
    with that same token. *)
Theorem boundary_generated_once (w : World) (x : XMailer) (m : Message)
    (calls1 calls2 : list call) (m1 m2 : Message) (p1 p2 : list byte)
    (s1 s2 : State) :
  let st1 := run w calls1 (init w x m) in
  let st2 := run w calls2 st1 in
  payload w m1 st1 = (Ok p1, s1) ->
  payload w m2 st2 = (Ok p2, s2) ->
  let B := generateBoundary w in
  (forall calls st, boundary (run w calls st) = boundary st)
  /\ boundary st1 = B /\ boundary st2 = B
  /\ boundary s1 = B /\ boundary s2 = B
  /\ p1 = list_byte_of_string
            (Envelope.render
               (Envelope.fields m1 (messageID_at w st1) (date_at w st1) B)
             ++ Envelope.body m1 (heap s1) B)
  /\ p2 = list_byte_of_string
            (Envelope.render
               (Envelope.fields m2 (messageID_at w st2) (date_at w st2) B)
             ++ Envelope.body m2 (heap s2) B).
Proof.
  intros st1 st2 H1 H2 B.
  assert (Hb1 : boundary st1 = B) by (unfold st1; now rewrite run_boundary).
  assert (Hb2 : boundary st2 = B) by (unfold st2; now rewrite run_boundary).
  assert (Hp : forall m0 st p s, payload w m0 st = (Ok p, s) ->
                                 boundary s = boundary st).
  { intros m0 st p s H.
    change s with (snd (Ok p, s)). rewrite <- H.
    apply framed_same_boundary. intros R ? ? ? ? ? ? ?.
    now apply respects_payload. }
  split; [apply run_boundary|].
  repeat split; try assumption.
  - now rewrite (Hp _ _ _ _ H1).
  - now rewrite (Hp _ _ _ _ H2).
  - rewrite <- Hb1. now apply payload_envelope.
  - rewrite <- Hb2. now apply payload_envelope.
Qed.

(** ** The theorems at work on the sample messages *)

Lemma payload_plain_single_section_witness :
  Attachments msg_plain = [] /\ HTML msg_plain = ""
  /\ exists p st',
       payload world_ok msg_plain st_plain = (Ok p, st')
       /\ lines (string_of_list_byte p)
          = ["Message-Id: 4242.1136239445000000000@mailhost";
             "Mime-Version: 1.0";
             "Date: Mon, 02 Jan 2006 15:04:05 -0700";
             "From: A <a@x.com>";
             "To: b@y.com";
             "Content-Type: text/plain; charset=UTF-8";
             "Content-Transfer-Encoding: quoted-printable";
             "Subject: Greetings";
             "";
             "hi";
             ""].
Proof.
  split; [reflexivity|]. split; [reflexivity|].
  destruct (payload_plain_single_section world_ok msg_plain st_plain
              eq_refl eq_refl) as (p & st' & Hp & Heq & _).
  exists p, st'. split; [exact Hp|]. rewrite Heq. vm_compute. reflexivity.
Defined.

Lemma payload_alternative_two_parts_witness :
  Attachments msg_alternative = [] /\ Text msg_alternative <> ""
  /\ HTML msg_alternative <> ""
  /\ exists p st',
       payload world_ok msg_alternative st_alternative = (Ok p, st')
       /\ skipn 9 (lines (string_of_list_byte p))
          = ["";
             "--5a7d3c1f9b2e4d6a8c0e1f3b5d7a9c2e4f6081a3c5e7092b4d6f8a1c3e50";
             "Content-Type: text/plain; charset=UTF-8";
             "Content-Transfer-Encoding: quoted-printable";
             "";
             "hi";
             "--5a7d3c1f9b2e4d6a8c0e1f3b5d7a9c2e4f6081a3c5e7092b4d6f8a1c3e50";
             "Content-Type: text/html; charset=UTF-8";
             "Content-Transfer-Encoding: quoted-printable";
             "";
             "<b>hi</b>";
             "--5a7d3c1f9b2e4d6a8c0e1f3b5d7a9c2e4f6081a3c5e7092b4d6f8a1c3e50";
             ""].
Proof.
  assert (Ht : Text msg_alternative <> "") by discriminate.
  assert (Hh : HTML msg_alternative <> "") by discriminate.
  split; [reflexivity|]. split; [exact Ht|]. split; [exact Hh|].
  destruct (payload_alternative_two_parts world_ok msg_alternative
              st_alternative eq_refl Ht Hh) as (p & st' & Hp & Heq).
  exists p, st'. split; [exact Hp|]. rewrite Heq. vm_compute. reflexivity.
Defined.

Lemma payload_mixed_roundtrip_witness :
  Attachments msg_attachment <> []
  /\ Forall (present (heap st_attachment)) (Attachments msg_attachment)
  /\ exists p,
       fst (payload world_ok msg_attachment st_attachment) = Ok p
       /\ Forall2 (carries (heap st_attachment)) (Attachments msg_attachment)
                  (Envelope.attachment_parts (heap st_attachment)
                                             (Attachments msg_attachment))
       /\ map Envelope.part_body
              (Envelope.attachment_parts (heap st_attachment)
                                         (Attachments msg_attachment))
          = ["QUI="].
Proof.
  assert (Hne : Attachments msg_attachment <> []) by discriminate.
  assert (Hall : Forall (present (heap st_attachment))
                        (Attachments msg_attachment)).
  { constructor; [|constructor].
    exists 0,
      (mkAttachment "text/plain" "" "f.txt" (Some ["A"%byte; "B"%byte])),
      ["A"%byte; "B"%byte].
    repeat split. }
  split; [exact Hne|]. split; [exact Hall|].
  destruct (payload_mixed_roundtrip world_ok msg_attachment st_attachment
              Hne Hall) as (p & Hp & _ & Hcarry).
  exists p. split; [now rewrite Hp|]. split; [exact Hcarry | reflexivity].
Defined.

Lemma payload_open_delimiters_witness :
  Envelope.multipart msg_attachment = true
  /\ payload world_ok msg_attachment st_attachment
     = (Ok (envelope_of (payload world_ok msg_attachment st_attachment)),
        snd (payload world_ok msg_attachment st_attachment))
  /\ ~ (exists pre,
          string_of_list_byte
            (envelope_of (payload world_ok msg_attachment st_attachment))
          = pre ++ Envelope.terminator (boundary st_attachment)).
Proof.
  assert (Hp : payload world_ok msg_attachment st_attachment
     = (Ok (envelope_of (payload world_ok msg_attachment st_attachment)),
        snd (payload world_ok msg_attachment st_attachment)))
    by (vm_compute; reflexivity).
  split; [reflexivity|]. split; [exact Hp|].
  exact (proj2 (proj2 (payload_open_delimiters world_ok msg_attachment
                         st_attachment _ _ eq_refl Hp))).
Defined.

Lemma payload_header_order_witness :
  payload world_ok msg_attachment st_attachment
  = (Ok (envelope_of (payload world_ok msg_attachment st_attachment)),
     snd (payload world_ok msg_attachment st_attachment))
  /\ header_names
       (string_of_list_byte
          (envelope_of (payload world_ok msg_attachment st_attachment)))
     = ["Message-Id"; "Mime-Version"; "Date"; "From"; "To"; "CC"; "BCC";
        "Content-Type"; "Subject"].
Proof.
  assert (Hp : payload world_ok msg_attachment st_attachment
     = (Ok (envelope_of (payload world_ok msg_attachment st_attachment)),
        snd (payload world_ok msg_attachment st_attachment)))
    by (vm_compute; reflexivity).
  split; [exact Hp|].
  destruct (payload_header_order world_ok msg_attachment st_attachment _ _ Hp)
    as (_ & _ & _ & Hnames).
  rewrite Hnames; [reflexivity | vm_compute; reflexivity].
Defined.

(** C2, as stated, fails: a message with blind-copy recipients gets a
    [BCC] field between [To] and [Content-Type]. *)
Lemma payload_emits_bcc_header :
  fst (payload world_ok msg_alternative st_alternative)
  = Ok (envelope_of (payload world_ok msg_alternative st_alternative))
  /\ header_names
       (string_of_list_byte
          (envelope_of (payload world_ok msg_alternative st_alternative)))
     = ["Message-Id"; "Mime-Version"; "Date"; "From"; "To"; "BCC";
        "Content-Type"; "Subject"]
  /\ header_names
       (string_of_list_byte
          (envelope_of (payload world_ok msg_alternative st_alternative)))
     <> listed_names msg_alternative.
Proof.
  split; [vm_compute; reflexivity|].
  split; [vm_compute; reflexivity|].
  vm_compute. discriminate.
Qed.

Lemma Send_rejects_before_transaction_witness :
  (FromAddr (message st_no_recipient) = "" \/ To (message st_no_recipient) = [])
  /\ fst (Send world_ok st_no_recipient)
     = Err "Must specify at least one To address"
  /\ filter is_transaction_event (trace (snd (Send world_ok st_no_recipient)))
     = [].
Proof.
  assert (H : FromAddr (message st_no_recipient) = ""
              \/ To (message st_no_recipient) = []) by (right; reflexivity).
  split; [exact H|].
  destruct (Send_rejects_before_transaction world_ok st_no_recipient H)
    as (Herr & ce & Htrace & _ & Hnone).
  split; [exact Herr|]. rewrite Htrace. exact Hnone.
Defined.

Lemma Send_declares_To_only_witness :
  Send world_ok st_attachment = (Ok tt, snd (Send world_ok st_attachment))
  /\ rcpts (trace (snd (Send world_ok st_attachment))) = ["b@y.com"; "c@y.com"].
Proof.
  assert (HS : Send world_ok st_attachment
               = (Ok tt, snd (Send world_ok st_attachment)))
    by (vm_compute; reflexivity).
  split; [exact HS|].
  destruct (Send_declares_To_only world_ok st_attachment _ HS)
    as (ce & fe & p & Htrace & _ & _ & Hr & _).
  rewrite Htrace. exact Hr.
Defined.



Lemma Send_discards_dial_error_witness :
  dialed (mailer st_unreachable) = false
  /\ client (mailer st_unreachable) = None
  /\ fst (Dial world_unreachable st_unreachable)
     = Err "dial tcp: connection refused"
  /\ FromAddr (message st_unreachable) <> ""
  /\ To (message st_unreachable) <> []
  /\ fst (Send world_unreachable st_unreachable) = Panic "Mail"
  /\ trace (snd (Send world_unreachable st_unreachable))
     = [EvSmtpDial "smtp.x.com:587"].
Proof.
  assert (Hfrom : FromAddr (message st_unreachable) <> "") by discriminate.
  assert (Hto : To (message st_unreachable) <> []) by discriminate.
  split; [reflexivity|]. split; [reflexivity|]. split; [reflexivity|].
  split; [exact Hfrom|]. split; [exact Hto|].
  pose proof (Send_discards_dial_error world_unreachable st_unreachable
                "dial tcp: connection refused"
                eq_refl eq_refl eq_refl Hfrom Hto) as H.
  cbv zeta in H. destruct H as [_ H].
  change (has_newline (FromAddr (message st_unreachable))) with false in H.
  cbv iota in H.
  change (connect_reply world_unreachable (trace st_unreachable)
            (EvSmtpDial (Addr (mailer st_unreachable))))
    with (@inl error Client "dial tcp: connection refused") in H.
  cbv iota in H. destruct H as (_ & Htrace & HS).
  rewrite HS. split; [reflexivity|]. cbn [snd trace set_message].
  exact Htrace.
Defined.

(** C10, as stated, fails: when the server refuses STARTTLS, [Dial]
    fails but the client is not nil, and the sender declaration is
    made on it. *)
Lemma Send_after_refused_starttls :
  dialed (mailer st_refused) = false
  /\ fst (Dial world_starttls_refused st_refused) = Err "454 TLS not available"
  /\ client (mailer (snd (Dial world_starttls_refused st_refused)))
     = Some (Conn 0)
  /\ fst (Send world_starttls_refused st_refused) = Ok tt
  /\ firstn 4 (trace (snd (Send world_starttls_refused st_refused)))
     = [EvSmtpDial "smtp.x.com:587"; EvHello "localhost";
        EvStartTLS (Some (mkTLSConfig "smtp.x.com")); EvMail "a@x.com"].
Proof. repeat split; vm_compute; reflexivity. Qed.

Lemma boundary_generated_once_witness :
  payload world_ok msg_alternative
    (run world_ok [CallDial; CallSend] (init world_ok mailer_new msg_plain))
  = (Ok (envelope_of
           (payload world_ok msg_alternative
              (run world_ok [CallDial; CallSend]
                 (init world_ok mailer_new msg_plain)))),
     snd (payload world_ok msg_alternative
            (run world_ok [CallDial; CallSend]
               (init world_ok mailer_new msg_plain))))
  /\ payload world_ok msg_attachment
       (run world_ok [CallerSets mailer_up msg_attachment heap_AB; CallSend]
          (run world_ok [CallDial; CallSend]
             (init world_ok mailer_new msg_plain)))
     = (Ok (envelope_of
              (payload world_ok msg_attachment
                 (run world_ok
                    [CallerSets mailer_up msg_attachment heap_AB; CallSend]
                    (run world_ok [CallDial; CallSend]
                       (init world_ok mailer_new msg_plain))))),
        snd (payload world_ok msg_attachment
               (run world_ok
                  [CallerSets mailer_up msg_attachment heap_AB; CallSend]
                  (run world_ok [CallDial; CallSend]
                     (init world_ok mailer_new msg_plain)))))
  /\ boundary (run world_ok [CallDial; CallSend]
                 (init world_ok mailer_new msg_plain))
     = generateBoundary world_ok
  /\ boundary (run world_ok
                 [CallerSets mailer_up msg_attachment heap_AB; CallSend]
                 (run world_ok [CallDial; CallSend]
                    (init world_ok mailer_new msg_plain)))
     = generateBoundary world_ok.
Proof.
  assert (H1 : payload world_ok msg_alternative
    (run world_ok [CallDial; CallSend] (init world_ok mailer_new msg_plain))
  = (Ok (envelope_of
           (payload world_ok msg_alternative
              (run world_ok [CallDial; CallSend]
                 (init world_ok mailer_new msg_plain)))),
     snd (payload world_ok msg_alternative
            (run world_ok [CallDial; CallSend]
               (init world_ok mailer_new msg_plain)))))
    by (vm_compute; reflexivity).
  assert (H2 : payload world_ok msg_attachment
       (run world_ok [CallerSets mailer_up msg_attachment heap_AB; CallSend]
          (run world_ok [CallDial; CallSend]
             (init world_ok mailer_new msg_plain)))
     = (Ok (envelope_of
              (payload world_ok msg_attachment
                 (run world_ok
                    [CallerSets mailer_up msg_attachment heap_AB; CallSend]
                    (run world_ok [CallDial; CallSend]
                       (init world_ok mailer_new msg_plain))))),
        snd (payload world_ok msg_attachment
               (run world_ok
                  [CallerSets mailer_up msg_attachment heap_AB; CallSend]
                  (run world_ok [CallDial; CallSend]
                     (init world_ok mailer_new msg_plain))))))
    by (vm_compute; reflexivity).
  split; [exact H1|]. split; [exact H2|].
  destruct (boundary_generated_once world_ok mailer_new msg_plain
              [CallDial; CallSend]
              [CallerSets mailer_up msg_attachment heap_AB; CallSend]
              msg_alternative msg_attachment _ _ _ _ H1 H2)
    as (_ & Hb1 & Hb2 & _).
  split; [exact Hb1 | exact Hb2].
Defined.

(** * Further properties of the code *)

(** ** Reading and serialising attachments *)

(** X1. When [readFile] returns without error, the file was examined with
    [os.Stat], opened and read once, in this order and with no other
    call; the buffer returned has exactly the size [os.Stat] reported,
    and holds what the read delivered, cut or padded with zero bytes
    to that size. *)
Theorem readFile_returns_stat_size (w : World) (path : string) (st : State)
    (buf : list byte) (st' : State) :
  readFile w path st = (Ok buf, st') ->
  exists finfo,
    stat_reply w (trace st) path = inr finfo
    /\ List.length buf = Size finfo
    /\ buf = firstn (Size finfo)
               (fst (read_reply w (trace st ++ [EvStat path; EvOpenFile path])
                                path)
                ++ repeat x00 (Size finfo))
    /\ st' = set_trace (trace st ++ [EvStat path; EvOpenFile path;
                                     EvRead path (Size finfo)]) st.
Proof.
  unfold readFile, os_Stat, os_OpenFile, file_Read, command, bind, get, emit,
    modify, of_error, ret, raise.
  cbn [trace set_trace].
  destruct (stat_reply w (trace st) path) as [e | finfo]; cbn;
    [discriminate|].
  destruct (cmd_reply w (trace st ++ [EvStat path]) (EvOpenFile path)); cbn;
    [discriminate|].
  rewrite <- !app_assoc. cbn [app].
  destruct (snd (read_reply w (trace st ++ [EvStat path; EvOpenFile path]) path));
    cbn; [discriminate|].
  intros [= <- <-]. exists finfo. split; [reflexivity|]. split.
  - rewrite length_firstn, length_app, repeat_length. lia.
  - split; reflexivity.
Qed.

Lemma attachment_parts_length h atts :
  List.length (Envelope.attachment_parts h atts) <= List.length atts.
Proof.
  induction atts as [|a atts IH]; cbn [Envelope.attachment_parts List.length];
    [lia|].
  destruct (Envelope.resolved_part h a); cbn [List.length]; lia.
Qed.

Lemma all_parts_all_present h atts :
  List.length (Envelope.attachment_parts h atts) = List.length atts ->
  Forall (present h) atts.
Proof.
  induction atts as [|a atts IH]; intros Hlen; [constructor|].
  cbn [Envelope.attachment_parts List.length] in Hlen.
  pose proof (attachment_parts_length h atts) as Hle.
  destruct (Envelope.resolved_part h a) as [q|] eqn:Hq;
    cbn [List.length] in Hlen; [|lia].
  constructor; [|apply IH; lia].
  unfold Envelope.resolved_part in Hq.
  destruct a as [i|]; [|discriminate].
  destruct (nth_error h i) as [att|] eqn:Hi; [|discriminate].
  destruct (Content att) as [c|] eqn:Hc; [|discriminate].
  now exists i, att, c.
Qed.

Lemma payload_ok_all_present w m st p st' :
  payload w m st = (Ok p, st') -> Forall (present (heap st')) (Attachments m).
Proof.
  intros Hp. rewrite payload_unfold in Hp. cbv zeta in Hp.
  destruct (Attachments m) as [|a atts]; [constructor|].
  destruct (writeAttachments w (boundary st) (a :: atts) _ _)
    as [[p1 | e | s] st1] eqn:Hw; try discriminate.
  injection Hp as _ <-.
  apply writeAttachments_ok in Hw. destruct Hw as [_ Hlen].
  now apply all_parts_all_present.
Qed.

(** X2. When [payload] succeeds, every attachment of the message has its
    content in memory afterwards, and an attachment that had its
    content before is left as it was. *)
Theorem payload_resolves_attachments (w : World) (m : Message) (st : State)
    (p : list byte) (st' : State) :
  payload w m st = (Ok p, st') ->
  Forall (present (heap st')) (Attachments m)
  /\ (forall i att c,
        nth_error (heap st) i = Some att -> Content att = Some c ->
        nth_error (heap st') i = Some att).
Proof.
  intros Hp. split; [exact (payload_ok_all_present _ _ _ _ _ Hp)|].
  - intros i att c Hi Hc. apply payload_effect in Hp. destruct Hp as [_ Hst].
    destruct (Hst i att) as [Hi' _]; [split; congruence | exact Hi'].
Qed.

(** X3. After a successful [payload], serialising the same message again
    succeeds without any call on the file system and without touching
    the attachments: the contents read the first time are reused.  The
    two envelopes have the same body and the same header fields, up to
    the message id and the date, which are taken anew. *)
Theorem payload_again_reads_nothing (w : World) (m : Message) (st : State)
    (p : list byte) (st' : State) :
  payload w m st = (Ok p, st') ->
  payload w m st'
  = (Ok (list_byte_of_string
           (Envelope.render
              (Envelope.fields m (messageID_at w st') (date_at w st')
                               (boundary st))
            ++ Envelope.body m (heap st') (boundary st))),
     set_clock (S (S (clock st'))) st')
  /\ p = list_byte_of_string
           (Envelope.render
              (Envelope.fields m (messageID_at w st) (date_at w st)
                               (boundary st))
            ++ Envelope.body m (heap st') (boundary st)).
Proof.
  intros Hp. split; [|now apply payload_envelope].
  pose proof (payload_ok_all_present _ _ _ _ _ Hp) as Hall.
  assert (Hb : boundary st' = boundary st).
  { apply payload_effect in Hp. destruct Hp as [(fe & h' & -> & _) _].
    reflexivity. }
  rewrite payload_unfold. cbv zeta. rewrite Hb.
  destruct (Attachments m) as [|a atts] eqn:Ha.
  - unfold Envelope.body, Envelope.shape_of. rewrite Ha. reflexivity.
  - destruct (writeAttachments_all_present w (boundary st) (a :: atts)
                (Envelope.render (Envelope.fields m (messageID_at w st')
                                    (date_at w st') (boundary st))
                 ++ CRLF ++ Envelope.delimiter (boundary st)
                 ++ Envelope.delimited (boundary st) (Envelope.text_parts m))
                (set_clock (S (S (clock st'))) st') Hall) as [-> _].
    f_equal. f_equal. cbn [heap set_clock].
    unfold Envelope.body, Envelope.shape_of, Envelope.multipart_body.
    rewrite Ha, delimited_app, !append_assoc. reflexivity.
Qed.

(** X4. A message with an HTML body, no text body and no attachments is
    serialised as a single section: the standard fields, a
    [text/html] content type, the transfer encoding announced as
    quoted-printable, the subject, a blank line and the HTML body as
    it was given, with no encoding applied and no delimiter line. *)
Theorem payload_html_single_section (w : World) (m : Message) (st : State) :
  Attachments m = [] -> Text m = "" -> HTML m <> "" ->
  payload w m st
  = (Ok (list_byte_of_string
           (Envelope.render
              (standard_fields m (messageID_at w st) (date_at w st)
               ++ [("Content-Type", "text/html; charset=UTF-8");
                   ("Content-Transfer-Encoding", "quoted-printable");
                   ("Subject", Subject m)])
            ++ CRLF ++ HTML m ++ CRLF)),
     set_clock (S (S (clock st))) st).
Proof.
  intros Ha Ht Hh. rewrite (payload_no_attachments _ _ _ Ha).
  assert (Hshape : Envelope.shape_of m = Envelope.SingleHTML).
  { unfold Envelope.shape_of. rewrite Ha, Ht, (nonempty_true _ Hh). reflexivity. }
  rewrite fields_standard. unfold Envelope.content_fields, Envelope.body,
    Envelope.single_body.
  rewrite Hshape, (nonempty_true _ Hh). reflexivity.
Qed.

Lemma writeAttachments_through_present w b pre : forall rest p st,
  Forall (present (heap st)) pre ->
  writeAttachments w b (pre ++ rest)%list p st
  = writeAttachments w b rest
      (p ++ Envelope.delimited b (Envelope.attachment_parts (heap st) pre)) st.
Proof.
  induction pre as [|a pre IH]; intros rest p st Hall.
  - cbn. now rewrite append_nil_r.
  - inversion Hall as [|? ? (i & att & c & -> & Hi & Hc) Hpre]; subst.
    cbn [app]. rewrite (writeAttachments_present _ _ _ _ _ _ _ _ Hi Hc).
    rewrite (IH rest _ st Hpre).
    cbn [Envelope.attachment_parts Envelope.resolved_part]. rewrite Hi, Hc.
    cbn [Envelope.delimited]. now rewrite !append_assoc.
Qed.


(** ** Attaching files *)

Lemma content_type_nonempty w f : ParseContentTypeWithExt w f <> "".
Proof.
  unfold ParseContentTypeWithExt.
  destruct (String.eqb f ""); [discriminate|].
  destruct (String.eqb (filepath_Ext w f) ""); [discriminate|].
  destruct (String.eqb_spec (mime_TypeByExtension w (filepath_Ext w f)) "");
    [discriminate | assumption].
Qed.

(** X6. [ParseContentTypeWithExt] never answers with the empty string: the
    result is [application/octet-stream] or, for a file name with an
    extension, the type the MIME table gives for that extension. *)
Theorem ParseContentTypeWithExt_never_empty (w : World) (f : string) :
  ParseContentTypeWithExt w f <> ""
  /\ (ParseContentTypeWithExt w f = "application/octet-stream"
      \/ (f <> "" /\ filepath_Ext w f <> ""
          /\ ParseContentTypeWithExt w f
             = mime_TypeByExtension w (filepath_Ext w f))).
Proof.
  split; [apply content_type_nonempty|].
  unfold ParseContentTypeWithExt.
  destruct (String.eqb_spec f "") as [Hf | Hf]; [now left|].
  destruct (String.eqb_spec (filepath_Ext w f) "") as [He | He]; [now left|].
  destruct (String.eqb (mime_TypeByExtension w (filepath_Ext w f)) "");
    [now left | now right].
Qed.

Lemma ReplaceAll_backslash_clean s : no_backslash (ReplaceAll_backslash s) = true.
Proof.
  unfold no_backslash, ReplaceAll_backslash.
  rewrite list_ascii_of_string_of_list_ascii.
  induction (list_ascii_of_string s) as [|c l IH]; [reflexivity|].
  cbn [map forallb]. rewrite IH, andb_true_r.
  destruct (Ascii.eqb c "\"%char) eqn:Hc; [reflexivity|].
  now rewrite Hc.
Qed.

(** X7. When [AttachFile] fails, the message and its attachments are as
    before and the only call made is one [os.Stat] on the name with
    backslashes turned into slashes; the error is that of [os.Stat],
    or says that the name is not a file when it is a directory. *)
Theorem AttachFile_failure_changes_nothing (w : World) (f : string)
    (st : State) :
  fst (AttachFile w f st) <> Ok tt ->
  snd (AttachFile w f st)
  = set_trace (trace st ++ [EvStat (ReplaceAll_backslash f)]) st
  /\ fst (AttachFile w f st)
     = match stat_reply w (trace st) (ReplaceAll_backslash f) with
       | inl e => Err e
       | inr _ => Err (ReplaceAll_backslash f ++ " is not a file")
       end.
Proof.
  unfold AttachFile, os_Stat, new_Attachment, bind, get, emit, modify, ret,
    raise.
  cbn [trace set_trace].
  destruct (stat_reply w (trace st) (ReplaceAll_backslash f)) as [e | finfo];
    cbn [fst snd]; [now split|].
  destruct (IsDir finfo); cbn [fst snd]; [now split|].
  intros H. now contradiction H.
Qed.

Lemma AttachFile_ok_state w f st st' :
  AttachFile w f st = (Ok tt, st') ->
  let path := ReplaceAll_backslash f in
  (exists finfo, stat_reply w (trace st) path = inr finfo
                 /\ IsDir finfo = false)
  /\ st' = set_message (AddAttachment (Some (List.length (heap st))) (message st))
             (set_heap (heap st ++ [mkAttachment (ParseContentTypeWithExt w path)
                                      path (path_Base w path) None])
                (set_trace (trace st ++ [EvStat path]) st)).
Proof.
  intros H path. revert H.
  unfold AttachFile, os_Stat, new_Attachment, bind, get, emit, modify, ret,
    raise.
  cbn [trace set_trace]. fold path.
  destruct (stat_reply w (trace st) path) as [e | finfo] eqn:Hs;
    [discriminate|].
  destruct (IsDir finfo) eqn:Hd; [discriminate|].
  cbn [heap set_heap set_trace message].
  intros [= <-]. split; [now exists finfo | reflexivity].
Qed.

(** X8. When [AttachFile] succeeds, the name is that of something
    [os.Stat] found and that is not a directory, and exactly one
    attachment is appended to the message, after those already there,
    which stay as they are: its file name has no backslash, its
    content type is not empty, and its content is not read yet.  The
    file itself is not opened. *)
Theorem AttachFile_appends_unread (w : World) (f : string) (st st' : State) :
  AttachFile w f st = (Ok tt, st') ->
  let path := ReplaceAll_backslash f in
  let att := mkAttachment (ParseContentTypeWithExt w path) path
                          (path_Base w path) None in
  (exists finfo, stat_reply w (trace st) path = inr finfo
                 /\ IsDir finfo = false)
  /\ no_backslash (FileName att) = true
  /\ ContentType att <> ""
  /\ heap st' = (heap st ++ [att])%list
  /\ Attachments (message st')
     = (Attachments (message st) ++ [Some (List.length (heap st))])%list
  /\ nth_error (heap st') (List.length (heap st)) = Some att
  /\ (forall i a, nth_error (heap st) i = Some a ->
                  nth_error (heap st') i = Some a)
  /\ st' = set_message (AddAttachment (Some (List.length (heap st))) (message st))
             (set_heap (heap st ++ [att])
                (set_trace (trace st ++ [EvStat path]) st)).
Proof.
  intros H path att.
  destruct (AttachFile_ok_state _ _ _ _ H) as [Hstat ->].
  fold path. fold att.
  split; [exact Hstat|].
  split; [apply ReplaceAll_backslash_clean|].
  split; [apply content_type_nonempty|].
  cbn [heap message set_message set_heap set_trace Attachments AddAttachment
       with_Attachments].
  split; [reflexivity|]. split; [reflexivity|]. split.
  - rewrite nth_error_app2 by lia. now rewrite Nat.sub_diag.
  - split; [|reflexivity]. intros i a Hi.
    rewrite nth_error_app1; [exact Hi|].
    apply nth_error_Some. congruence.
Qed.

Lemma present_app h extra a : present h a -> present (h ++ extra) a.
Proof.
  intros (i & att & c & -> & Hi & Hc). exists i, att, c.
  repeat split; try assumption.
  rewrite nth_error_app1; [exact Hi|]. apply nth_error_Some. congruence.
Qed.

Lemma attachment_parts_app h extra atts :
  Forall (present h) atts ->
  Envelope.attachment_parts (h ++ extra) atts = Envelope.attachment_parts h atts.
Proof.
  induction 1 as [|a atts (i & att & c & -> & Hi & Hc) _ IH]; [reflexivity|].
  cbn [Envelope.attachment_parts Envelope.resolved_part].
  rewrite nth_error_app1 by (apply nth_error_Some; congruence).
  now rewrite Hi, Hc, IH.
Qed.

(** X9. A file accepted by [AttachFile] is examined again when the message
    is serialised: if [os.Stat] fails then, [payload] fails with that
    error after this one call, the earlier attachments being in
    memory. *)
Theorem AttachFile_does_not_guard_payload (w : World) (f : string)
    (st st1 : State) (e : error) :
  AttachFile w f st = (Ok tt, st1) ->
  Forall (present (heap st)) (Attachments (message st)) ->
  stat_reply w (trace st1) (ReplaceAll_backslash f) = inl e ->
  payload w (message st1) st1
  = (Err e,
     set_trace (trace st1 ++ [EvStat (ReplaceAll_backslash f)])
       (set_clock (S (S (clock st1))) st1)).
Proof.
  intros Ha Hall Hstat.
  destruct (AttachFile_ok_state _ _ _ _ Ha) as [_ Hst1].
  set (path := ReplaceAll_backslash f) in *.
  set (att := mkAttachment (ParseContentTypeWithExt w path) path
                (path_Base w path) None) in *.
  assert (Hheap : heap st1 = (heap st ++ [att])%list) by now rewrite Hst1.
  assert (Hatts : Attachments (message st1)
                  = (Attachments (message st)
                     ++ [Some (List.length (heap st))])%list)
    by now rewrite Hst1.
  assert (Hnew : nth_error (heap st1) (List.length (heap st)) = Some att).
  { rewrite Hheap, nth_error_app2 by lia. now rewrite Nat.sub_diag. }
  clear Hst1.
  rewrite payload_unfold. cbv zeta. rewrite Hatts.
  destruct (Attachments (message st) ++ [Some (List.length (heap st))])%list
    as [|a atts] eqn:Happ; [now destruct (Attachments (message st))|].
  rewrite <- Happ.
  set (st2 := set_clock (S (S (clock st1))) st1).
  assert (Hh2 : heap st2 = heap st1) by reflexivity.
  assert (Ht2 : trace st2 = trace st1) by reflexivity.
  rewrite writeAttachments_through_present.
  2:{ rewrite Hh2, Hheap.
      eapply Forall_impl; [|exact Hall]. intros a0. apply present_app. }
  rewrite <- Hh2 in Hnew.
  rewrite (writeAttachments_absent w _ _ _ _ _ _ Hnew eq_refl).
  cbn [FileName att].
  unfold readFile, os_Stat, bind, get, emit, modify, raise.
  rewrite Ht2, Hstat. reflexivity.
Qed.

(** ** The constructors *)

Lemma Index_byte_range s c : (-1 <= Index_byte s c < len s)%Z.
Proof.
  unfold len. induction s as [|d s IH]; cbn [Index_byte String.length].
  - lia.
  - destruct (Ascii.eqb d c); [lia|].
    destruct (Z.eqb_spec (Index_byte s c) (-1)); lia.
Qed.

Lemma Index_byte_absent s :
  no_colon s = true -> Index_byte s ":" = (-1)%Z.
Proof.
  unfold no_colon. induction s as [|d s IH]; cbn; [reflexivity|].
  intros H. apply andb_true_iff in H. destruct H as [Hd Hs].
  apply negb_true_iff in Hd. rewrite Hd, (IH Hs). reflexivity.
Qed.

Lemma Index_byte_first a b :
  no_colon a = true -> Index_byte (a ++ String ":" b) ":" = len a.
Proof.
  unfold no_colon, len. induction a as [|d a IH]; cbn [append Index_byte
    list_ascii_of_string forallb String.length]; [reflexivity|].
  intros H. apply andb_true_iff in H. destruct H as [Hd Hs].
  apply negb_true_iff in Hd. rewrite Hd, (IH Hs).
  destruct (Z.eqb_spec (Z.of_nat (String.length a)) (-1)); lia.
Qed.

Lemma Index_byte_split s : forall i,
  Index_byte s ":" = i -> (0 <= i)%Z ->
  exists a b, s = a ++ String ":" b /\ no_colon a = true /\ len a = i.
Proof.
  unfold no_colon, len. induction s as [|d s IH]; intros i; cbn [Index_byte].
  - lia.
  - destruct (Ascii.eqb_spec d ":") as [-> | Hd].
    + intros <- _. exists "", s. now repeat split.
    + destruct (Z.eqb_spec (Index_byte s ":") (-1)) as [He | He]; [lia|].
      intros <- Hi.
      destruct (IH (Index_byte s ":") eq_refl) as (a & b & -> & Ha & Hl).
      { pose proof (Index_byte_range s ":"). lia. }
      exists (String d a), b. cbn [append list_ascii_of_string forallb
        String.length].
      apply Ascii.eqb_neq in Hd. rewrite Hd, Ha. repeat split. lia.
Qed.

(** X10. Both constructors refuse, with [invalid smtp server address] and
    without consulting [net.SplitHostPort] or the TLS configuration,
    an address that has no colon, that starts with a colon, or whose
    first colon is its last character. *)
Theorem NewXMailer_rejects_address
    (SplitHostPort : string -> error + (string * string))
    (addr username passwd : string) (tlsConfig : option TLSConfig) :
  no_colon addr = true
  \/ (exists b, addr = ":" ++ b)
  \/ (exists a, no_colon a = true /\ addr = a ++ ":") ->
  NewXMailer SplitHostPort addr username passwd
  = inl "invalid smtp server address"
  /\ NewXMailerWithStartTLS SplitHostPort addr username passwd tlsConfig
     = inl "invalid smtp server address".
Proof.
  intros H. unfold NewXMailer, NewXMailerWithStartTLS. cbv zeta.
  assert (Hpos : Index_byte addr ":" = (-1)%Z \/ Index_byte addr ":" = 0%Z
                 \/ Index_byte addr ":" = (len addr - 1)%Z).
  { destruct H as [H | [(b & ->) | (a & Ha & ->)]].
    - left. now apply Index_byte_absent.
    - right. left. reflexivity.
    - right. right. rewrite (Index_byte_first a "" Ha).
      unfold len. rewrite length_append. cbn [String.length]. lia. }
  destruct Hpos as [-> | [-> | ->]].
  - now split.
  - now split.
  - rewrite Z.eqb_refl, !orb_true_r. now split.
Qed.

(** X11. When [NewXMailer] succeeds, the address has a non-empty part
    before its first colon and a non-empty part after it,
    [net.SplitHostPort] accepted it, and the session returned keeps
    the address as given, has the host of [net.SplitHostPort] both as
    [Host] and as the host of its plain authentication, with an empty
    identity, and is neither connected nor marked as dialed. *)
Theorem NewXMailer_accepts
    (SplitHostPort : string -> error + (string * string))
    (addr username passwd : string) (x : XMailer) :
  NewXMailer SplitHostPort addr username passwd = inr x ->
  (exists a b, addr = a ++ ":" ++ b
               /\ no_colon a = true /\ a <> "" /\ b <> "")
  /\ exists host port,
       SplitHostPort addr = inr (host, port)
       /\ x = mkXMailer addr host (mkPlainAuth "" username passwd host)
                        None false None.
Proof.
  unfold NewXMailer. cbv zeta.
  destruct (Z.eqb_spec (Index_byte addr ":") (-1)) as [|H1]; [discriminate|].
  destruct (Z.eqb_spec (Index_byte addr ":") 0) as [|H0]; [discriminate|].
  destruct (Z.eqb_spec (Index_byte addr ":") (len addr - 1)) as [|Hl];
    [discriminate|].
  cbn [orb].
  destruct (SplitHostPort addr) as [e | [host port]]; [discriminate|].
  intros [= <-]. split; [|now exists host, port].
  pose proof (Index_byte_range addr ":") as Hr.
  destruct (Index_byte_split addr _ eq_refl) as (a & b & Hab & Ha & Hlen);
    [lia|].
  exists a, b. split; [exact Hab|]. split; [exact Ha|]. split.
  - intros ->. cbn in Hlen. lia.
  - intros ->. apply Hl. rewrite Hab, (Index_byte_first a "" Ha). unfold len.
    rewrite length_append. cbn [String.length]. lia.
Qed.

(** X12. [NewXMailerWithStartTLS] fails whenever [NewXMailer] fails on the
    same arguments, with the same error; otherwise it refuses a nil
    TLS configuration, and with a configuration it returns the session
    of [NewXMailer] with that configuration stored. *)
Theorem NewXMailerWithStartTLS_as_NewXMailer
    (SplitHostPort : string -> error + (string * string))
    (addr username passwd : string) (tlsConfig : option TLSConfig) :
  NewXMailerWithStartTLS SplitHostPort addr username passwd tlsConfig
  = match NewXMailer SplitHostPort addr username passwd, tlsConfig with
    | inl e, _ => inl e
    | inr _, None => inl "Must specify the TLS config"
    | inr x, Some t =>
        inr (mkXMailer (Addr x) (Host x) (auth x) (client x) (dialed x)
                       (Some t))
    end.
Proof.
  unfold NewXMailerWithStartTLS, NewXMailer. cbv zeta.
  destruct (_ || _ || _); [reflexivity|].
  destruct (SplitHostPort addr) as [e | [host port]]; [reflexivity|].
  destruct tlsConfig; reflexivity.
Qed.

(** ** The dial functions *)

Ltac run_calls := run_monad; rewrite <- ?app_assoc; cbn [app].

(** X13. When [Dial] succeeds, the calls made are, in this order:
    [smtp.Dial] on the address, [Hello] with [localhost], [StartTLS]
    if and only if the server announces STARTTLS, with the stored
    configuration or, when there is none, one that names the host,
    and [Auth] with the stored credentials if and only if the server
    announces AUTH.  The session then holds the new client and is
    marked as dialed; nothing else has changed. *)
Theorem Dial_success_calls (w : World) (st st' : State) :
  Dial w st = (Ok tt, st') ->
  let x := mailer st in
  let h1 := (trace st ++ [EvSmtpDial (Addr x); EvHello LocalName])%list in
  let cfg := match tlsConfig x with
             | Some t => t
             | None => mkTLSConfig (Host x)
             end in
  let tls := if extension_reply w h1 "STARTTLS"
             then [EvStartTLS (Some cfg)] else [] in
  let au := if extension_reply w (h1 ++ tls)%list "AUTH"
            then [EvAuth (auth x)] else [] in
  exists c,
    connect_reply w (trace st) (EvSmtpDial (Addr x)) = inr c
    /\ st' = set_mailer
               (mkXMailer (Addr x) (Host x) (auth x) (Some c) true (tlsConfig x))
               (set_trace (h1 ++ tls ++ au)%list st).
Proof.
  destruct st as [b [a h au c d t] m hp ck tr].
  cbn [mailer trace Addr Host auth tlsConfig]. cbv zeta.
  destruct (extension_reply w (tr ++ [EvSmtpDial a; EvHello LocalName])
              "STARTTLS") eqn:Htls;
    cbn [app]; rewrite <- ?app_assoc; cbn [app];
    destruct (extension_reply w _ "AUTH") eqn:Hau.
  all: run_calls.
  all: destruct (connect_reply w tr (EvSmtpDial a)) as [e | co];
    [discriminate|]; run_calls.
  all: destruct (cmd_reply w _ (EvHello LocalName)); [discriminate|];
    run_calls.
  all: rewrite Htls; run_calls.
  all: try (destruct (cmd_reply w _ (EvStartTLS _)); [discriminate|];
            run_calls).
  all: rewrite Hau; run_calls.
  all: try (destruct (cmd_reply w _ (EvAuth _)); [discriminate|]; run_calls).
  all: intros [= <-]; exists co; split; reflexivity.
Qed.

(** X14. [Dial] is [DialWithStartTLS] applied to the stored TLS
    configuration, or to a configuration naming the host when none is
    stored: same calls, same result, same state. *)
Theorem DialWithStartTLS_default_is_Dial (w : World) (st : State) :
  DialWithStartTLS w
    (Some match tlsConfig (mailer st) with
          | Some t => t
          | None => mkTLSConfig (Host (mailer st))
          end) st
  = Dial w st.
Proof.
  destruct st as [b [a h au c d t] m hp ck tr].
  run_monad. split_replies; reflexivity.
Qed.

(** X15. When [DialWithTLS] succeeds, the calls made are, in this order:
    [tls.Dial] on the address with the configuration given by the
    caller, [smtp.NewClient], [Hello] with [localhost], and [Auth] if
    and only if the server announces AUTH.  [StartTLS] is never
    called, and the configuration stored in the session plays no
    part. *)
Theorem DialWithTLS_success_calls (w : World) (t : option TLSConfig)
    (st st' : State) :
  DialWithTLS w t st = (Ok tt, st') ->
  let x := mailer st in
  let h1 := (trace st ++ [EvTlsDial (Addr x) t; EvNewClient (Addr x);
                          EvHello LocalName])%list in
  let au := if extension_reply w h1 "AUTH" then [EvAuth (auth x)] else [] in
  exists c,
    connect_reply w (trace st ++ [EvTlsDial (Addr x) t])%list
                  (EvNewClient (Addr x)) = inr c
    /\ st' = set_mailer
               (mkXMailer (Addr x) (Host x) (auth x) (Some c) true (tlsConfig x))
               (set_trace (h1 ++ au)%list st).
Proof.
  destruct st as [b [a h au c d tc] m hp ck tr].
  cbn [mailer trace Addr Host auth tlsConfig]. cbv zeta.
  destruct (extension_reply w _ "AUTH") eqn:Hau.
  all: run_calls.
  all: destruct (cmd_reply w tr (EvTlsDial a t)); [discriminate|]; run_calls.
  all: destruct (connect_reply w _ (EvNewClient a)) as [e | co];
    [discriminate|]; run_calls.
  all: destruct (cmd_reply w _ (EvHello LocalName)); [discriminate|];
    run_calls.
  all: rewrite Hau; run_calls.
  all: try (destruct (cmd_reply w _ (EvAuth _)); [discriminate|]; run_calls).
  all: intros [= <-]; exists co; split; reflexivity.
Qed.

Lemma dial_result_Dial w st : dial_result st (Dial w st).
Proof.
  destruct st as [b [a h au c d tc] m hp ck tr].
  unfold dial_result.
  run_monad; split_replies; cbn [fst snd mailer dialed client Addr Host
    auth tlsConfig].
  all: repeat split; discriminate.
Qed.

Lemma dial_result_DialWithTLS w t st : dial_result st (DialWithTLS w t st).
Proof.
  destruct st as [b [a h au c d tc] m hp ck tr].
  unfold dial_result.
  run_monad; split_replies; cbn [fst snd mailer dialed client Addr Host
    auth tlsConfig].
  all: repeat split; discriminate.
Qed.

Lemma dial_result_DialWithStartTLS w t st :
  dial_result st (DialWithStartTLS w t st).
Proof.
  destruct st as [b [a h au c d tc] m hp ck tr].
  unfold dial_result.
  run_monad; split_replies; cbn [fst snd mailer dialed client Addr Host
    auth tlsConfig].
  all: repeat split; discriminate.
Qed.

(** X16. None of the three dial functions panics; each marks the session as
    dialed and leaves a client in place when it succeeds, leaves the
    mark as it was when it fails, and never changes address, host,
    credentials or stored TLS configuration. *)
Theorem dial_marks_session_on_success_only (w : World)
    (t : option TLSConfig) (st : State) :
  dial_result st (Dial w st)
  /\ dial_result st (DialWithTLS w t st)
  /\ dial_result st (DialWithStartTLS w t st).
Proof.
  split; [apply dial_result_Dial|].
  split; [apply dial_result_DialWithTLS | apply dial_result_DialWithStartTLS].
Qed.

(** ** Calls made on a session *)

Lemma calls_only_refl P st : calls_only P st st.
Proof. exists []. now rewrite app_nil_r. Qed.

Lemma calls_only_trans P a b c :
  calls_only P a b -> calls_only P b c -> calls_only P a c.
Proof.
  intros (d1 & H1 & P1 & M1) (d2 & H2 & P2 & M2). exists (d1 ++ d2)%list.
  rewrite H2, H1, app_assoc, forallb_app, P1, P2. now rewrite M2, M1.
Qed.

Lemma respects_calls_command P w e :
  P e = true -> respects (calls_only P) (command w e).
Proof.
  intros He st. unfold command, bind, get, emit, modify, of_error.
  exists [e]. destruct (cmd_reply w (trace st) e); cbn; now rewrite He.
Qed.

Lemma respects_calls_on_client P {A} site (k : Client -> M A) :
  (forall c, respects (calls_only P) (k c)) ->
  respects (calls_only P) (on_client site k).
Proof.
  intros Hk st. unfold on_client, bind, get.
  destruct (client (mailer st)) as [c|]; [apply Hk | apply calls_only_refl].
Qed.

Lemma respects_calls_validated P {A} line (c : M A) :
  respects (calls_only P) c -> respects (calls_only P) (validateLine line;;; c).
Proof.
  intros Hc st. unfold validateLine, bind.
  destruct (has_newline line); [apply calls_only_refl | apply Hc].
Qed.

Lemma respects_calls_rcptLoop P w tos :
  (forall t, P (EvRcpt t) = true) ->
  respects (calls_only P) (rcptLoop w tos).
Proof.
  intros HP. induction tos as [|t rest IH]; cbn [rcptLoop].
  - intros st. apply calls_only_refl.
  - apply respects_bind; [apply calls_only_trans | | intros _; exact IH].
    unfold client_Rcpt. apply respects_calls_validated.
    apply respects_calls_on_client. intros _.
    now apply respects_calls_command.
Qed.

Lemma respects_calls_payload P w m :
  (forall e, is_file_event e = true -> P e = true) ->
  respects (calls_only P) (payload w m).
Proof.
  intros HP st. destruct (payload w m st) as [r st'] eqn:Hp.
  destruct (payload_effect _ _ _ _ _ Hp) as [(fe & h' & -> & Hfe) _].
  exists fe. cbn. repeat split.
  rewrite forallb_forall in *. intros e He. apply HP, Hfe, He.
Qed.

Lemma transaction_calls w m :
  respects (calls_only is_send_event)
    (client_Mail w (FromAddr m);;;
     rcptLoop w (To m);;;
     client_Data w;;;
     deferring (discard (writer_Close w))
       (payload <- payload w m;;
        discard (writer_Write w payload);;;
        ret tt)).
Proof.
  pose proof (calls_only_trans is_send_event) as Ht.
  apply respects_bind; [exact Ht | | intros _].
  { unfold client_Mail. apply respects_calls_validated.
    apply respects_calls_on_client. intros _.
    now apply respects_calls_command. }
  apply respects_bind; [exact Ht | | intros _].
  { now apply respects_calls_rcptLoop. }
  apply respects_bind; [exact Ht | | intros _].
  { unfold client_Data. apply respects_calls_on_client. intros _.
    now apply respects_calls_command. }
  apply respects_deferring; [exact Ht | |].
  { apply respects_discard. now apply respects_calls_command. }
  apply respects_bind; [exact Ht | | intros p].
  { apply respects_calls_payload. intros e He. unfold is_send_event.
    rewrite He. now rewrite orb_true_r. }
  apply respects_bind; [exact Ht | | intros _].
  { apply respects_discard. now apply respects_calls_command. }
  intros st. apply calls_only_refl.
Qed.

(** [Send] on a session that is marked as dialed. *)
Lemma Send_dialed w st :
  dialed (mailer st) = true ->
  Send w st
  = if String.eqb (FromAddr (message st)) "" then
      (Err "Must specify the From address", st)
    else if Nat.eqb (List.length (To (message st))) 0 then
      (Err "Must specify at least one To address", st)
    else
      let m := defaulted (message st) in
      (client_Mail w (FromAddr m);;;
       rcptLoop w (To m);;;
       client_Data w;;;
       deferring (discard (writer_Close w))
         (payload <- payload w m;;
          discard (writer_Write w payload);;;
          ret tt)) (set_message m st).
Proof.
  intros Hd. apply Send_after_dial. now rewrite Hd.
Qed.

Lemma Send_dialed_calls w st :
  dialed (mailer st) = true -> calls_only is_send_event st (snd (Send w st)).
Proof.
  intros Hd. rewrite (Send_dialed _ _ Hd).
  destruct (String.eqb (FromAddr (message st)) "");
    [apply calls_only_refl|].
  destruct (Nat.eqb (List.length (To (message st))) 0);
    [apply calls_only_refl|].
  cbv zeta.
  eapply calls_only_trans; [|apply transaction_calls].
  exists []. cbn. now rewrite app_nil_r.
Qed.

(** X17. On a session marked as dialed, [Send] leaves the session object as
    it is and makes no call other than those of the transaction, of
    the file system and of the data phase: it does not connect, greet,
    negotiate TLS or authenticate, and it never quits. *)
Theorem Send_on_dialed_session (w : World) (st : State) :
  dialed (mailer st) = true ->
  exists d,
    trace (snd (Send w st)) = (trace st ++ d)%list
    /\ forallb is_send_event d = true
    /\ filter is_connect_event d = []
    /\ filter is_quit_event d = []
    /\ mailer (snd (Send w st)) = mailer st.
Proof.
  intros Hd. destruct (Send_dialed_calls w st Hd) as (d & Ht & Hs & Hm).
  exists d. repeat split; try assumption.
  - clear Ht. induction d as [|e d IH]; [reflexivity|].
    cbn [forallb] in Hs. apply andb_true_iff in Hs. destruct Hs as [He Hs].
    cbn [filter]. rewrite (IH Hs). now destruct e.
  - clear Ht. induction d as [|e d IH]; [reflexivity|].
    cbn [forallb] in Hs. apply andb_true_iff in Hs. destruct Hs as [He Hs].
    cbn [filter]. rewrite (IH Hs). now destruct e.
Qed.

Lemma Quit_connected w st c :
  client (mailer st) = Some c ->
  Quit w st = (Ok tt, set_trace (trace st ++ [EvQuit]) st).
Proof.
  intros Hc. unfold Quit, discard, client_Quit, on_client, command, bind, get,
    emit, modify, of_error, ret, raise.
  rewrite Hc. now destruct (cmd_reply w (trace st) EvQuit).
Qed.

(** X18. [Quit] on a connected session makes one call, drops its error and
    leaves the session marked as dialed.  A [Send] that follows does
    not dial again: for a message with sender and recipient it goes
    on to call [Mail] on the client that was told to quit.  A sender
    address that holds a CR or LF is refused there by the line check,
    with no call on the connection; any other sender is declared to
    the server. *)
Theorem Send_after_Quit_reuses_session (w : World) (st : State) (c : Client) :
  dialed (mailer st) = true -> client (mailer st) = Some c ->
  Quit w st = (Ok tt, set_trace (trace st ++ [EvQuit]) st)
  /\ exists d,
       trace (snd (Send w (snd (Quit w st)))) = (trace st ++ EvQuit :: d)%list
       /\ forallb is_send_event d = true
       /\ mailer (snd (Send w (snd (Quit w st)))) = mailer st
       /\ (FromAddr (message st) <> "" -> To (message st) <> [] ->
           if has_newline (FromAddr (message st))
           then d = []
                /\ fst (Send w (snd (Quit w st)))
                   = Err "smtp: A line must not contain CR or LF"
           else exists d', d = EvMail (FromAddr (message st)) :: d').
Proof.
  intros Hd Hc. rewrite (Quit_connected _ _ _ Hc). split; [reflexivity|].
  cbn [snd]. set (sq := set_trace (trace st ++ [EvQuit]) st).
  assert (Hdq : dialed (mailer sq) = true) by exact Hd.
  destruct (Send_dialed_calls w sq Hdq) as (d & Ht & Hs & Hm).
  exists d. cbn [trace set_trace sq] in Ht. rewrite <- app_assoc in Ht.
  split; [exact Ht|]. split; [exact Hs|]. split; [exact Hm|].
  intros Hfrom Hto.
  revert Ht. rewrite (Send_dialed _ _ Hdq).
  change (message sq) with (message st).
  apply String.eqb_neq in Hfrom. rewrite Hfrom.
  assert (Hlen : Nat.eqb (List.length (To (message st))) 0 = false)
    by (destruct (To (message st)); [congruence | reflexivity]).
  rewrite Hlen. cbv zeta.
  assert (Hfd : FromAddr (defaulted (message st)) = FromAddr (message st))
    by (unfold defaulted; now destruct (String.eqb (Subject (message st)) "")).
  rewrite Hfd.
  destruct (has_newline (FromAddr (message st))) eqn:Hnl.
  { unfold bind at 1. unfold client_Mail, validateLine, bind, raise.
    rewrite Hnl. cbn [fst snd trace set_trace set_message sq].
    rewrite <- (app_nil_r (trace st ++ [EvQuit])) at 1.
    rewrite <- !app_assoc. intros H. apply app_inv_head in H.
    cbn in H. inversion H. now split. }
  unfold bind at 1.
  rewrite (client_Mail_connected w _ _ c); [| exact Hc | exact Hnl].
  cbn [trace set_trace set_message sq].
  set (sm := set_trace _ _).
  destruct (cmd_reply w _ (EvMail _)).
  - cbn [snd]. unfold sm. cbn [trace set_trace set_message].
    rewrite <- app_assoc. intros H. apply app_inv_head in H.
    exists []. cbn in H. now inversion H.
  - pose proof (framed_grows _ sm (framed_after_Mail w (defaulted (message st))))
      as (d2 & Hd2).
    rewrite Hd2. unfold sm. cbn [trace set_trace set_message].
    rewrite <- !app_assoc. intros H. apply app_inv_head in H.
    exists d2. cbn in H. now inversion H.
Qed.

Lemma rcpts_accepted_app w pre : forall h rest,
  rcpts_accepted w h (pre ++ rest)
  = rcpts_accepted w h pre
    && rcpts_accepted w (h ++ map EvRcpt pre) rest.
Proof.
  induction pre as [|t pre IH]; intros h rest.
  - cbn. now rewrite app_nil_r.
  - cbn [app rcpts_accepted map].
    destruct (has_newline t); [reflexivity|]. cbn [negb andb].
    destruct (cmd_reply w h (EvRcpt t)); [reflexivity|].
    rewrite IH, <- app_assoc. reflexivity.
Qed.

(** The loop over the recipients ends at the first one that is
    refused. *)
Lemma rcptLoop_refused w pre t post : forall st c e,
  client (mailer st) = Some c ->
  rcpts_accepted w (trace st) pre = true ->
  has_newline t = false ->
  cmd_reply w (trace st ++ map EvRcpt pre) (EvRcpt t) = Some e ->
  rcptLoop w (pre ++ t :: post) st
  = (Err e, set_trace (trace st ++ map EvRcpt pre ++ [EvRcpt t]) st).
Proof.
  induction pre as [|u pre IH]; intros st c e Hc Hacc Hnl Hrej.
  - cbn [app map rcptLoop] in *. rewrite app_nil_r in Hrej.
    unfold bind at 1.
    unfold client_Rcpt, validateLine, on_client, command, bind, get,
      emit, modify, of_error, ret, raise, panic.
    rewrite Hnl, Hc, Hrej. reflexivity.
  - cbn [rcpts_accepted] in Hacc. apply andb_true_iff in Hacc.
    destruct Hacc as [Hnu Hacc]. apply negb_true_iff in Hnu.
    destruct (cmd_reply w (trace st) (EvRcpt u)) eqn:Hu; [discriminate|].
    cbn [app rcptLoop]. unfold bind at 1.
    unfold client_Rcpt, validateLine, on_client, command, bind at 1 2 3 4, get,
      emit, modify, of_error, ret, raise, panic.
    rewrite Hnu, Hc, Hu.
    rewrite (IH _ c e); cbn [trace set_trace mailer map];
      rewrite <- ?app_assoc; try assumption; reflexivity.
Qed.

(** X19. On a dialed session, when the server accepts the sender and the
    recipients before [t] and refuses [t], [Send] returns that
    refusal at once: no later recipient is declared, the data phase
    is not entered, and the transaction is left as it stands.  The
    message keeps the defaulted subject. *)
Theorem Send_stops_at_refused_recipient (w : World) (st : State) (c : Client)
    (pre post : list string) (t : string) (e : error) :
  dialed (mailer st) = true -> client (mailer st) = Some c ->
  FromAddr (message st) <> "" ->
  has_newline (FromAddr (message st)) = false ->
  To (message st) = (pre ++ t :: post)%list ->
  let from := FromAddr (message st) in
  cmd_reply w (trace st) (EvMail from) = None ->
  rcpts_accepted w (trace st ++ [EvMail from]) pre = true ->
  has_newline t = false ->
  cmd_reply w (trace st ++ [EvMail from] ++ map EvRcpt pre) (EvRcpt t)
    = Some e ->
  Send w st
  = (Err e,
     set_trace (trace st ++ [EvMail from] ++ map EvRcpt pre ++ [EvRcpt t])
       (set_message (defaulted (message st)) st)).
Proof.
  intros Hd Hc Hfrom Hnl Hto from Hmail Hacc Hnt Hrej.
  rewrite (Send_dialed _ _ Hd).
  apply String.eqb_neq in Hfrom. rewrite Hfrom.
  assert (Hlen : Nat.eqb (List.length (To (message st))) 0 = false)
    by (rewrite Hto; now destruct pre).
  rewrite Hlen. cbv zeta.
  assert (Hfd : FromAddr (defaulted (message st)) = from)
    by (unfold defaulted; now destruct (String.eqb (Subject (message st)) "")).
  assert (Htd : To (defaulted (message st)) = (pre ++ t :: post)%list)
    by (unfold defaulted; now destruct (String.eqb (Subject (message st)) "")).
  rewrite Hfd, Htd. unfold bind at 1.
  rewrite (client_Mail_connected w _ _ c); [| exact Hc | exact Hnl].
  cbn [trace set_message]. fold from. rewrite Hmail.
  unfold bind at 1.
  rewrite (rcptLoop_refused w pre t post _ c e); cbn [trace set_trace mailer];
    rewrite <- ?app_assoc; try assumption; reflexivity.
Qed.

(** X20. On a dialed session, once the transaction commands are accepted
    and the envelope is built, [Send] reports success whatever
    [Write] and [Close] answer: the envelope is written and the
    writer closed, and the errors of both calls are dropped. *)
Theorem Send_reports_success_whatever_the_data_phase_answers
    (w : World) (st : State) (c : Client) (p : list byte) (st2 : State) :
  dialed (mailer st) = true -> client (mailer st) = Some c ->
  FromAddr (message st) <> "" -> To (message st) <> [] ->
  let m := defaulted (message st) in
  transaction_accepted w (trace st) m = true ->
  payload w m (set_trace (trace st ++ opening m) (set_message m st))
    = (Ok p, st2) ->
  Send w st = (Ok tt, set_trace (trace st2 ++ [EvWrite p; EvClose]) st2).
Proof.
  intros Hd Hc Hfrom Hto m Hacc Hp.
  rewrite (Send_dialed _ _ Hd).
  apply String.eqb_neq in Hfrom. rewrite Hfrom.
  assert (Hlen : Nat.eqb (List.length (To (message st))) 0 = false)
    by (destruct (To (message st)); [congruence | reflexivity]).
  rewrite Hlen. cbv zeta. fold m.
  rewrite seq_split. unfold bind at 1.
  rewrite (opening_accepted w m (set_message m st) c); [| exact Hc | exact Hacc].
  rewrite data_phase.
  change (set_trace (trace (set_message m st) ++ opening m) (set_message m st))
    with (set_trace (trace st ++ opening m) (set_message m st)).
  now rewrite Hp.
Qed.

Lemma same_message_transaction w m :
  respects same_message
    (client_Mail w (FromAddr m);;;
     rcptLoop w (To m);;;
     client_Data w;;;
     deferring (discard (writer_Close w))
       (payload <- payload w m;;
        discard (writer_Write w payload);;;
        ret tt)).
Proof.
  assert (Hr : forall st, same_message st st) by reflexivity.
  assert (Ht : forall a b c : State,
             same_message a b -> same_message b c -> same_message a c)
    by (unfold same_message; congruence).
  assert (He : forall st e, same_message st (set_trace (trace st ++ [e]) st))
    by reflexivity.
  apply respects_bind; [exact Ht | | intros _].
  - intros st. unfold client_Mail, validateLine, on_client, command, bind, get,
      emit, modify, of_error, ret, raise, panic.
    destruct (has_newline (FromAddr m)); [reflexivity|].
    destruct (client (mailer st)); [|reflexivity].
    now destruct (cmd_reply w (trace st) (EvMail (FromAddr m))).
  - apply respects_after_Mail; try assumption; reflexivity.
Qed.

(** X21. Whatever [Send] returns, the message afterwards is the message
    before, except that an empty subject has been replaced by the
    placeholder when a sender and at least one recipient are given;
    a message that fails these two checks is not changed at all. *)
Theorem Send_changes_only_an_empty_subject (w : World) (st : State) :
  message (snd (Send w st))
  = if String.eqb (FromAddr (message st)) ""
       || Nat.eqb (List.length (To (message st))) 0
    then message st
    else defaulted (message st).
Proof.
  destruct ((if negb (dialed (mailer st)) then discard (Dial w) else ret tt) st)
    as [r sd] eqn:Hd.
  destruct (autodial_effect _ _ _ _ Hd) as [-> Hstep].
  rewrite (Send_after_dial _ _ _ Hd).
  pose proof (connect_step_message _ _ Hstep) as Hm. rewrite Hm.
  destruct (String.eqb (FromAddr (message st)) ""); [exact Hm|].
  destruct (Nat.eqb (List.length (To (message st))) 0); [exact Hm|].
  cbn [orb]. cbv zeta.
  exact (same_message_transaction w (defaulted (message st))
           (set_message (defaulted (message st)) sd)).
Qed.

(** X22. A session as either constructor returns it has no client: [Quit]
    and [Auth] on it panic on the nil client without any call made,
    and it is not marked as dialed. *)
Theorem new_session_panics_without_dial
    (SplitHostPort : string -> error + (string * string))
    (addr username passwd : string) (tlsConfig : option TLSConfig)
    (x : XMailer) (w : World) (st : State) :
  NewXMailer SplitHostPort addr username passwd = inr x
  \/ NewXMailerWithStartTLS SplitHostPort addr username passwd tlsConfig
     = inr x ->
  Quit w (set_mailer x st) = (Panic "Quit", set_mailer x st)
  /\ Auth w (set_mailer x st) = (Panic "Extension", set_mailer x st)
  /\ dialed x = false.
Proof.
  intros H.
  assert (Hx : client x = None /\ dialed x = false).
  { destruct H as [H | H]; revert H;
      unfold NewXMailer, NewXMailerWithStartTLS; cbv zeta;
      destruct (_ || _ || _); try discriminate;
      destruct (SplitHostPort addr) as [e | [host port]]; try discriminate.
    - intros [= <-]. now split.
    - destruct tlsConfig; [|discriminate]. intros [= <-]. now split. }
  destruct Hx as [Hc Hd].
  unfold Quit, Auth, discard, client_Quit, client_Extension, on_client, bind,
    get, panic.
  cbn [mailer set_mailer]. rewrite Hc. now repeat split.
Qed.

(** ** Message ids *)

Lemma append_cancel_r (a b x : string) : a ++ x = b ++ x -> a = b.
Proof.
  revert b. induction a as [|c a IH]; intros [|d b] H.
  - reflexivity.
  - apply (f_equal String.length) in H. cbn in H.
    rewrite length_append in H. lia.
  - apply (f_equal String.length) in H. cbn in H.
    rewrite length_append in H. lia.
  - cbn in H. injection H as -> H. now rewrite (IH _ H).
Qed.

Lemma append_cancel_l (a x y : string) : a ++ x = a ++ y -> x = y.
Proof. induction a as [|c a IH]; cbn; [auto|]. intros [= H]. auto. Qed.

Lemma to_int_nonnil (z : Z) :
  Z.to_int z <> Decimal.Pos Decimal.Nil /\ Z.to_int z <> Decimal.Neg Decimal.Nil.
Proof.
  destruct z; cbn; split; try discriminate; intros [= H];
    now apply (DecimalPos.Unsigned.to_uint_nonnil p).
Qed.

Lemma itoa_inj (a b : Z) : itoa a = itoa b -> a = b.
Proof.
  unfold itoa. intros H.
  assert (Hi : Z.to_int a = Z.to_int b).
  { destruct (to_int_nonnil a) as [Ha1 Ha2], (to_int_nonnil b) as [Hb1 Hb2].
    pose proof (NilZero.isi (Z.to_int a) Ha1 Ha2) as Ha.
    pose proof (NilZero.isi (Z.to_int b) Hb1 Hb2) as Hb.
    rewrite H in Ha. congruence. }
  rewrite <- (DecimalZ.of_to a), <- (DecimalZ.of_to b). now rewrite Hi.
Qed.

(** X23. Within one process, two message ids are the same exactly when the
    clock readings they were made from are the same: process id and
    host name are fixed, and the decimal rendering of the time loses
    nothing. *)
Theorem generateMessageID_follows_the_clock (w : World) (st1 st2 : State) :
  fst (generateMessageID w st1) = fst (generateMessageID w st2)
  <-> unixNano w (clock st1) = unixNano w (clock st2).
Proof.
  unfold generateMessageID, time_Now, bind, get, modify, ret. cbn [fst].
  split.
  - intros [= H]. apply append_cancel_l in H.
    cbn [append] in H. injection H as H.
    apply append_cancel_r in H.
    now apply itoa_inj.
  - intros ->. reflexivity.
Qed.

(** ** Dialing again *)

Lemma Dial_first_call w st :
  exists rest,
    trace (snd (Dial w st))
    = (trace st ++ EvSmtpDial (Addr (mailer st)) :: rest)%list.
Proof.
  destruct st as [b [a h au c d tc] m hp ck tr].
  run_monad. split_replies; cbn [snd trace]; rewrite <- ?app_assoc;
    cbn [app]; eexists; reflexivity.
Qed.

Lemma Send_undialed_first_call w st :
  dialed (mailer st) = false ->
  exists rest,
    trace (snd (Send w st))
    = (trace st ++ EvSmtpDial (Addr (mailer st)) :: rest)%list.
Proof.
  intros Hd.
  destruct (Dial_first_call w st) as (r1 & H1).
  pose proof (framed_grows (Send w) st (framed_Send w)) as (d & Hg).
  destruct ((if negb (dialed (mailer st)) then discard (Dial w) else ret tt) st)
    as [r sd] eqn:Ha.
  destruct (autodial_effect _ _ _ _ Ha) as [-> Hstep].
  assert (Hsd : sd = snd (Dial w st)).
  { revert Ha. rewrite Hd. cbn [negb]. unfold discard.
    destruct (Dial w st) as [[[] | e | s] s1]; cbn [snd]; congruence. }
  assert (Hrest : exists d2, trace (snd (Send w st)) = (trace sd ++ d2)%list).
  { rewrite (Send_after_dial _ _ _ Ha).
    destruct (String.eqb (FromAddr (message sd)) "");
      [exists []; cbn; now rewrite app_nil_r|].
    destruct (Nat.eqb (List.length (To (message sd))) 0);
      [exists []; cbn; now rewrite app_nil_r|].
    cbv zeta.
    destruct (transaction_calls w (defaulted (message sd))
                (set_message (defaulted (message sd)) sd)) as (d2 & H2 & _).
    exists d2. exact H2. }
  destruct Hrest as (d2 & H2). rewrite H2, Hsd, H1.
  rewrite <- app_assoc. cbn [app]. eexists; reflexivity.
Qed.

(** X24. A dial function that fails on a session not marked as dialed
    leaves it so, and a [Send] that follows starts with [smtp.Dial]
    on the address of the session, whichever dial function had been
    tried and whatever TLS configuration it had been given. *)
Theorem Send_after_failed_dial_calls_smtp_Dial (w : World)
    (t : option TLSConfig) (st : State) :
  dialed (mailer st) = false ->
  (fst (DialWithTLS w t st) <> Ok tt ->
   exists rest,
     trace (snd (Send w (snd (DialWithTLS w t st))))
     = (trace (snd (DialWithTLS w t st))
        ++ EvSmtpDial (Addr (mailer st)) :: rest)%list)
  /\ (fst (DialWithStartTLS w t st) <> Ok tt ->
      exists rest,
        trace (snd (Send w (snd (DialWithStartTLS w t st))))
        = (trace (snd (DialWithStartTLS w t st))
           ++ EvSmtpDial (Addr (mailer st)) :: rest)%list)
  /\ (fst (Dial w st) <> Ok tt ->
      exists rest,
        trace (snd (Send w (snd (Dial w st))))
        = (trace (snd (Dial w st))
           ++ EvSmtpDial (Addr (mailer st)) :: rest)%list).
Proof.
  intros Hd.
  pose proof (dial_result_DialWithTLS w t st) as H1.
  pose proof (dial_result_DialWithStartTLS w t st) as H2.
  pose proof (dial_result_Dial w st) as H3.
  unfold dial_result in *.
  split; [|split].
  - destruct H1 as (Hm & Ha & _). intros Hf. rewrite <- Ha.
    apply Send_undialed_first_call.
    destruct (fst (DialWithTLS w t st)) as [[] | e | s];
      [congruence | congruence | contradiction].
  - destruct H2 as (Hm & Ha & _). intros Hf. rewrite <- Ha.
    apply Send_undialed_first_call.
    destruct (fst (DialWithStartTLS w t st)) as [[] | e | s];
      [congruence | congruence | contradiction].
  - destruct H3 as (Hm & Ha & _). intros Hf. rewrite <- Ha.
    apply Send_undialed_first_call.
    destruct (fst (Dial w st)) as [[] | e | s];
      [congruence | congruence | contradiction].
Qed.

(** ** The further properties on the samples *)

Lemma readFile_returns_stat_size_witness :
  readFile world_auth_files "/srv/f.txt" st_files
  = (Ok ["A"%byte; "B"%byte],
     snd (readFile world_auth_files "/srv/f.txt" st_files))
  /\ exists finfo,
       stat_reply world_auth_files (trace st_files) "/srv/f.txt" = inr finfo
       /\ List.length ["A"%byte; "B"%byte] = Size finfo
       /\ ["A"%byte; "B"%byte]
          = firstn (Size finfo)
              (fst (read_reply world_auth_files
                      (trace st_files ++ [EvStat "/srv/f.txt";
                                          EvOpenFile "/srv/f.txt"])
                      "/srv/f.txt")
               ++ repeat x00 (Size finfo))
       /\ snd (readFile world_auth_files "/srv/f.txt" st_files)
          = set_trace (trace st_files ++ [EvStat "/srv/f.txt";
                                          EvOpenFile "/srv/f.txt";
                                          EvRead "/srv/f.txt" (Size finfo)])
              st_files.
Proof.
  assert (H : readFile world_auth_files "/srv/f.txt" st_files
              = (Ok ["A"%byte; "B"%byte],
                 snd (readFile world_auth_files "/srv/f.txt" st_files)))
    by (vm_compute; reflexivity).
  split; [exact H|].
  exact (readFile_returns_stat_size world_auth_files "/srv/f.txt" st_files
           _ _ H).
Defined.

Lemma payload_resolves_attachments_witness :
  payload world_auth_files msg_attachment st_files
  = (Ok (envelope_of (payload world_auth_files msg_attachment st_files)),
     snd (payload world_auth_files msg_attachment st_files))
  /\ Forall (present (heap (snd (payload world_auth_files msg_attachment
                                   st_files))))
            (Attachments msg_attachment)
  /\ (forall i att c,
        nth_error (heap st_files) i = Some att -> Content att = Some c ->
        nth_error (heap (snd (payload world_auth_files msg_attachment
                                st_files))) i = Some att).
Proof.
  assert (H : payload world_auth_files msg_attachment st_files
              = (Ok (envelope_of (payload world_auth_files msg_attachment
                                    st_files)),
                 snd (payload world_auth_files msg_attachment st_files)))
    by (vm_compute; reflexivity).
  split; [exact H|].
  exact (payload_resolves_attachments world_auth_files msg_attachment st_files
           _ _ H).
Defined.

Lemma payload_again_reads_nothing_witness :
  let first := payload world_auth_files msg_attachment st_files in
  first = (Ok (envelope_of first), snd first)
  /\ trace (snd first)
     = [EvStat "/srv/f.txt"; EvOpenFile "/srv/f.txt"; EvRead "/srv/f.txt" 2]
  /\ payload world_auth_files msg_attachment (snd first)
     = (Ok (list_byte_of_string
              (Envelope.render
                 (Envelope.fields msg_attachment
                    (messageID_at world_auth_files (snd first))
                    (date_at world_auth_files (snd first))
                    (boundary st_files))
               ++ Envelope.body msg_attachment (heap (snd first))
                    (boundary st_files))),
        set_clock (S (S (clock (snd first)))) (snd first))
  /\ envelope_of first
     = list_byte_of_string
         (Envelope.render
            (Envelope.fields msg_attachment
               (messageID_at world_auth_files st_files)
               (date_at world_auth_files st_files) (boundary st_files))
          ++ Envelope.body msg_attachment (heap (snd first))
               (boundary st_files)).
Proof.
  intros first.
  assert (H : first = (Ok (envelope_of first), snd first))
    by (vm_compute; reflexivity).
  split; [exact H|]. split; [vm_compute; reflexivity|].
  exact (payload_again_reads_nothing world_auth_files msg_attachment st_files
           _ _ H).
Defined.

Lemma payload_html_single_section_witness :
  Attachments msg_html = [] /\ Text msg_html = "" /\ HTML msg_html <> ""
  /\ payload world_ok msg_html st_plain
     = (Ok (list_byte_of_string
              (Envelope.render
                 (standard_fields msg_html (messageID_at world_ok st_plain)
                                  (date_at world_ok st_plain)
                  ++ [("Content-Type", "text/html; charset=UTF-8");
                      ("Content-Transfer-Encoding", "quoted-printable");
                      ("Subject", Subject msg_html)])
               ++ CRLF ++ HTML msg_html ++ CRLF)),
        set_clock (S (S (clock st_plain))) st_plain).
Proof.
  assert (Hh : HTML msg_html <> "") by discriminate.
  split; [reflexivity|]. split; [reflexivity|]. split; [exact Hh|].
  exact (payload_html_single_section world_ok msg_html st_plain
           eq_refl eq_refl Hh).
Defined.


Lemma AttachFile_failure_changes_nothing_witness :
  fst (AttachFile world_auth_files "\srv" st_files_new) <> Ok tt
  /\ snd (AttachFile world_auth_files "\srv" st_files_new)
     = set_trace (trace st_files_new ++ [EvStat (ReplaceAll_backslash "\srv")])
         st_files_new
  /\ fst (AttachFile world_auth_files "\srv" st_files_new)
     = match stat_reply world_auth_files (trace st_files_new)
               (ReplaceAll_backslash "\srv") with
       | inl e => Err e
       | inr _ => Err (ReplaceAll_backslash "\srv" ++ " is not a file")
       end.
Proof.
  assert (H : fst (AttachFile world_auth_files "\srv" st_files_new) <> Ok tt)
    by (vm_compute; discriminate).
  split; [exact H|].
  exact (AttachFile_failure_changes_nothing world_auth_files "\srv"
           st_files_new H).
Defined.

Lemma AttachFile_appends_unread_witness :
  let st' := snd (AttachFile world_auth_files "\srv\f.txt" st_files_new) in
  let att := mkAttachment "text/plain; charset=utf-8" "/srv/f.txt" "f.txt"
                          None in
  AttachFile world_auth_files "\srv\f.txt" st_files_new = (Ok tt, st')
  /\ heap st' = [att]
  /\ Attachments (message st') = [Some 0]
  /\ trace st' = [EvStat "/srv/f.txt"].
Proof.
  intros st' att.
  assert (H : AttachFile world_auth_files "\srv\f.txt" st_files_new
              = (Ok tt, st')) by (vm_compute; reflexivity).
  split; [exact H|].
  destruct (AttachFile_appends_unread world_auth_files "\srv\f.txt"
              st_files_new st' H)
    as (_ & _ & _ & Hheap & Hatts & _ & _ & Hst).
  split; [exact Hheap|]. split; [exact Hatts|].
  rewrite Hst. reflexivity.
Defined.

Lemma AttachFile_does_not_guard_payload_witness :
  let st1 := snd (AttachFile world_file_removed "f.txt" st_removed) in
  AttachFile world_file_removed "f.txt" st_removed = (Ok tt, st1)
  /\ Forall (present (heap st_removed)) (Attachments (message st_removed))
  /\ stat_reply world_file_removed (trace st1) (ReplaceAll_backslash "f.txt")
     = inl "stat: no such file or directory"
  /\ payload world_file_removed (message st1) st1
     = (Err "stat: no such file or directory",
        set_trace (trace st1 ++ [EvStat (ReplaceAll_backslash "f.txt")])
          (set_clock (S (S (clock st1))) st1)).
Proof.
  intros st1.
  assert (H : AttachFile world_file_removed "f.txt" st_removed = (Ok tt, st1))
    by (vm_compute; reflexivity).
  assert (Hs : stat_reply world_file_removed (trace st1)
                 (ReplaceAll_backslash "f.txt")
               = inl "stat: no such file or directory")
    by (vm_compute; reflexivity).
  split; [exact H|]. split; [constructor|]. split; [exact Hs|].
  exact (AttachFile_does_not_guard_payload world_file_removed "f.txt"
           st_removed st1 _ H (Forall_nil _) Hs).
Defined.

Lemma NewXMailer_rejects_address_witness :
  (no_colon "smtp.x.com" = true
   \/ (exists b, "smtp.x.com" = ":" ++ b)
   \/ (exists a, no_colon a = true /\ "smtp.x.com" = a ++ ":"))
  /\ NewXMailer split_sample "smtp.x.com" "a@x.com" "secret"
     = inl "invalid smtp server address"
  /\ NewXMailerWithStartTLS split_sample "smtp.x.com" "a@x.com" "secret"
       (Some (mkTLSConfig "smtp.x.com"))
     = inl "invalid smtp server address".
Proof.
  assert (H : no_colon "smtp.x.com" = true
              \/ (exists b, "smtp.x.com" = ":" ++ b)
              \/ (exists a, no_colon a = true /\ "smtp.x.com" = a ++ ":"))
    by (left; reflexivity).
  split; [exact H|].
  exact (NewXMailer_rejects_address split_sample "smtp.x.com" "a@x.com"
           "secret" (Some (mkTLSConfig "smtp.x.com")) H).
Defined.

Lemma NewXMailer_accepts_witness :
  NewXMailer split_sample "smtp.x.com:587" "a@x.com" "secret" = inr mailer_new
  /\ (exists a b, "smtp.x.com:587" = a ++ ":" ++ b
                  /\ no_colon a = true /\ a <> "" /\ b <> "")
  /\ exists host port,
       split_sample "smtp.x.com:587" = inr (host, port)
       /\ mailer_new
          = mkXMailer "smtp.x.com:587" host
              (mkPlainAuth "" "a@x.com" "secret" host) None false None.
Proof.
  assert (H : NewXMailer split_sample "smtp.x.com:587" "a@x.com" "secret"
              = inr mailer_new) by reflexivity.
  split; [exact H|].
  exact (NewXMailer_accepts split_sample "smtp.x.com:587" "a@x.com" "secret"
           mailer_new H).
Defined.

Lemma Dial_success_calls_witness :
  let st' := snd (Dial world_auth_files st_files_new) in
  Dial world_auth_files st_files_new = (Ok tt, st')
  /\ trace st'
     = [EvSmtpDial "smtp.x.com:587"; EvHello "localhost";
        EvAuth (mkPlainAuth "" "a@x.com" "secret" "smtp.x.com")]
  /\ dialed (mailer st') = true.
Proof.
  intros st'.
  assert (H : Dial world_auth_files st_files_new = (Ok tt, st'))
    by (vm_compute; reflexivity).
  split; [exact H|].
  destruct (Dial_success_calls world_auth_files st_files_new st' H)
    as (c & _ & Hst).
  rewrite Hst. split; reflexivity.
Defined.

Lemma DialWithTLS_success_calls_witness :
  let t := Some (mkTLSConfig "smtp.x.com") in
  let st' := snd (DialWithTLS world_auth_files t st_files_new) in
  DialWithTLS world_auth_files t st_files_new = (Ok tt, st')
  /\ trace st'
     = [EvTlsDial "smtp.x.com:587" t; EvNewClient "smtp.x.com:587";
        EvHello "localhost";
        EvAuth (mkPlainAuth "" "a@x.com" "secret" "smtp.x.com")]
  /\ dialed (mailer st') = true.
Proof.
  intros t st'.
  assert (H : DialWithTLS world_auth_files t st_files_new = (Ok tt, st'))
    by (vm_compute; reflexivity).
  split; [exact H|].
  destruct (DialWithTLS_success_calls world_auth_files t st_files_new st' H)
    as (c & _ & Hst).
  rewrite Hst. split; reflexivity.
Defined.

Lemma Send_on_dialed_session_witness :
  dialed (mailer st_plain) = true
  /\ exists d,
       trace (snd (Send world_ok st_plain)) = (trace st_plain ++ d)%list
       /\ forallb is_send_event d = true
       /\ filter is_connect_event d = []
       /\ filter is_quit_event d = []
       /\ mailer (snd (Send world_ok st_plain)) = mailer st_plain.
Proof.
  split; [reflexivity|].
  exact (Send_on_dialed_session world_ok st_plain eq_refl).
Defined.

Lemma Send_after_Quit_reuses_session_witness :
  dialed (mailer st_plain) = true
  /\ client (mailer st_plain) = Some (Conn 0)
  /\ Quit world_ok st_plain
     = (Ok tt, set_trace (trace st_plain ++ [EvQuit]) st_plain)
  /\ exists d,
       trace (snd (Send world_ok (snd (Quit world_ok st_plain))))
       = (trace st_plain ++ EvQuit :: d)%list
       /\ forallb is_send_event d = true
       /\ mailer (snd (Send world_ok (snd (Quit world_ok st_plain))))
          = mailer st_plain
       /\ (FromAddr (message st_plain) <> "" -> To (message st_plain) <> [] ->
           if has_newline (FromAddr (message st_plain))
           then d = []
                /\ fst (Send world_ok (snd (Quit world_ok st_plain)))
                   = Err "smtp: A line must not contain CR or LF"
           else exists d', d = EvMail (FromAddr (message st_plain)) :: d').
Proof.
  split; [reflexivity|]. split; [reflexivity|].
  exact (Send_after_Quit_reuses_session world_ok st_plain (Conn 0)
           eq_refl eq_refl).
Defined.

Lemma Send_stops_at_refused_recipient_witness :
  dialed (mailer st_picky) = true
  /\ client (mailer st_picky) = Some (Conn 0)
  /\ FromAddr (message st_picky) <> ""
  /\ has_newline (FromAddr (message st_picky)) = false
  /\ To (message st_picky) = (["b@y.com"] ++ "c@y.com" :: [])%list
  /\ cmd_reply world_picky (trace st_picky)
       (EvMail (FromAddr (message st_picky))) = None
  /\ rcpts_accepted world_picky
       (trace st_picky ++ [EvMail (FromAddr (message st_picky))])
       ["b@y.com"] = true
  /\ has_newline "c@y.com" = false
  /\ cmd_reply world_picky
       (trace st_picky ++ [EvMail (FromAddr (message st_picky))]
        ++ map EvRcpt ["b@y.com"]) (EvRcpt "c@y.com")
     = Some "550 no such user"
  /\ Send world_picky st_picky
     = (Err "550 no such user",
        set_trace (trace st_picky ++ [EvMail (FromAddr (message st_picky))]
                   ++ map EvRcpt ["b@y.com"] ++ [EvRcpt "c@y.com"])
          (set_message (defaulted (message st_picky)) st_picky)).
Proof.
  assert (Hfrom : FromAddr (message st_picky) <> "") by discriminate.
  split; [reflexivity|]. split; [reflexivity|]. split; [exact Hfrom|].
  split; [reflexivity|]. split; [reflexivity|]. split; [reflexivity|].
  split; [reflexivity|]. split; [reflexivity|]. split; [reflexivity|].
  exact (Send_stops_at_refused_recipient world_picky st_picky (Conn 0)
           ["b@y.com"] [] "c@y.com" "550 no such user"
           eq_refl eq_refl Hfrom eq_refl eq_refl eq_refl eq_refl eq_refl
           eq_refl).
Defined.

Lemma Send_reports_success_whatever_the_data_phase_answers_witness :
  let m := defaulted (message st_picky_plain) in
  let sent := payload world_picky m
                (set_trace (trace st_picky_plain ++ opening m)
                   (set_message m st_picky_plain)) in
  dialed (mailer st_picky_plain) = true
  /\ client (mailer st_picky_plain) = Some (Conn 0)
  /\ FromAddr (message st_picky_plain) <> ""
  /\ To (message st_picky_plain) <> []
  /\ transaction_accepted world_picky (trace st_picky_plain) m = true
  /\ sent = (Ok (envelope_of sent), snd sent)
  /\ cmd_reply world_picky
       (trace (snd sent) ++ [EvWrite (envelope_of sent)]) EvClose
     = Some "554 transaction failed"
  /\ Send world_picky st_picky_plain
     = (Ok tt,
        set_trace (trace (snd sent) ++ [EvWrite (envelope_of sent); EvClose])
          (snd sent)).
Proof.
  intros m sent.
  assert (Hfrom : FromAddr (message st_picky_plain) <> "") by discriminate.
  assert (Hto : To (message st_picky_plain) <> []) by discriminate.
  assert (Hp : sent = (Ok (envelope_of sent), snd sent))
    by (vm_compute; reflexivity).
  split; [reflexivity|]. split; [reflexivity|]. split; [exact Hfrom|].
  split; [exact Hto|]. split; [reflexivity|]. split; [exact Hp|].
  split; [reflexivity|].
  exact (Send_reports_success_whatever_the_data_phase_answers world_picky
           st_picky_plain (Conn 0) _ _ eq_refl eq_refl Hfrom Hto eq_refl Hp).
Defined.

Lemma new_session_panics_without_dial_witness :
  (NewXMailer split_sample "smtp.x.com:587" "a@x.com" "secret" = inr mailer_new
   \/ NewXMailerWithStartTLS split_sample "smtp.x.com:587" "a@x.com" "secret"
        None = inr mailer_new)
  /\ Quit world_ok (set_mailer mailer_new st_plain)
     = (Panic "Quit", set_mailer mailer_new st_plain)
  /\ Auth world_ok (set_mailer mailer_new st_plain)
     = (Panic "Extension", set_mailer mailer_new st_plain)
  /\ dialed mailer_new = false.
Proof.
  assert (H : NewXMailer split_sample "smtp.x.com:587" "a@x.com" "secret"
              = inr mailer_new
              \/ NewXMailerWithStartTLS split_sample "smtp.x.com:587"
                   "a@x.com" "secret" None = inr mailer_new)
    by (left; reflexivity).
  split; [exact H|].
  exact (new_session_panics_without_dial split_sample "smtp.x.com:587"
           "a@x.com" "secret" None mailer_new world_ok st_plain H).
Defined.

Lemma Send_after_failed_dial_calls_smtp_Dial_witness :
  let failed := DialWithTLS world_unreachable None st_unreachable in
  dialed (mailer st_unreachable) = false
  /\ fst failed <> Ok tt
  /\ exists rest,
       trace (snd (Send world_unreachable (snd failed)))
       = (trace (snd failed)
          ++ EvSmtpDial (Addr (mailer st_unreachable)) :: rest)%list.
Proof.
  intros failed.
  assert (Hf : fst failed <> Ok tt) by (vm_compute; discriminate).
  split; [reflexivity|]. split; [exact Hf|].
  exact (proj1 (Send_after_failed_dial_calls_smtp_Dial world_unreachable None
                  st_unreachable eq_refl) Hf).
Defined.
